(** * Workflow execution engine of las_core (routers/workflows.py)

    A shallow embedding of [WorkflowExecutionEngine]: the Python values the
    engine handles live in an explicit heap (the engine shares objects:
    the start node returns the inputs dict itself, the end node returns
    the variables dict itself, [append] mutates a list in place), the
    execution state and the [ExecutionResult] are threaded through a
    state-and-exception monad, and [execute] runs the traversal loop. *)

From Stdlib Require Import String Ascii List ZArith Bool Lia RelationClasses.
Import ListNotations.
Open Scope string_scope.
Set Warnings "-register-all".

(* ------------------------------------------------------------------ *)
(** ** Python values *)

Definition loc := nat.

(** Scalars are immediate; lists and dicts are heap objects reached by
    reference.  Numbers are integers (the JSON payloads the engine
    receives carry no fractional numbers in this model). *)
Inductive val :=
| VNone
| VBool (b : bool)
| VInt (z : Z)
| VStr (s : string)
| VRef (l : loc).

(** A Python dict: insertion-ordered (key, value) pairs, keys unique up to
    Python equality. *)
Definition dict := list (val * val).

Inductive obj :=
| ODict (d : dict)
| OList (xs : list val).

Definition heap := list obj.

(** JSON documents: the invocation inputs and the node [data] mappings as
    pydantic hands them to the engine (fresh objects, no sharing). *)
Inductive json :=
| JNone
| JBool (b : bool)
| JInt (z : Z)
| JStr (s : string)
| JList (xs : list json)
| JDict (kvs : list (string * json)).

Definition deref (h : heap) (l : loc) : option obj := nth_error h l.

Fixpoint heap_set (h : heap) (l : loc) (o : obj) : heap :=
  match h, l with
  | [], _ => []
  | _ :: h', O => o :: h'
  | x :: h', S l' => x :: heap_set h' l' o
  end.

(** [alloc] appends a fresh object; its location is the old heap size. *)
Definition alloc (h : heap) (o : obj) : heap * loc := ((h ++ [o])%list, length h).

(** [isinstance(v, dict)] and [isinstance(v, list)]. *)
Definition as_dict (h : heap) (v : val) : option dict :=
  match v with
  | VRef l => match deref h l with Some (ODict d) => Some d | _ => None end
  | _ => None
  end.

Definition as_list (h : heap) (v : val) : option (list val) :=
  match v with
  | VRef l => match deref h l with Some (OList xs) => Some xs | _ => None end
  | _ => None
  end.

(** Python [type(v).__name__], used in exception messages. *)
Definition type_name (h : heap) (v : val) : string :=
  match v with
  | VNone => "NoneType"
  | VBool _ => "bool"
  | VInt _ => "int"
  | VStr _ => "str"
  | VRef l => match deref h l with Some (OList _) => "list" | _ => "dict" end
  end.

(** Hashable values (may be dict keys): everything but lists and dicts. *)
Definition hashable (v : val) : bool :=
  match v with VRef _ => false | _ => true end.

(** Python [==] on hashable values: [True == 1] and [False == 0]. *)
Definition key_eqb (a b : val) : bool :=
  match a, b with
  | VNone, VNone => true
  | VBool x, VBool y => Bool.eqb x y
  | VBool x, VInt z | VInt z, VBool x => Z.eqb z (if x then 1 else 0)
  | VInt x, VInt y => Z.eqb x y
  | VStr x, VStr y => String.eqb x y
  | _, _ => false
  end.

Fixpoint dict_lookup (k : val) (d : dict) : option val :=
  match d with
  | [] => None
  | (k', v) :: d' => if key_eqb k' k then Some v else dict_lookup k d'
  end.

(** [d.get(k, default)] for a hashable [k]. *)
Definition dict_get (d : dict) (k : val) (default : val) : val :=
  match dict_lookup k d with Some v => v | None => default end.

(** [d[k] = v]: an existing key keeps its position (and its key object). *)
Fixpoint dict_set (k v : val) (d : dict) : dict :=
  match d with
  | [] => [(k, v)]
  | (k', v') :: d' => if key_eqb k' k then (k', v) :: d' else (k', v') :: dict_set k v d'
  end.

Fixpoint alloc_json (h : heap) (j : json) : heap * val :=
  match j with
  | JNone => (h, VNone)
  | JBool b => (h, VBool b)
  | JInt z => (h, VInt z)
  | JStr s => (h, VStr s)
  | JList xs =>
      let '(h1, vs) :=
        fold_left (fun '(hh, acc) x => let '(hh', v) := alloc_json hh x in (hh', (acc ++ [v])%list))
                  xs (h, []) in
      let '(h2, l) := alloc h1 (OList vs) in (h2, VRef l)
  | JDict kvs =>
      let '(h1, d) :=
        fold_left (fun '(hh, acc) '(k, x) =>
                     let '(hh', v) := alloc_json hh x in (hh', dict_set (VStr k) v acc))
                  kvs (h, []) in
      let '(h2, l) := alloc h1 (ODict d) in (h2, VRef l)
  end.

(** [d.update(src)] and the dict display [{**a, **b}]. *)
Definition dict_update (d src : dict) : dict :=
  fold_left (fun acc '(k, v) => dict_set k v acc) src d.

(* ------------------------------------------------------------------ *)
(** ** Python strings (code points 0..255) *)

Definition chr (n : nat) : ascii := ascii_of_nat n.

(** [str.isspace] and the regex class [\s] on Latin-1 code points. *)
Definition py_isspace (c : ascii) : bool :=
  let n := nat_of_ascii c in
  (Nat.leb 9 n && Nat.leb n 13) || (Nat.leb 28 n && Nat.leb n 32) || Nat.eqb n 133 || Nat.eqb n 160.

Fixpoint lstrip_by (p : ascii -> bool) (s : string) : string :=
  match s with
  | EmptyString => EmptyString
  | String c s' => if p c then lstrip_by p s' else s
  end.

Fixpoint rev_string (s : string) : string :=
  match s with
  | EmptyString => EmptyString
  | String c s' => rev_string s' ++ String c EmptyString
  end.

Definition rstrip_by (p : ascii -> bool) (s : string) : string :=
  rev_string (lstrip_by p (rev_string s)).

(** [s.strip()] *)
Definition py_strip (s : string) : string := rstrip_by py_isspace (lstrip_by py_isspace s).

(** [s.strip(QUOTES)], QUOTES being the single and the double quote. *)
Definition is_quote (c : ascii) : bool := Ascii.eqb c "'"%char || Ascii.eqb c (chr 34).
Definition py_strip_quotes (s : string) : string := rstrip_by is_quote (lstrip_by is_quote s).

(** [str.lower] on Latin-1: A-Z and the accented capitals 0xC0-0xDE but 0xD7. *)
Definition py_lower_char (c : ascii) : ascii :=
  let n := nat_of_ascii c in
  if (Nat.leb 65 n && Nat.leb n 90) || (Nat.leb 192 n && Nat.leb n 222 && negb (Nat.eqb n 215))
  then chr (n + 32) else c.

Fixpoint py_lower (s : string) : string :=
  match s with
  | EmptyString => EmptyString
  | String c s' => String (py_lower_char c) (py_lower s')
  end.

Fixpoint starts_with (p s : string) : bool :=
  match p, s with
  | EmptyString, _ => true
  | String a p', String b s' => Ascii.eqb a b && starts_with p' s'
  | String _ _, EmptyString => false
  end.

(** [sub in s] *)
Fixpoint py_contains (s sub : string) : bool :=
  starts_with sub s ||
  match s with
  | EmptyString => false
  | String _ s' => py_contains s' sub
  end.

(** [s.split(sep, 1)] for a non-empty [sep]: [Some (before, after)] at the
    first occurrence, [None] when [sep] does not occur. *)
Fixpoint split_once (sep s : string) : option (string * string) :=
  if starts_with sep s then Some (EmptyString, substring (String.length sep) (String.length s) s)
  else match s with
       | EmptyString => None
       | String c s' =>
           match split_once sep s' with
           | Some (a, b) => Some (String c a, b)
           | None => None
           end
       end.

(** [s.split(".")] *)
Fixpoint split_dot (s : string) : list string :=
  match s with
  | EmptyString => [EmptyString]
  | String c s' =>
      match split_dot s' with
      | [] => [String c EmptyString]
      | p :: ps => if Ascii.eqb c "." then EmptyString :: p :: ps else String c p :: ps
      end
  end.

(** [str(z)] for an int. *)
Fixpoint digits_of_pos (fuel : nat) (p : positive) (acc : string) : string :=
  match fuel with
  | O => acc
  | S f =>
      let q := Z.div (Zpos p) 10 in
      let r := Z.to_nat (Z.modulo (Zpos p) 10) in
      let acc' := String (chr (48 + r)) acc in
      match q with
      | Zpos q' => digits_of_pos f q' acc'
      | _ => acc'
      end
  end.

Definition z_to_string (z : Z) : string :=
  match z with
  | Z0 => "0"
  | Zpos p => digits_of_pos (Pos.size_nat p) p EmptyString
  | Zneg p => "-" ++ digits_of_pos (Pos.size_nat p) p EmptyString
  end.

(* ------------------------------------------------------------------ *)
(** ** Exceptions and the Python builtins the engine relies on *)

(** A computation either returns or raises an exception, kept as [str(e)]. *)
Inductive result (A : Type) :=
| Ok (a : A)
| Exc (msg : string).
Arguments Ok {A} a.
Arguments Exc {A} msg.

(** The builtins that are not worth re-implementing ([float], [repr] of a
    container, [json.dumps]) and the capability collaborators the engine
    calls into (agents, tools, the LLM).  Every theorem below holds for
    every runtime. *)
Class Runtime := {
  (** Python floats, [float(x)] (raising [ValueError] or [TypeError]) and [<] *)
  pyfloat : Type;
  py_float : heap -> val -> result pyfloat;
  float_lt : pyfloat -> pyfloat -> bool;
  (** [repr] of the list or dict object at a location *)
  repr_obj : heap -> loc -> string;
  (** [json.dumps(v, indent=2)] *)
  json_dumps : heap -> val -> result string;
  (** an agent run on a prompt: the reply and the message list *)
  agent_invoke : val -> string -> result (json * json);
  (** [tool_service.execute_command(command, **args)] *)
  tool_invoke : val -> dict -> heap -> result json;
  (** [llm.invoke([HumanMessage(content=prompt)]).content] *)
  llm_invoke : string -> result string
}.

Section Values.
Context `{Runtime}.

(** [str(v)] *)
Definition py_str (h : heap) (v : val) : string :=
  match v with
  | VNone => "None"
  | VBool true => "True"
  | VBool false => "False"
  | VInt z => z_to_string z
  | VStr s => s
  | VRef l => repr_obj h l
  end.

(** [bool(v)] *)
Definition py_truthy (h : heap) (v : val) : bool :=
  match v with
  | VNone => false
  | VBool b => b
  | VInt z => negb (Z.eqb z 0)
  | VStr s => negb (String.eqb s "")
  | VRef l =>
      match deref h l with
      | Some (ODict d) => negb (Nat.eqb (length d) 0)
      | Some (OList xs) => negb (Nat.eqb (length xs) 0)
      | None => true
      end
  end.

End Values.

(* ------------------------------------------------------------------ *)
(** ** Template substitution: [_substitute_variables] *)

(** The pattern [\{\{\s*([^}]+)\s*\}\}] matches at a position exactly when
    two opening braces are followed by a non-empty run of characters other
    than a closing brace and that run is followed by two closing braces
    (backtracking cannot help: every shorter run is followed by a
    character other than a closing brace).  Group 1 is that run with its
    leading white space removed; the code strips it, so the stripped run
    is what matters. *)
Fixpoint take_run (s : string) : string * string :=
  match s with
  | EmptyString => (EmptyString, EmptyString)
  | String c s' =>
      if Ascii.eqb c "}" then (EmptyString, s)
      else let '(a, b) := take_run s' in (String c a, b)
  end.

Definition match_at (s : string) : option (string * string) :=
  match s with
  | String "{" (String "{" s') =>
      let '(run, rest) := take_run s' in
      match run, rest with
      | String _ _, String "}" (String "}" rest') => Some (run, rest')
      | _, _ => None
      end
  | _ => None
  end.

(** [re.sub(pattern, repl, text)]: leftmost matches, scanning resumes after
    each match; [fuel] is the length of the text. *)
Fixpoint sub_scan (fuel : nat) (repl : string -> string) (s : string) : string :=
  match fuel with
  | O => s
  | S f =>
      match s with
      | EmptyString => EmptyString
      | String c s' =>
          match match_at s with
          | Some (m, rest) => repl m ++ sub_scan f repl rest
          | None => String c (sub_scan f repl s')
          end
      end
  end.

Definition re_sub (repl : string -> string) (s : string) : string :=
  sub_scan (String.length s) repl s.

Section Substitution.
Context `{Runtime}.

(** The loop of [replace_var]: [value.get(part, "")] while [value] is a
    dict, [""] as soon as it is not. *)
Fixpoint walk (h : heap) (value : val) (parts : list string) : val :=
  match parts with
  | [] => value
  | part :: ps =>
      match as_dict h value with
      | Some d => walk h (dict_get d (VStr part) (VStr "")) ps
      | None => VStr ""
      end
  end.

(** [replace_var], [all_vars] being the merged dict object. *)
Definition replace_var (h : heap) (all_vars : val) (m : string) : string :=
  let var_name := py_strip m in
  py_str h (walk h all_vars (split_dot var_name)).

(** [{**a, **b}] raises [TypeError] when an operand is not a mapping. *)
Definition not_a_mapping (h : heap) (v : val) : string :=
  "'" ++ type_name h v ++ "' object is not a mapping".

(** [state.get(k, {})] where the default dict is only materialised when
    the key is absent. *)
Definition state_get_dict (h : heap) (st : dict) (k : string) : heap * val :=
  match dict_lookup (VStr k) st with
  | Some v => (h, v)
  | None => let '(h', l) := alloc h (ODict []) in (h', VRef l)
  end.

Definition substitute_variables (h : heap) (st : dict) (text : val) : heap * result string :=
  let '(h1, variables) := state_get_dict h st "variables" in
  let '(h2, inputs) := state_get_dict h1 st "inputs" in
  match as_dict h2 inputs with
  | None => (h2, Exc (not_a_mapping h2 inputs))
  | Some di =>
      match as_dict h2 variables with
      | None => (h2, Exc (not_a_mapping h2 variables))
      | Some dv =>
          let '(h3, l) := alloc h2 (ODict (dict_update (dict_update [] di) dv)) in
          match text with
          | VStr s => (h3, Ok (re_sub (replace_var h3 (VRef l)) s))
          | _ => (h3, Exc ("expected string or bytes-like object, got '" ++ type_name h3 text ++ "'"))
          end
      end
  end.

End Substitution.

(* ------------------------------------------------------------------ *)
(** ** Workflow definitions and execution records *)

(** [WorkflowNode] ([position] is layout metadata the engine never reads). *)
Record WorkflowNode := mkNode {
  node_id : string;
  node_type : string;
  node_data : list (string * json)
}.

Record WorkflowEdge := mkEdge {
  edge_id : string;
  source : string;
  target : string;
  label : option string
}.

(** [Workflow] ([name], [description] and the time stamps are not read). *)
Record Workflow := mkWorkflow {
  wf_id : option string;
  wf_nodes : list WorkflowNode;
  wf_edges : list WorkflowEdge
}.

Inductive ExecutionStatus := PENDING | RUNNING | COMPLETED | FAILED | CANCELLED.

Record ExecutionResult := mkResult {
  execution_id : string;
  workflow_id : string;
  status : ExecutionStatus;
  started_at : string;
  completed_at : option string;
  current_node : option string;
  outputs : dict;
  errors : list string;
  node_results : dict
}.

(** A node as the engine holds it once pydantic has built it: its [data]
    mapping is a dict object of the heap. *)
Record RNode := mkRNode {
  rn_id : string;
  rn_type : string;
  rn_data : val
}.

(** String-keyed Python dicts built by the engine ([nodes], [edges_from]). *)
Definition smap (A : Type) := list (string * A).

Fixpoint smap_get {A} (k : string) (m : smap A) : option A :=
  match m with
  | [] => None
  | (k', a) :: m' => if String.eqb k' k then Some a else smap_get k m'
  end.

Fixpoint smap_set {A} (k : string) (a : A) (m : smap A) : smap A :=
  match m with
  | [] => [(k, a)]
  | (k', a') :: m' => if String.eqb k' k then (k', a) :: m' else (k', a') :: smap_set k a m'
  end.

(* ------------------------------------------------------------------ *)
(** ** The state-and-exception monad of a run *)

(** Everything a run mutates: the heap, the [state] dict, the
    [ExecutionResult] and the log of dispatched nodes (the node ids of the
    ["Executing node: ..."] log lines). *)
Record world := mkWorld {
  w_heap : heap;
  w_state : dict;
  w_result : ExecutionResult;
  w_log : list string
}.

(** An exception leaves the mutations made before it in place. *)
Definition M (A : Type) := world -> world * result A.

Definition ret {A} (a : A) : M A := fun w => (w, Ok a).
Definition raise {A} (msg : string) : M A := fun w => (w, Exc msg).
Definition bind {A B} (m : M A) (k : A -> M B) : M B :=
  fun w => match m w with
           | (w', Ok a) => k a w'
           | (w', Exc e) => (w', Exc e)
           end.

Notation "x <- m ;; k" := (bind m (fun x => k))
  (at level 61, m at next level, right associativity).
Notation "' p <- m ;; k" := (bind m (fun x => match x with p => k end))
  (at level 61, p pattern, m at next level, right associativity).
Notation "m ;;; k" := (bind m (fun _ => k)) (at level 61, right associativity).

(** [try: m except Exception as e: handler(str(e))] *)
Definition try_except {A} (m : M A) (handler : string -> M A) : M A :=
  fun w => match m w with
           | (w', Exc e) => handler e w'
           | r => r
           end.

Definition get_heap : M heap := fun w => (w, Ok (w_heap w)).
Definition get_state : M dict := fun w => (w, Ok (w_state w)).
Definition get_result : M ExecutionResult := fun w => (w, Ok (w_result w)).

Definition put_heap (h : heap) : M unit :=
  fun w => (mkWorld h (w_state w) (w_result w) (w_log w), Ok tt).
Definition put_state (st : dict) : M unit :=
  fun w => (mkWorld (w_heap w) st (w_result w) (w_log w), Ok tt).
Definition put_result (r : ExecutionResult) : M unit :=
  fun w => (mkWorld (w_heap w) (w_state w) r (w_log w), Ok tt).
Definition log_dispatch (id : string) : M unit :=
  fun w => (mkWorld (w_heap w) (w_state w) (w_result w) (w_log w ++ [id])%list, Ok tt).

(** Run a heap computation of the value layer. *)
Definition on_heap {A} (f : heap -> heap * result A) : M A :=
  fun w => let '(h', r) := f (w_heap w) in
           (mkWorld h' (w_state w) (w_result w) (w_log w), r).

Definition new_obj (o : obj) : M val :=
  h <- get_heap;; let '(h', l) := alloc h o in put_heap h';;; ret (VRef l).

Definition new_dict (d : dict) : M val := new_obj (ODict d).

Definition new_json (j : json) : M val :=
  h <- get_heap;; let '(h', v) := alloc_json h j in put_heap h';;; ret v.

(** [state.get(k, {})] *)
Definition state_get (k : string) : M val :=
  st <- get_state;; h <- get_heap;;
  let '(h', v) := state_get_dict h st k in put_heap h';;; ret v.

(** [data.get(k)] on a node's data dict, [None] when the key is absent. *)
Definition data_lookup (data : val) (k : string) : M (option val) :=
  h <- get_heap;;
  ret (match as_dict h data with
       | Some d => dict_lookup (VStr k) d
       | None => None
       end).

(** [data.get(k, default)] for an immutable [default]. *)
Definition data_get (data : val) (k : string) (default : val) : M val :=
  o <- data_lookup data k;; ret (match o with Some v => v | None => default end).

(** [{key: value}] raises [TypeError] for an unhashable key. *)
Definition singleton_dict (k v : val) : M val :=
  h <- get_heap;;
  if hashable k then new_dict [(k, v)]
  else raise ("unhashable type: '" ++ type_name h k ++ "'").

Section Engine.
Context `{Runtime}.

Definition subst (text : val) : M string :=
  st <- get_state;; on_heap (fun h => substitute_variables h st text).

Definition lift {A} (r : result A) : M A :=
  match r with Ok a => ret a | Exc e => raise e end.

Definition val_is_str (v : val) (s : string) : bool :=
  match v with VStr s' => String.eqb s' s | _ => false end.

(** [obj.get(k)] on a value that should be a dict: [AttributeError] when it
    is not, [TypeError] for an unhashable key. *)
Definition method_get (o k : val) : M (option val) :=
  h <- get_heap;;
  match as_dict h o with
  | Some d =>
      if hashable k then ret (dict_lookup k d)
      else raise ("unhashable type: '" ++ type_name h k ++ "'")
  | None => raise ("'" ++ type_name h o ++ "' object has no attribute 'get'")
  end.

Definition method_get_default (o k default : val) : M val :=
  r <- method_get o k;; ret (match r with Some v => v | None => default end).

(** [float(v)] *)
Definition to_float (v : val) : M pyfloat :=
  h <- get_heap;; lift (py_float h v).

(** [list.append] on a list object. *)
Definition list_append (lst x : val) : M unit :=
  h <- get_heap;;
  match lst with
  | VRef l =>
      match deref h l with
      | Some (OList xs) => put_heap (heap_set h l (OList (xs ++ [x])%list))
      | _ => raise "'dict' object has no attribute 'append'"
      end
  | _ => raise ("'" ++ type_name h lst ++ "' object has no attribute 'append'")
  end.

(** The elements [for v in values] iterates over. *)
Definition py_iter (v : val) : M (list val) :=
  h <- get_heap;;
  match v with
  | VStr s => ret (map (fun c => VStr (String c EmptyString)) (list_ascii_of_string s))
  | VRef l =>
      match deref h l with
      | Some (OList xs) => ret xs
      | Some (ODict d) => ret (map fst d)
      | None => raise "object is not iterable"
      end
  | _ => raise ("'" ++ type_name h v ++ "' object is not iterable")
  end.

Fixpoint py_join (sep : string) (xs : list string) : string :=
  match xs with
  | [] => EmptyString
  | [x] => x
  | x :: xs' => x ++ sep ++ py_join sep xs'
  end.

Fixpoint map_m {A B} (f : A -> M B) (xs : list A) : M (list B) :=
  match xs with
  | [] => ret []
  | x :: xs' => y <- f x;; ys <- map_m f xs';; ret (y :: ys)
  end.

(** [_execute_agent_node] *)
Definition execute_agent_node (data : val) : M (val * option string) :=
  agent_type <- data_get data "agent_type" (VStr "planner");;
  prompt <- data_get data "prompt" (VStr "");;
  prompt' <- subst prompt;;
  match agent_invoke agent_type prompt' with
  | Ok (reply, messages) =>
      r <- new_json reply;;
      if val_is_str agent_type "planner" then
        m <- new_json messages;;
        out <- new_dict [(VStr "agent_response", r); (VStr "messages", m)];; ret (out, None)
      else
        out <- new_dict [(VStr "agent_response", r)];; ret (out, None)
  | Exc e =>
      out <- new_dict [(VStr "error", VStr e)];; ret (out, None)
  end.

(** The loop filling [resolved_args]. *)
Fixpoint resolve_args (items : dict) (acc : dict) : M dict :=
  match items with
  | [] => ret acc
  | (k, v) :: rest =>
      v' <- (match v with
             | VStr _ => s <- subst v;; ret (VStr s)
             | _ => ret v
             end);;
      resolve_args rest (dict_set k v' acc)
  end.

(** [_execute_tool_node] *)
Definition execute_tool_node (data : val) : M (val * option string) :=
  command <- data_get data "command" (VStr "");;
  args <- data_lookup data "args";;
  h <- get_heap;;
  items <- (match args with
            | None => ret []
            | Some a =>
                match as_dict h a with
                | Some d => ret d
                | None => raise ("'" ++ type_name h a ++ "' object has no attribute 'items'")
                end
            end);;
  resolved <- resolve_args items [];;
  h' <- get_heap;;
  match tool_invoke command resolved h' with
  | Ok j => r <- new_json j;; out <- new_dict [(VStr "tool_result", r)];; ret (out, None)
  | Exc e => out <- new_dict [(VStr "error", VStr e)];; ret (out, None)
  end.

(** The syntactic branch of [_execute_decision_node], inside its [try]:
    [split_once sep rc] is [Some _] exactly when [sep in rc], and then
    gives [rc.split(sep, 1)]. *)
Definition evaluate_condition (rc : string) (variables : val) : M bool :=
  match split_once " == " rc with
  | Some (a, b) =>
      let left := py_strip a in
      let right := py_strip_quotes (py_strip b) in
      lv <- method_get_default variables (VStr left) (VStr left);;
      h <- get_heap;; ret (String.eqb (py_str h lv) right)
  | None =>
  match split_once " != " rc with
  | Some (a, b) =>
      let left := py_strip a in
      let right := py_strip_quotes (py_strip b) in
      lv <- method_get_default variables (VStr left) (VStr left);;
      h <- get_heap;; ret (negb (String.eqb (py_str h lv) right))
  | None =>
  match split_once " in " rc with
  | Some (a, b) =>
      let keyword := py_strip_quotes (py_strip a) in
      let var_name := py_strip b in
      vv <- method_get_default variables (VStr var_name) (VStr var_name);;
      h <- get_heap;; ret (py_contains (py_str h vv) keyword)
  | None =>
  match split_once " > " rc with
  | Some (a, b) =>
      lv <- method_get_default variables (VStr (py_strip a)) (VStr (py_strip a));;
      left <- to_float lv;;
      right <- to_float (VStr (py_strip b));;
      ret (float_lt right left)
  | None =>
  match split_once " < " rc with
  | Some (a, b) =>
      lv <- method_get_default variables (VStr (py_strip a)) (VStr (py_strip a));;
      left <- to_float lv;;
      right <- to_float (VStr (py_strip b));;
      ret (float_lt left right)
  | None =>
      v <- method_get_default variables (VStr rc) (VBool false);;
      h <- get_heap;; ret (py_truthy h v)
  end end end end end.

Definition nl : string := String (chr 10) EmptyString.

Definition llm_prompt (condition context : string) : string :=
  "Evaluate this condition and respond with ONLY 'yes' or 'no':" ++ nl ++ nl ++
  "Condition: " ++ condition ++ nl ++ nl ++
  "Current state/context:" ++ nl ++ context ++ nl ++ nl ++
  "Answer (yes/no):".

Definition error_output (e : string) : M val := new_dict [(VStr "error", VStr e)].

(** [_execute_decision_node] *)
Definition execute_decision_node (data : val) : M (val * option string) :=
  condition <- data_get data "condition" (VStr "");;
  use_llm <- data_get data "use_llm" (VBool false);;
  h <- get_heap;;
  if py_truthy h use_llm then
    try_except
      (variables <- state_get "variables";;
       h1 <- get_heap;;
       context <- lift (json_dumps h1 variables);;
       response <- lift (llm_invoke (llm_prompt (py_str h1 condition) context));;
       let answer := py_lower (py_strip response) in
       if py_contains answer "yes" then
         out <- new_dict [(VStr "decision", VStr "yes")];; ret (out, Some "yes")
       else
         out <- new_dict [(VStr "decision", VStr "no")];; ret (out, Some "no"))
      (fun e => out <- error_output e;; ret (out, Some "default"))
  else
    try_except
      (resolved_condition <- subst condition;;
       variables <- state_get "variables";;
       b <- evaluate_condition resolved_condition variables;;
       let lbl := if b then "yes" else "no" in
       out <- new_dict [(VStr "decision", VStr lbl); (VStr "condition", VStr resolved_condition)];;
       ret (out, Some lbl))
      (fun e => out <- error_output e;; ret (out, Some "default")).

(** [_execute_transform_node] *)
Definition execute_transform_node (data : val) : M (val * option string) :=
  operation <- data_get data "operation" (VStr "set");;
  target <- data_get data "target" (VStr "result");;
  value <- data_get data "value" (VStr "");;
  source <- data_get data "source" (VStr "");;
  variables <- state_get "variables";;
  try_except
    (if val_is_str operation "set" then
       h <- get_heap;;
       resolved_value <- subst (VStr (py_str h value));;
       out <- singleton_dict target (VStr resolved_value);; ret (out, None)
     else if val_is_str operation "append" then
       o <- method_get variables target;;
       existing <- (match o with Some v => ret v | None => new_obj (OList []) end);;
       h <- get_heap;;
       existing <- (match as_list h existing with
                    | Some _ => ret existing
                    | None => if py_truthy h existing then new_obj (OList [existing])
                              else new_obj (OList [])
                    end);;
       h <- get_heap;;
       resolved_value <- subst (VStr (py_str h value));;
       list_append existing (VStr resolved_value);;;
       out <- singleton_dict target existing;; ret (out, None)
     else if val_is_str operation "extract" then
       o <- method_get variables source;;
       source_val <- (match o with Some v => ret v | None => new_dict [] end);;
       field <- data_get data "field" (VStr "");;
       h <- get_heap;;
       match as_dict h source_val with
       | Some _ =>
           fv <- method_get_default source_val field (VStr "");;
           out <- singleton_dict target fv;; ret (out, None)
       | None => out <- singleton_dict target (VStr "");; ret (out, None)
       end
     else if val_is_str operation "template" then
       template <- data_get data "template" (VStr "");;
       resolved <- subst template;;
       out <- singleton_dict target (VStr resolved);; ret (out, None)
     else if val_is_str operation "concat" then
       values <- data_lookup data "values";;
       values <- (match values with Some v => ret v | None => new_obj (OList []) end);;
       separator <- data_get data "separator" (VStr " ");;
       items <- py_iter values;;
       resolved_values <- map_m (fun v => h <- get_heap;; subst (VStr (py_str h v))) items;;
       h <- get_heap;;
       match separator with
       | VStr sep => out <- singleton_dict target (VStr (py_join sep resolved_values));; ret (out, None)
       | _ => raise ("'" ++ type_name h separator ++ "' object has no attribute 'join'")
       end
     else
       out <- singleton_dict target value;; ret (out, None))
    (fun e => out <- error_output e;; ret (out, None)).

(** The least int that [float()] rejects: from [2^1024 - 2^970] on, the
    conversion rounds to [2^1024], beyond the largest double, and raises
    [OverflowError]. *)
Definition float_overflow_bound : Z := (2 ^ 1024 - 2 ^ 970)%Z.

(** The delay branch of [_execute_node]: [asyncio.sleep] compares its
    argument with [0], which raises [TypeError] for a non-number; a
    positive int is then converted to a float ([loop.time() + delay] in
    [call_later], and first [math.isnan(delay)] where [sleep] checks for
    NaN), which raises [OverflowError] from [float_overflow_bound] on. *)
Definition execute_delay_node (data : val) : M (val * option string) :=
  delay_seconds <- data_get data "seconds" (VInt 1);;
  h <- get_heap;;
  match delay_seconds with
  | VInt z =>
      if Z.leb float_overflow_bound z then raise "int too large to convert to float"
      else out <- new_dict [(VStr "delayed", delay_seconds)];; ret (out, None)
  | VBool _ => out <- new_dict [(VStr "delayed", delay_seconds)];; ret (out, None)
  | _ => raise ("'<=' not supported between instances of '" ++ type_name h delay_seconds ++ "' and 'int'")
  end.

(** [_execute_node]: dispatch on the node type. *)
Definition execute_node (n : RNode) : M (val * option string) :=
  let data := rn_data n in
  let t := rn_type n in
  if String.eqb t "start" then
    v <- state_get "inputs";; ret (v, None)
  else if String.eqb t "end" then
    output_key <- data_get data "output_key" (VStr "result");;
    variables <- state_get "variables";;
    out <- singleton_dict output_key variables;; ret (out, None)
  else if String.eqb t "agent" then execute_agent_node data
  else if String.eqb t "tool" then execute_tool_node data
  else if String.eqb t "decision" then execute_decision_node data
  else if String.eqb t "transform" then execute_transform_node data
  else if String.eqb t "delay" then execute_delay_node data
  else out <- new_dict [];; ret (out, None).

End Engine.

(* ------------------------------------------------------------------ *)
(** ** Traversal: [execute], [_find_start_node], [_find_next_node] *)

Definition with_current_node (r : ExecutionResult) (id : string) : ExecutionResult :=
  mkResult (execution_id r) (workflow_id r) (status r) (started_at r) (completed_at r)
           (Some id) (outputs r) (errors r) (node_results r).

Definition with_node_result (r : ExecutionResult) (id : string) (v : val) : ExecutionResult :=
  mkResult (execution_id r) (workflow_id r) (status r) (started_at r) (completed_at r)
           (current_node r) (outputs r) (errors r) (dict_set (VStr id) v (node_results r)).

Definition with_outputs (r : ExecutionResult) (o : dict) : ExecutionResult :=
  mkResult (execution_id r) (workflow_id r) (status r) (started_at r) (completed_at r)
           (current_node r) o (errors r) (node_results r).

(** The terminal transition: status, errors appended, [completed_at]. *)
Definition finish (r : ExecutionResult) (s : ExecutionStatus) (errs : list string)
  (stamp : string) : ExecutionResult :=
  mkResult (execution_id r) (workflow_id r) s (started_at r) (Some stamp)
           (current_node r) (outputs r) (errors r ++ errs)%list (node_results r).

Definition build_nodes (ns : list RNode) : smap RNode :=
  fold_left (fun m n => smap_set (rn_id n) n m) ns [].

Definition build_edges_from (es : list WorkflowEdge) : smap (list WorkflowEdge) :=
  fold_left (fun m e =>
               match smap_get (source e) m with
               | None => smap_set (source e) [e] m
               | Some l => smap_set (source e) (l ++ [e])%list m
               end) es [].

(** [_find_start_node]: the first node of type start in [nodes.values()]. *)
Definition find_start_node (nodes : smap RNode) : option RNode :=
  option_map snd (find (fun '(_, n) => String.eqb (rn_type n) "start") nodes).

(** [edge.label and edge.label.lower() == want] *)
Definition label_matches (want : string) (e : WorkflowEdge) : bool :=
  match label e with
  | Some el => negb (String.eqb el "") && String.eqb (py_lower el) want
  | None => false
  end.

(** [_find_next_node] *)
Definition find_next_node (current_id : string) (edges_from : smap (list WorkflowEdge))
  (lbl : option string) : option string :=
  let edges := match smap_get current_id edges_from with Some es => es | None => [] end in
  match edges with
  | [] => None
  | e0 :: _ =>
      let by_label :=
        match lbl with
        | Some l =>
            if String.eqb l "" then None
            else match find (label_matches (py_lower l)) edges with
                 | Some e => Some (target e)
                 | None => option_map target (find (label_matches "default") edges)
                 end
        | None => None
        end in
      match by_label with
      | Some t => Some t
      | None => Some (target e0)
      end
  end.

Definition max_iterations : nat := 100.

(** How the [while] loop of [execute] is left. *)
Inductive loop_exit :=
| LoopCondition   (* [current_node_id] falsy or [iteration] at the cap *)
| LoopCycle       (* the cycle guard's [break] *)
| LoopEnd.        (* the [break] after an end node *)

Record loop_vars := mkLoop {
  current_node_id : option string;
  visited : list string;
  iteration : nat
}.

Definition mem (x : string) (xs : list string) : bool := existsb (String.eqb x) xs.

Definition set_add (x : string) (xs : list string) : list string :=
  if mem x xs then xs else (xs ++ [x])%list.

Section Traversal.
Context `{Runtime}.

(** [state["variables"].update(node_output); state.update(node_output)] *)
Definition merge_output (node_output : val) : M unit :=
  h <- get_heap;;
  match as_dict h node_output with
  | None => ret tt
  | Some d_out =>
      st <- get_state;;
      vv <- (match dict_lookup (VStr "variables") st with
             | Some v => ret v
             | None => raise "'variables'"
             end);;
      match vv with
      | VRef l =>
          match deref h l with
          | Some (ODict dv) =>
              put_heap (heap_set h l (ODict (dict_update dv d_out)));;;
              h' <- get_heap;;
              let d_out' := match as_dict h' node_output with Some d => d | None => [] end in
              put_state (dict_update st d_out')
          | _ => raise ("'" ++ type_name h vv ++ "' object has no attribute 'update'")
          end
      | _ => raise ("'" ++ type_name h vv ++ "' object has no attribute 'update'")
      end
  end.

Definition set_current_node (id : string) : M unit :=
  r <- get_result;; put_result (with_current_node r id).
Definition set_node_result (id : string) (v : val) : M unit :=
  r <- get_result;; put_result (with_node_result r id v).
Definition set_outputs (o : dict) : M unit :=
  r <- get_result;; put_result (with_outputs r o).

(** The [while] loop; [fuel] is [max_iterations - iteration], so running
    out of it coincides with the loop condition failing on the cap. *)
Fixpoint run_loop (fuel : nat) (nodes : smap RNode) (edges_from : smap (list WorkflowEdge))
  (lv : loop_vars) : M (loop_exit * loop_vars) :=
  match fuel with
  | O => ret (LoopCondition, lv)
  | S f =>
      match current_node_id lv with
      | Some cid =>
          if negb (String.eqb cid "") && Nat.ltb (iteration lv) max_iterations then
            let it := S (iteration lv) in
            cyc <- (if mem cid (visited lv) then
                      match smap_get cid nodes with
                      | Some n => ret (negb (String.eqb (rn_type n) "decision"))
                      | None => raise ("'" ++ cid ++ "'")
                      end
                    else ret false);;
            if cyc then ret (LoopCycle, mkLoop (Some cid) (visited lv) it)
            else
              let vis := set_add cid (visited lv) in
              match smap_get cid nodes with
              | None => raise ("Node " ++ cid ++ " not found")
              | Some n =>
                  set_current_node cid;;;
                  log_dispatch cid;;;
                  ' (node_output, next_label) <- execute_node n;;
                  set_node_result cid node_output;;;
                  merge_output node_output;;;
                  if String.eqb (rn_type n) "end" then
                    variables <- state_get "variables";;
                    set_outputs [(VStr "final", node_output); (VStr "state", variables)];;;
                    ret (LoopEnd, mkLoop (Some cid) vis it)
                  else
                    run_loop f nodes edges_from
                             (mkLoop (find_next_node cid edges_from next_label) vis it)
              end
          else ret (LoopCondition, lv)
      | None => ret (LoopCondition, lv)
      end
  end.

(** The body of the [try] block of [execute]. *)
Definition run_body (rnodes : list RNode) (edges : list WorkflowEdge) (inputs : val)
  : M (loop_exit * loop_vars) :=
  let nodes := build_nodes rnodes in
  let edges_from := build_edges_from edges in
  match find_start_node nodes with
  | None => raise "Workflow must have a 'start' node"
  | Some start_node =>
      messages <- new_obj (OList []);;
      variables <- new_dict [];;
      h <- get_heap;;
      let spread := match as_dict h inputs with Some d => d | None => [] end in
      put_state (dict_update [(VStr "inputs", inputs); (VStr "messages", messages);
                              (VStr "variables", variables)] spread);;;
      run_loop max_iterations nodes edges_from (mkLoop (Some (rn_id start_node)) [] 0)
  end.

(** pydantic builds the node [data] dicts before [execute] is called. *)
Fixpoint alloc_nodes (h : heap) (ns : list WorkflowNode) : heap * list RNode :=
  match ns with
  | [] => (h, [])
  | n :: ns' =>
      let '(h1, d) := alloc_json h (JDict (node_data n)) in
      let '(h2, rs) := alloc_nodes h1 ns' in
      (h2, mkRNode (node_id n) (node_type n) d :: rs)
  end.

(** The objects in place when the [try] block of [execute] is entered: the
    nodes with their data dicts, the inputs dict and the fresh
    [ExecutionResult(status=RUNNING, outputs={"inputs": inputs})];
    [None] when that record cannot be built (pydantic rejects
    [workflow_id=None], [ExecutionResult.workflow_id] being a [str]). *)
Definition prepare (exec_id started : string) (wf : Workflow)
  (inputs : list (string * json)) : option (list RNode * val * world) :=
  let '(h0, inputs_v) := alloc_json [] (JDict inputs) in
  let '(h1, rnodes) := alloc_nodes h0 (wf_nodes wf) in
  match wf_id wf with
  | None => None
  | Some wid =>
      let r0 := mkResult exec_id wid RUNNING started None None
                         [(VStr "inputs", inputs_v)] [] [] in
      Some (rnodes, inputs_v, mkWorld h1 [] r0 [])
  end.

(** [WorkflowExecutionEngine.execute]: [Exc] is an exception reaching the
    caller, [Ok w] the returned record [w_result w] with the final heap,
    state and log.  [started] and [finished] are the two
    [datetime.now().isoformat()] stamps, [exec_id] the fresh uuid. *)
Definition execute (exec_id started finished : string) (wf : Workflow)
  (inputs : list (string * json)) : result world :=
  match prepare exec_id started wf inputs with
  | None =>
      Exc "1 validation error for ExecutionResult: workflow_id: Input should be a valid string"
  | Some (rnodes, inputs_v, w0) =>
      let '(w1, res) := run_body rnodes (wf_edges wf) inputs_v w0 in
      let r := w_result w1 in
      let r' := match res with
                | Ok _ => finish r COMPLETED [] finished
                | Exc e => finish r FAILED [e] finished
                end in
      Ok (mkWorld (w_heap w1) (w_state w1) r' (w_log w1))
  end.

End Traversal.

(* ------------------------------------------------------------------ *)
(** ** A concrete runtime for evaluating runs *)

Module Demo.

Fixpoint parse_digits (s : string) (acc : Z) : option Z :=
  match s with
  | EmptyString => Some acc
  | String c s' =>
      let n := nat_of_ascii c in
      if Nat.leb 48 n && Nat.leb n 57
      then parse_digits s' (acc * 10 + Z.of_nat (n - 48))%Z
      else None
  end.

(** [float(s)] on integer literals (optional blanks and sign, then
    digits), whose float value is the integer itself below 2^53; other
    literals are rejected as [float] rejects ["abc"]. *)
Definition parse_int_literal (s : string) : option Z :=
  match py_strip s with
  | String "-" (String c r) => option_map Z.opp (parse_digits (String c r) 0)
  | String "+" (String c r) => parse_digits (String c r) 0
  | String c r => parse_digits (String c r) 0
  | EmptyString => None
  end.

Definition demo_float (h : heap) (v : val) : result Z :=
  match v with
  | VInt z => Ok z
  | VBool b => Ok (if b then 1 else 0)%Z
  | VStr s =>
      match parse_int_literal s with
      | Some z => Ok z
      | None => Exc ("could not convert string to float: '" ++ s ++ "'")
      end
  | _ => Exc ("float() argument must be a string or a real number, not '" ++ type_name h v ++ "'")
  end.

#[local] Instance runtime : Runtime := {
  pyfloat := Z;
  py_float := demo_float;
  float_lt := Z.ltb;
  repr_obj := fun _ _ => "<object>";
  json_dumps := fun _ _ => Ok "{}";
  agent_invoke := fun _ _ => Exc "agent unavailable";
  tool_invoke := fun _ _ _ => Exc "tool unavailable";
  llm_invoke := fun _ => Exc "llm unavailable"
}.

End Demo.

(* ------------------------------------------------------------------ *)
(** ** Example workflows *)

Module Examples.

Definition node (i t : string) (d : list (string * json)) : WorkflowNode := mkNode i t d.
Definition edge (s t : string) (l : option string) : WorkflowEdge := mkEdge (s ++ "->" ++ t) s t l.

(** A decision node [d] branching to itself on both labels. *)
Definition wf_loop : Workflow :=
  mkWorkflow (Some "wf")
    [node "s" "start" []; node "d" "decision" [("condition", JStr "count > 3")]]
    [edge "s" "d" None; edge "d" "d" (Some "yes"); edge "d" "d" (Some "no")].

(** The loop of [wf_loop] as it stands when [d] is first reached: the
    node table, the edge table, and a world whose [state["variables"]] is
    the dict at location 1. *)
Definition loop_nodes : smap RNode := [("d", mkRNode "d" "decision" (VRef 0))].
Definition loop_edges : smap (list WorkflowEdge) :=
  build_edges_from [edge "d" "d" (Some "yes"); edge "d" "d" (Some "no")].
Definition loop_world : world :=
  mkWorld [ODict [(VStr "condition", VStr "count > 3")]; ODict [(VStr "count", VStr "5")]]
          [(VStr "variables", VRef 1)]
          (mkResult "run" "wf" RUNNING "t0" None None [] [] []) [].

(** A start node followed by a transform node with no outgoing edge. *)
Definition wf_noend : Workflow :=
  mkWorkflow (Some "wf")
    [node "s" "start" [];
     node "t" "transform" [("operation", JStr "set"); ("target", JStr "greeting");
                           ("value", JStr "hello {{name}}")]]
    [edge "s" "t" None].

(** The same graph without an id. *)
Definition wf_noid : Workflow :=
  mkWorkflow None (wf_nodes wf_noend) (wf_edges wf_noend).

(** No start node, with and without an id. *)
Definition wf_nostart : Workflow :=
  mkWorkflow (Some "wf") [node "t" "transform" []] [].
Definition wf_nostart_noid : Workflow :=
  mkWorkflow None [node "t" "transform" []] [].

(** Two edges out of [n]: the first labelled ["x"], the second
    ["default"]. *)
Definition edges_default : list WorkflowEdge :=
  [edge "n" "A" (Some "x"); edge "n" "B" (Some "default")].



(** [wf_dangling] without its dangling edge. *)
Definition wf_se : Workflow :=
  mkWorkflow (Some "wf") [node "s" "start" []; node "e" "end" []] [edge "s" "e" None].

(** A start node followed by two transform nodes [a] and [b] in a
    cycle a -> b -> a. *)
Definition wf_tloop : Workflow :=
  mkWorkflow (Some "wf")
    [node "s" "start" [];
     node "a" "transform" [("operation", JStr "set"); ("target", JStr "x"); ("value", JStr "1")];
     node "b" "transform" [("operation", JStr "set"); ("target", JStr "y"); ("value", JStr "2")]]
    [edge "s" "a" None; edge "a" "b" None; edge "b" "a" None].

(** A start node followed by an agent node whose prompt is a template. *)
Definition wf_agent : Workflow :=
  mkWorkflow (Some "wf")
    [node "s" "start" []; node "g" "agent" [("prompt", JStr "{{a.b}}")]]
    [edge "s" "g" None].

(** A decision node's data dict (location 0, condition ["count > 3"])
    and [state["variables"] = {"count": count}] (location 1). *)
Definition cond_world (count : string) : world :=
  mkWorld [ODict [(VStr "condition", VStr "count > 3")]; ODict [(VStr "count", VStr count)]]
          [(VStr "variables", VRef 1)]
          (mkResult "run" "wf" RUNNING "t0" None None [] [] []) [].

(** A transform node [t1] writes the key ["variables"] of its output, then
    a transform node [t2] runs. *)
Definition wf_shadow : Workflow :=
  mkWorkflow (Some "wf")
    [node "s" "start" [];
     node "t1" "transform" [("operation", JStr "set"); ("target", JStr "variables");
                            ("value", JStr "x")];
     node "t2" "transform" [("operation", JStr "set"); ("target", JStr "y"); ("value", JStr "z")]]
    [edge "s" "t1" None; edge "t1" "t2" None].

(** [state["variables"]] is the dict at location 0; location 1 holds a
    dict [{"inputs": "p"}], a node output or the invocation inputs. *)
Definition merge_world : world :=
  mkWorld [ODict [(VStr "count", VStr "5")]; ODict [(VStr "inputs", VStr "p")]]
          [(VStr "variables", VRef 0)]
          (mkResult "run" "wf" RUNNING "t0" None None [] [] []) [].

(** A run in progress around a single node: [state["variables"]] is the
    dict at location 0, whose ["log"] is the list at location 1;
    [state["inputs"]] is the dict at location 2; the node's data dict,
    with the entries [data], is at location 3. *)
Definition node_world (data : dict) : world :=
  mkWorld [ODict [(VStr "log", VRef 1)]; OList [VStr "a"]; ODict [(VStr "name", VStr "Ada")];
           ODict data]
          [(VStr "inputs", VRef 2); (VStr "variables", VRef 0)]
          (mkResult "run" "wf" RUNNING "t0" None None [] [] []) [].

(** A node of type [t] whose data dict is the one of [node_world]. *)
Definition data_node (t : string) : RNode := mkRNode "n" t (VRef 3).

(** The runtime of [Demo] with a language model that answers [reply]. *)
Definition llm_runtime (reply : string) : Runtime := {|
  pyfloat := Z;
  py_float := Demo.demo_float;
  float_lt := Z.ltb;
  repr_obj := fun _ _ => "<object>";
  json_dumps := fun _ _ => Ok "{}";
  agent_invoke := fun _ _ => Exc "agent unavailable";
  tool_invoke := fun _ _ _ => Exc "tool unavailable";
  llm_invoke := fun _ => Ok reply
|}.

End Examples.

(* ------------------------------------------------------------------ *)
(** ** Next-node selection as the specification words it *)

(** The outgoing edges of [cid] in declaration order. *)
Definition outgoing (cid : string) (es : list WorkflowEdge) : list WorkflowEdge :=
  filter (fun e => String.eqb (source e) cid) es.

(** The operators of the spec's syntactic decision, in its priority
    order, and the one it selects for a condition: "recognizes, in
    priority order, equality, inequality, membership, greater-than,
    less-than, else falls back to truthiness". *)
Definition spec_operators : list string := [" == "; " != "; " in "; " > "; " < "].
Definition spec_operator (rc : string) : option string := find (py_contains rc) spec_operators.

(** "If a branch label is present, choose the first outgoing edge whose
    label matches it case-insensitively; otherwise choose an outgoing edge
    labeled default; otherwise the first declared outgoing edge; no
    outgoing edge gives none." *)
Definition spec_next_node (lbl : option string) (out : list WorkflowEdge) : option string :=
  match out with
  | [] => None
  | e0 :: _ =>
      let by_label :=
        match lbl with
        | Some l => find (fun e => match label e with
                                   | Some el => String.eqb (py_lower el) (py_lower l)
                                   | None => false
                                   end) out
        | None => None
        end in
      match by_label with
      | Some e => Some (target e)
      | None =>
          match find (fun e => match label e with
                               | Some el => String.eqb (py_lower el) "default"
                               | None => false
                               end) out with
          | Some e => Some (target e)
          | None => Some (target e0)
          end
      end
  end.

(* ------------------------------------------------------------------ *)
(** ** The engine's registry: [get_execution] and [list_executions] *)

(** [self._executions]: the records by execution id, in insertion order. *)
Definition executions := smap ExecutionResult.

(** [WorkflowExecutionEngine.get_execution] *)
Definition get_execution (ex : executions) (exec_id : string) : option ExecutionResult :=
  smap_get exec_id ex.

(** [WorkflowExecutionEngine.list_executions]: [if workflow_id:] filters
    on a non-empty id only. *)
Definition list_executions (ex : executions) (wid : option string) : list ExecutionResult :=
  let all := map snd ex in
  match wid with
  | Some i => if String.eqb i "" then all else filter (fun e => String.eqb (workflow_id e) i) all
  | None => all
  end.

Section Registry.
Context `{Runtime}.

(** [execute] with its writes [self._executions[execution_id] = result]:
    the record is registered as soon as it is built and the run mutates
    that same object, so once the call returns the registry holds the
    final record (the second write finds its key in place); a record that
    cannot be built is never registered. *)
Definition engine_execute (ex : executions) (exec_id started finished : string)
  (wf : Workflow) (inputs : list (string * json)) : executions * result world :=
  match execute exec_id started finished wf inputs with
  | Ok w => (smap_set exec_id (w_result w) ex, Ok w)
  | Exc e => (ex, Exc e)
  end.

End Registry.

(* ------------------------------------------------------------------ *)
(** ** [WorkflowStorage] *)

(** A workflow as storage handles it: the fields of [Workflow] (a node's
    [position], which nothing reads, left out as in [WorkflowNode]). *)
Record StoredWorkflow := mkStored {
  sw_id : option string;
  sw_name : string;
  sw_description : option string;
  sw_nodes : list WorkflowNode;
  sw_edges : list WorkflowEdge;
  sw_created_at : option string;
  sw_updated_at : option string
}.

(** The fields the engine reads. *)
Definition to_workflow (sw : StoredWorkflow) : Workflow :=
  mkWorkflow (sw_id sw) (sw_nodes sw) (sw_edges sw).

(** A regular file of the storage directory, by what loading it gives:
    [json.load] and [Workflow] built from the loaded data give back the workflow whose
    [workflow.dict()] [json.dump] wrote there; a file written otherwise
    may instead fail to load, raising an exception with message [e]. *)
Inductive wfile :=
| FWorkflow (w : StoredWorkflow)
| FBroken (e : string).

(** The files under [storage_dir] by relative path, in directory order.  A
    path with a '/' names a file of another directory. *)
Definition storage := smap wfile.

(** [self.storage_dir / f"{workflow_id}.json"] *)
Definition workflow_path (workflow_id : string) : string := workflow_id ++ ".json".

(** What [with open(workflow_file, 'w') as f: json.dump(workflow.dict(),
    f, indent=2)] does at a path: the write completes; [open] raises [e]
    (a NUL byte or a name too long for the file system, a directory that
    does not exist, no permission, ...) and no file changes; or the
    writing raises [e] after [open] has created or truncated the file,
    which is left holding a partial document that fails to load with
    [e']. *)
Inductive write_outcome :=
| Written
| OpenFailed (e : string)
| DumpFailed (e e' : string).

(** [if not workflow.id: workflow.id = str(uuid.uuid4())]: [fresh_id] is
    the uuid; [not workflow.id] holds for [None] and for [""]. *)
Definition assigned_id (fresh_id : string) (w : StoredWorkflow) : string :=
  match sw_id w with
  | Some i => if String.eqb i "" then fresh_id else i
  | None => fresh_id
  end.

(** [save_workflow]: [now] is the [isoformat()] stamp; [not
    workflow.created_at] holds for [None] and for [""]; [fs] gives what
    writing a path does.  Returns the directory and, when the write
    completes, the id and the workflow as the call leaves it. *)
Definition save_workflow (fs : string -> write_outcome) (fresh_id now : string)
  (w : StoredWorkflow) (d : storage) : storage * result (string * StoredWorkflow) :=
  let id := assigned_id fresh_id w in
  let created := match sw_created_at w with
                 | Some c => if String.eqb c "" then now else c
                 | None => now
                 end in
  let w' := mkStored (Some id) (sw_name w) (sw_description w) (sw_nodes w) (sw_edges w)
                     (Some created) (Some now) in
  let path := workflow_path id in
  match fs path with
  | Written => (smap_set path (FWorkflow w') d, Ok (id, w'))
  | OpenFailed e => (d, Exc e)
  | DumpFailed e e' => (smap_set path (FBroken e') d, Exc e)
  end.

(** [get_workflow]: [None] when no file exists; loading a file may raise. *)
Definition get_workflow (d : storage) (workflow_id : string) : result (option StoredWorkflow) :=
  match smap_get (workflow_path workflow_id) d with
  | None => Ok None
  | Some (FWorkflow w) => Ok (Some w)
  | Some (FBroken e) => Exc e
  end.

(** [name.endswith(suffix)] *)
Fixpoint ends_with (suffix s : string) : bool :=
  String.eqb s suffix || match s with EmptyString => false | String _ s' => ends_with suffix s' end.

(** [storage_dir.glob("*.json")] matches the names of the directory itself
    (no '/') that end in ".json", hidden ones included. *)
Definition globbed (name : string) : bool := negb (py_contains name "/") && ends_with ".json" name.

(** [list_workflows]: a file that fails to load is skipped by the bare
    [except]. *)
Fixpoint list_workflows (d : storage) : list StoredWorkflow :=
  match d with
  | [] => []
  | (name, f) :: d' =>
      if globbed name then
        match f with
        | FWorkflow w => w :: list_workflows d'
        | FBroken _ => list_workflows d'
        end
      else list_workflows d'
  end.

Definition smap_remove {A} (k : string) (m : smap A) : smap A :=
  filter (fun '(k', _) => negb (String.eqb k' k)) m.

(** [delete_workflow] *)
Definition delete_workflow (d : storage) (workflow_id : string) : bool * storage :=
  let p := workflow_path workflow_id in
  match smap_get p d with
  | Some _ => (true, smap_remove p d)
  | None => (false, d)
  end.

(* ------------------------------------------------------------------ *)
(** ** The HTTP endpoints *)

(** What an endpoint gives its client: the body it returns, or the
    [HTTPException] it raises. *)
Inductive response (A : Type) :=
| Respond (body : A)
| HTTPError (status_code : Z) (detail : string).
Arguments Respond {A} body.
Arguments HTTPError {A} status_code detail.

(** [POST /workflows]: [{"id": workflow_id, "status": "saved"}], or the
    500 of [except Exception as e]. *)
Definition create_workflow_ep (fs : string -> write_outcome) (fresh_id now : string)
  (w : StoredWorkflow) (d : storage) : storage * response (string * string) :=
  let '(d', r) := save_workflow fs fresh_id now w d in
  match r with
  | Ok (id, _) => (d', Respond (id, "saved"))
  | Exc e => (d', HTTPError 500 e)
  end.

(** [GET /workflows/{workflow_id}] *)
Definition get_workflow_ep (d : storage) (workflow_id : string) : response StoredWorkflow :=
  match get_workflow d workflow_id with
  | Exc e => HTTPError 500 e
  | Ok None => HTTPError 404 "Workflow not found"
  | Ok (Some w) => Respond w
  end.

(** [DELETE /workflows/{workflow_id}] *)
Definition delete_workflow_ep (d : storage) (workflow_id : string) : storage * response string :=
  let '(ok, d') := delete_workflow d workflow_id in
  if ok then (d', Respond "deleted") else (d', HTTPError 404 "Workflow not found").

(** The body of [POST /workflows/{workflow_id}/execute]: the record
    without its [current_node]. *)
Record RunResponse := mkRunResponse {
  rr_execution_id : string;
  rr_workflow_id : string;
  rr_status : ExecutionStatus;
  rr_started_at : string;
  rr_completed_at : option string;
  rr_outputs : dict;
  rr_errors : list string;
  rr_node_results : dict
}.

Definition run_response (r : ExecutionResult) : RunResponse :=
  mkRunResponse (execution_id r) (workflow_id r) (status r) (started_at r) (completed_at r)
                (outputs r) (errors r) (node_results r).

Section Endpoints.
Context `{Runtime}.

(** [POST /workflows/{workflow_id}/execute] on the singletons [_storage]
    and [_engine]: a missing workflow is a 404, any other exception a 500
    with [str(e)]. *)
Definition execute_workflow_ep (d : storage) (ex : executions) (exec_id started finished : string)
  (workflow_id_ : string) (inputs : list (string * json)) : executions * response RunResponse :=
  match get_workflow d workflow_id_ with
  | Exc e => (ex, HTTPError 500 e)
  | Ok None => (ex, HTTPError 404 "Workflow not found")
  | Ok (Some sw) =>
      match engine_execute ex exec_id started finished (to_workflow sw) inputs with
      | (ex', Ok w) => (ex', Respond (run_response (w_result w)))
      | (ex', Exc e) => (ex', HTTPError 500 e)
      end
  end.

End Endpoints.

(** [GET /executions/{execution_id}]: every field of the record. *)
Definition get_execution_ep (ex : executions) (exec_id : string) : response ExecutionResult :=
  match get_execution ex exec_id with
  | None => HTTPError 404 "Execution not found"
  | Some r => Respond r
  end.

(* ================================================================== *)
(** * Predicates on runs *)

(** ** Frame conditions of monadic code *)

Definition Preserves (R : world -> world -> Prop) {A} (m : M A) : Prop :=
  forall w, R w (fst (m w)).

(** The fields of the record that only [execute] itself sets. *)
Definition rec_frame (r r' : ExecutionResult) : Prop :=
  execution_id r' = execution_id r /\ workflow_id r' = workflow_id r /\
  status r' = status r /\ started_at r' = started_at r /\
  completed_at r' = completed_at r /\ errors r' = errors r.

(** The log and the frame of the record unchanged: what every step of the
    loop but the dispatch itself guarantees. *)
Definition R_log (w w' : world) : Prop :=
  w_log w' = w_log w /\ rec_frame (w_result w) (w_result w').

Definition heap_ext (h h' : heap) : Prop := exists xs, h' = (h ++ xs)%list.

(** The frame of the record alone: what the whole loop guarantees. *)
Definition R_run (w w' : world) : Prop := rec_frame (w_result w) (w_result w').

(** Read-only code that may allocate: log, record and state unchanged,
    existing objects untouched. *)
Definition R_alloc (w w' : world) : Prop :=
  w_log w' = w_log w /\ w_result w' = w_result w /\ w_state w' = w_state w /\
  heap_ext (w_heap w) (w_heap w').

(** A computation that always returns normally. *)
Definition Total {A} (m : M A) : Prop := forall w, exists w' a, m w = (w', Ok a).

(** A node handler whose normal result is a dict allocated by the handler
    itself (at or above the heap size it started with) with no key
    ["variables"]. *)
Definition FreshOut (m : M (val * option string)) : Prop :=
  forall w w' out lbl, m w = (w', Ok (out, lbl)) ->
  exists lo d, out = VRef lo /\ (length (w_heap w) <= lo)%nat /\
               deref (w_heap w') lo = Some (ODict d) /\
               dict_lookup (VStr "variables") d = None.


(** A computation that adds at most [n] entries to the dispatch log. *)
Definition LogBound {A} (n : nat) (m : M A) : Prop :=
  forall w, (length (w_log (fst (m w))) <= length (w_log w) + n)%nat.

(** A log in which every non-decision node of [nodes] occurs at most
    once, and only when it is in the visited set [vis]. *)
Definition once_inv (nodes : smap RNode) (vis log : list string) : Prop :=
  forall c n, smap_get c nodes = Some n -> rn_type n <> "decision" ->
    (count_occ string_dec log c <= if mem c vis then 1 else 0)%nat.

(** A computation that, when it returns, returns the label ["yes"] or
    ["no"]. *)
Definition YesNo (m : M (val * option string)) : Prop :=
  forall w w' out lbl, m w = (w', Ok (out, lbl)) -> lbl = Some "yes" \/ lbl = Some "no".

(** A node handler that, when it returns, returns no label. *)
Definition NoLabel (m : M (val * option string)) : Prop :=
  forall w w' out lbl, m w = (w', Ok (out, lbl)) -> lbl = None.

(** Nested induction on JSON documents. *)
Section JsonInd.
Variable P : json -> Prop.
Hypothesis P_none : P JNone.
Hypothesis P_bool : forall b, P (JBool b).
Hypothesis P_int : forall z, P (JInt z).
Hypothesis P_str : forall s, P (JStr s).
Hypothesis P_list : forall xs, Forall P xs -> P (JList xs).
Hypothesis P_dict : forall kvs, Forall (fun kv => P (snd kv)) kvs -> P (JDict kvs).

Fixpoint json_ind' (j : json) : P j :=
  match j with
  | JNone => P_none
  | JBool b => P_bool b
  | JInt z => P_int z
  | JStr s => P_str s
  | JList xs =>
      P_list xs ((fix go (xs : list json) : Forall P xs :=
                    match xs with
                    | [] => Forall_nil _
                    | x :: xs' => Forall_cons _ (json_ind' x) (go xs')
                    end) xs)
  | JDict kvs =>
      P_dict kvs ((fix go (kvs : list (string * json)) : Forall (fun kv => P (snd kv)) kvs :=
                     match kvs with
                     | [] => Forall_nil _
                     | kv :: kvs' => Forall_cons _ (json_ind' (snd kv)) (go kvs')
                     end) kvs)
  end.
End JsonInd.

(* ================================================================== *)
(** * Reasoning about runs *)


#[export] Instance R_log_preorder : PreOrder R_log.
Proof.
  split.
  - intros w. repeat split.
  - intros w1 w2 w3 (H1 & A1 & B1 & C1 & D1 & E1 & F1) (H2 & A2 & B2 & C2 & D2 & E2 & F2).
    repeat split; congruence.
Qed.

Lemma heap_ext_refl h : heap_ext h h.
Proof. exists []. now rewrite app_nil_r. Qed.

Lemma heap_ext_trans h1 h2 h3 : heap_ext h1 h2 -> heap_ext h2 h3 -> heap_ext h1 h3.
Proof. intros [xs ->] [ys ->]. exists (xs ++ ys)%list. now rewrite app_assoc. Qed.

#[export] Instance R_alloc_preorder : PreOrder R_alloc.
Proof.
  split.
  - intros w. repeat split; try reflexivity. apply heap_ext_refl.
  - intros w1 w2 w3 (H1 & H2 & H3 & H4) (G1 & G2 & G3 & G4).
    repeat split; try congruence. eapply heap_ext_trans; eauto.
Qed.

Lemma R_alloc_log {A} (m : M A) : Preserves R_alloc m -> Preserves R_log m.
Proof.
  intros Hm w. destruct (Hm w) as (H1 & H2 & _). split; [exact H1|].
  rewrite H2. repeat split.
Qed.

Section Combinators.
Context (R : world -> world -> Prop) `{PreOrder world R}.

Lemma pres_ret {A} (a : A) : Preserves R (ret a).
Proof. intros w. simpl. reflexivity. Qed.

Lemma pres_raise {A} (e : string) : Preserves R (@raise A e).
Proof. intros w. simpl. reflexivity. Qed.

Lemma pres_bind {A B} (m : M A) (k : A -> M B) :
  Preserves R m -> (forall a, Preserves R (k a)) -> Preserves R (bind m k).
Proof.
  intros Hm Hk w. unfold bind. specialize (Hm w).
  destruct (m w) as [w' [a|e]]; simpl in *; [|exact Hm].
  etransitivity; [exact Hm | apply Hk].
Qed.

Lemma pres_try {A} (m : M A) (hd : string -> M A) :
  Preserves R m -> (forall e, Preserves R (hd e)) -> Preserves R (try_except m hd).
Proof.
  intros Hm Hh w. unfold try_except. specialize (Hm w).
  destruct (m w) as [w' [a|e]]; simpl in *; [exact Hm|].
  etransitivity; [exact Hm | apply Hh].
Qed.

Lemma pres_get_heap : Preserves R get_heap.
Proof. intros w. simpl. reflexivity. Qed.

Lemma pres_get_state : Preserves R get_state.
Proof. intros w. simpl. reflexivity. Qed.

Lemma pres_get_result : Preserves R get_result.
Proof. intros w. simpl. reflexivity. Qed.

Lemma pres_lift {A} (r : result A) : Preserves R (lift r).
Proof. destruct r; simpl; [apply pres_ret | apply pres_raise]. Qed.

End Combinators.

Create HintDb pres.
#[export] Hint Resolve pres_ret pres_raise pres_get_heap pres_get_state pres_get_result
  pres_lift : pres.

Ltac pres :=
  repeat match goal with
  | |- forall _, _ => intro
  | |- PreOrder _ => exact _
  | |- Preserves _ (bind _ _) => apply pres_bind
  | |- Preserves _ (try_except _ _) => apply pres_try
  | |- Preserves _ (let _ := _ in _) => cbv zeta
  | |- Preserves _ (match ?x with _ => _ end) => destruct x
  | |- Preserves _ _ => solve [ eauto with pres typeclass_instances ]
  end.

(** ** Allocation only extends the heap *)


Lemma alloc_ext h o : heap_ext h (fst (alloc h o)).
Proof. exists [o]. reflexivity. Qed.

Lemma fold_heap_ext {A B} (f : heap * B -> A -> heap * B) (P : A -> Prop) xs p :
  Forall P xs -> (forall p x, P x -> heap_ext (fst p) (fst (f p x))) ->
  heap_ext (fst p) (fst (fold_left f xs p)).
Proof.
  intros Hxs Hf. revert p. induction Hxs as [|x xs Hx _ IH]; intros p; simpl.
  - apply heap_ext_refl.
  - eapply heap_ext_trans; [apply Hf, Hx | apply IH].
Qed.

Lemma alloc_json_ext : forall j h, heap_ext h (fst (alloc_json h j)).
Proof.
  induction j using json_ind'; intros h; simpl; try apply heap_ext_refl;
  match goal with |- context [fold_left ?f ?xs ?i] =>
    assert (Hf : heap_ext (fst i) (fst (fold_left f xs i)));
    [ apply (fold_heap_ext f _ xs i H)
    | destruct (fold_left f xs i) as [h1 vs]; simpl in *;
      eapply heap_ext_trans; [exact Hf | apply alloc_ext] ]
  end.
  - intros [hh acc] x Hx; simpl. destruct (alloc_json hh x) eqn:E; simpl.
    specialize (Hx hh). rewrite E in Hx. exact Hx.
  - intros [hh acc] [k x] Hx; simpl. destruct (alloc_json hh x) eqn:E; simpl.
    specialize (Hx hh). simpl in Hx. rewrite E in Hx. exact Hx.
Qed.

Lemma state_get_dict_ext h st k : heap_ext h (fst (state_get_dict h st k)).
Proof.
  unfold state_get_dict. destruct (dict_lookup _ _); simpl.
  - apply heap_ext_refl.
  - eexists; reflexivity.
Qed.

Lemma substitute_variables_ext `{Runtime} h st t :
  heap_ext h (fst (substitute_variables h st t)).
Proof.
  unfold substitute_variables.
  pose proof (state_get_dict_ext h st "variables") as E1.
  destruct (state_get_dict h st "variables") as [h1 vars].
  pose proof (state_get_dict_ext h1 st "inputs") as E2.
  destruct (state_get_dict h1 st "inputs") as [h2 inps]. simpl in E1, E2.
  assert (E12 : heap_ext h h2) by (eapply heap_ext_trans; eauto).
  destruct (as_dict h2 inps); [|exact E12].
  destruct (as_dict h2 vars); [|exact E12].
  eapply heap_ext_trans; [exact E12|].
  destruct t; simpl; eexists; reflexivity.
Qed.

(** ** Primitive steps *)

Lemma pres_on_heap {A} (f : heap -> heap * result A) :
  (forall h, heap_ext h (fst (f h))) -> Preserves R_alloc (on_heap f).
Proof.
  intros Hf w. unfold on_heap. specialize (Hf (w_heap w)).
  destruct (f (w_heap w)) as [h' r]. simpl in *.
  repeat split; auto.
Qed.

Lemma pres_new_obj o : Preserves R_alloc (new_obj o).
Proof. intros w. repeat split; simpl; auto. eexists; reflexivity. Qed.

Lemma pres_new_dict d : Preserves R_alloc (new_dict d).
Proof. apply pres_new_obj. Qed.

Lemma pres_error_output e : Preserves R_alloc (error_output e).
Proof. apply pres_new_obj. Qed.

Lemma pres_new_json j : Preserves R_alloc (new_json j).
Proof.
  intros w. unfold new_json, bind, get_heap, put_heap, ret. simpl.
  pose proof (alloc_json_ext j (w_heap w)) as E.
  destruct (alloc_json (w_heap w) j) as [h' v]. simpl in *.
  repeat split; auto.
Qed.

Lemma pres_state_get k : Preserves R_alloc (state_get k).
Proof.
  intros w. unfold state_get, bind, get_heap, get_state, put_heap, ret. simpl.
  pose proof (state_get_dict_ext (w_heap w) (w_state w) k) as E.
  destruct (state_get_dict (w_heap w) (w_state w) k) as [h' v]. simpl in *.
  repeat split; auto.
Qed.

Lemma pres_put_heap h : Preserves R_log (put_heap h).
Proof. intros w. repeat split. Qed.

Lemma pres_put_state st : Preserves R_log (put_state st).
Proof. intros w. repeat split. Qed.

Lemma pres_map_m {A B} (R : world -> world -> Prop) `{PreOrder world R}
  (f : A -> M B) xs :
  (forall x, Preserves R (f x)) -> Preserves R (map_m f xs).
Proof.
  intros Hf. induction xs as [|x xs IH]; simpl; pres.
Qed.

#[export] Hint Resolve pres_new_obj pres_new_dict pres_error_output pres_new_json
  pres_state_get pres_put_heap pres_put_state R_alloc_log : pres.

Lemma pres_data_lookup data k : Preserves R_alloc (data_lookup data k).
Proof. unfold data_lookup. pres. Qed.

Lemma pres_data_get data k d : Preserves R_alloc (data_get data k d).
Proof. unfold data_get. pres. Qed.

Lemma pres_singleton_dict k v : Preserves R_alloc (singleton_dict k v).
Proof. unfold singleton_dict. pres. Qed.

#[export] Hint Resolve pres_data_lookup pres_data_get pres_singleton_dict : pres.

Section Handlers.
Context `{Runtime}.

Lemma pres_subst t : Preserves R_alloc (subst t).
Proof.
  unfold subst. pres. apply pres_on_heap. intros h. apply substitute_variables_ext.
Qed.

Lemma pres_method_get o k : Preserves R_alloc (method_get o k).
Proof. unfold method_get. pres. Qed.

Lemma pres_method_get_default o k d : Preserves R_alloc (method_get_default o k d).
Proof.
  unfold method_get_default. pres. apply pres_method_get.
Qed.

Lemma pres_to_float v : Preserves R_alloc (to_float v).
Proof. unfold to_float. pres. Qed.

Lemma pres_py_iter v : Preserves R_alloc (py_iter v).
Proof. unfold py_iter. pres. Qed.

Lemma pres_list_append l x : Preserves R_log (list_append l x).
Proof. unfold list_append. pres. Qed.

#[local] Hint Resolve pres_subst pres_method_get pres_method_get_default pres_to_float
  pres_py_iter pres_list_append : pres.

Lemma pres_evaluate_condition rc vs : Preserves R_alloc (evaluate_condition rc vs).
Proof. unfold evaluate_condition. pres. Qed.

#[local] Hint Resolve pres_evaluate_condition : pres.

Lemma pres_decision data : Preserves R_alloc (execute_decision_node data).
Proof. unfold execute_decision_node. pres. Qed.

Lemma pres_agent data : Preserves R_alloc (execute_agent_node data).
Proof. unfold execute_agent_node. pres. Qed.

Lemma pres_resolve_args items acc : Preserves R_alloc (resolve_args items acc).
Proof. revert acc. induction items as [|[k v] items IH]; simpl; pres. Qed.

#[local] Hint Resolve pres_resolve_args : pres.

Lemma pres_tool data : Preserves R_alloc (execute_tool_node data).
Proof. unfold execute_tool_node. pres. Qed.

Lemma pres_delay data : Preserves R_alloc (execute_delay_node data).
Proof. unfold execute_delay_node. pres. Qed.

Lemma pres_transform data : Preserves R_log (execute_transform_node data).
Proof.
  unfold execute_transform_node. pres.
  apply pres_map_m; [exact _|]. intros v. pres.
Qed.

#[local] Hint Resolve pres_decision pres_agent pres_tool pres_delay pres_transform : pres.

(** No node handler writes the dispatch log. *)
Lemma pres_execute_node n : Preserves R_log (execute_node n).
Proof. unfold execute_node. pres. Qed.

Lemma pres_merge_output v : Preserves R_log (merge_output v).
Proof. unfold merge_output. pres. Qed.

Lemma pres_set_current_node id : Preserves R_log (set_current_node id).
Proof. intros w. repeat split. Qed.

Lemma pres_set_node_result id v : Preserves R_log (set_node_result id v).
Proof. intros w. repeat split. Qed.

Lemma pres_set_outputs o : Preserves R_log (set_outputs o).
Proof. intros w. repeat split. Qed.

End Handlers.

#[export] Hint Resolve pres_subst pres_method_get pres_method_get_default pres_to_float
  pres_py_iter pres_list_append pres_evaluate_condition pres_resolve_args
  pres_decision pres_agent pres_tool pres_delay pres_transform pres_execute_node
  pres_merge_output pres_set_current_node pres_set_node_result pres_set_outputs : pres.

(** ** The heap and dicts *)

Lemma heap_ext_length h h' : heap_ext h h' -> (length h <= length h')%nat.
Proof. intros [xs ->]. rewrite length_app. lia. Qed.

Lemma deref_lt h l o : deref h l = Some o -> (l < length h)%nat.
Proof. intros E. apply nth_error_Some. unfold deref in E. congruence. Qed.

Lemma deref_heap_ext h h' l o : heap_ext h h' -> deref h l = Some o -> deref h' l = Some o.
Proof.
  intros [xs ->] E. unfold deref in *. rewrite nth_error_app1; [exact E|].
  eapply deref_lt; exact E.
Qed.

Lemma deref_alloc h o : deref (h ++ [o])%list (length h) = Some o.
Proof. unfold deref. rewrite nth_error_app2, Nat.sub_diag; reflexivity. Qed.

Lemma deref_heap_set_same h l o o' : deref h l = Some o -> deref (heap_set h l o') l = Some o'.
Proof.
  revert l. induction h as [|x h IH]; intros [|l] E; simpl in *; try discriminate; auto.
Qed.

Lemma deref_heap_set_other h l l' o : l <> l' -> deref (heap_set h l o) l' = deref h l'.
Proof.
  revert l l'. induction h as [|x h IH]; intros [|l] [|l'] Hne; simpl; auto; try lia.
  all: unfold deref in *; apply IH; lia.
Qed.

Lemma length_heap_set h l o : length (heap_set h l o) = length h.
Proof. revert l. induction h as [|x h IH]; intros [|l]; simpl; auto. Qed.

Lemma key_eqb_str_r k s : key_eqb k (VStr s) = true -> k = VStr s.
Proof. destruct k; simpl; try discriminate. intros E. apply String.eqb_eq in E. congruence. Qed.

Lemma key_eqb_str_l k s : key_eqb (VStr s) k = true -> k = VStr s.
Proof. destruct k; simpl; try discriminate. intros E. apply String.eqb_eq in E. congruence. Qed.

Lemma key_eqb_str_refl s : key_eqb (VStr s) (VStr s) = true.
Proof. simpl. apply String.eqb_refl. Qed.

Lemma dict_lookup_set_other s k v d :
  key_eqb k (VStr s) = false ->
  dict_lookup (VStr s) (dict_set k v d) = dict_lookup (VStr s) d.
Proof.
  intros Hk. induction d as [|[k' v'] d IH]; simpl.
  - rewrite Hk. reflexivity.
  - destruct (key_eqb k' k) eqn:E1; simpl.
    + destruct (key_eqb k' (VStr s)) eqn:E2; [|reflexivity].
      apply key_eqb_str_r in E2. subst k'. apply key_eqb_str_l in E1. subst k.
      rewrite key_eqb_str_refl in Hk. discriminate.
    + destruct (key_eqb k' (VStr s)); [reflexivity | exact IH].
Qed.

Lemma dict_lookup_set_same s v d :
  dict_lookup (VStr s) (dict_set (VStr s) v d) = Some v.
Proof.
  induction d as [|[k' v'] d IH]; simpl.
  - rewrite String.eqb_refl. reflexivity.
  - destruct (key_eqb k' (VStr s)) eqn:E1; simpl.
    + rewrite E1. reflexivity.
    + rewrite E1. exact IH.
Qed.

(** Updating with a dict that lacks key [s] leaves [s] alone. *)
Lemma dict_lookup_update_other s st src :
  dict_lookup (VStr s) src = None ->
  dict_lookup (VStr s) (dict_update st src) = dict_lookup (VStr s) st.
Proof.
  revert st. induction src as [|[k v] src IH]; intros st Hn; [reflexivity|].
  simpl in Hn. destruct (key_eqb k (VStr s)) eqn:E; [discriminate|].
  change (dict_update st ((k, v) :: src)) with (dict_update (dict_set k v st) src).
  rewrite IH by exact Hn.
  apply dict_lookup_set_other. exact E.
Qed.

(** ** Monadic steps *)

Lemma bind_ok {A B} (m : M A) (k : A -> M B) w w1 a :
  m w = (w1, Ok a) -> bind m k w = k a w1.
Proof. intros E. unfold bind. rewrite E. reflexivity. Qed.

Lemma bind_exc {A B} (m : M A) (k : A -> M B) w w1 e :
  m w = (w1, Exc e) -> bind m k w = (w1, Exc e).
Proof. intros E. unfold bind. rewrite E. reflexivity. Qed.

Lemma bind_ret {A B} (a : A) (k : A -> M B) : bind (ret a) k = k a.
Proof. reflexivity. Qed.

(** ** The dispatch log *)

Lemma lb_pres {A} n (m : M A) : Preserves R_log m -> LogBound n m.
Proof. intros Hm w. rewrite (proj1 (Hm w)). lia. Qed.

Lemma lb_bind {A B} n (m : M A) (k : A -> M B) :
  Preserves R_log m -> (forall a, LogBound n (k a)) -> LogBound n (bind m k).
Proof.
  intros Hm Hk w. unfold bind. specialize (Hm w).
  destruct (m w) as [w1 [a|e]]; simpl in *; apply proj1 in Hm.
  - specialize (Hk a w1). rewrite Hm in Hk. exact Hk.
  - rewrite Hm. lia.
Qed.

Lemma lb_log_dispatch {B} n id (k : unit -> M B) :
  LogBound n (k tt) -> LogBound (S n) (bind (log_dispatch id) k).
Proof.
  intros Hk w. unfold bind, log_dispatch. simpl.
  specialize (Hk (mkWorld (w_heap w) (w_state w) (w_result w) (w_log w ++ [id])%list)).
  simpl in Hk. rewrite length_app in Hk. simpl in Hk. lia.
Qed.

Lemma lb_mono {A} n n' (m : M A) : (n <= n')%nat -> LogBound n m -> LogBound n' m.
Proof. intros Hle Hm w. specialize (Hm w). lia. Qed.

Ltac lb :=
  repeat match goal with
  | |- forall _, _ => intro
  | |- LogBound _ (let _ := _ in _) => cbv zeta
  | |- LogBound (S _) (bind (log_dispatch _) _) => apply lb_log_dispatch
  | |- LogBound _ (bind _ _) => apply lb_bind; [solve [pres] | ]
  | |- LogBound _ (match ?x with _ => _ end) => destruct x
  | |- LogBound _ _ => solve [apply lb_pres; pres | eauto]
  end.

Section LogBounds.
Context `{Runtime}.

(** Each turn of the loop dispatches at most one node. *)
Lemma run_loop_log fuel nodes edges_from lv :
  LogBound fuel (run_loop fuel nodes edges_from lv).
Proof.
  revert lv. induction fuel as [|f IH]; intros lv; cbn [run_loop].
  - apply lb_pres. pres.
  - destruct (current_node_id lv) as [cid|]; [|apply lb_pres; pres].
    destruct (_ && _); [|apply lb_pres; pres].
    cbv zeta. apply lb_bind; [pres|]. intros cyc.
    destruct cyc; [apply lb_pres; pres|].
    destruct (smap_get cid nodes) as [n|]; [|apply lb_pres; pres].
    apply lb_bind; [pres|]. intros [].
    apply lb_log_dispatch.
    apply lb_bind; [pres|]. intros [out lbl].
    apply lb_bind; [pres|]. intros [].
    apply lb_bind; [pres|]. intros [].
    destruct (String.eqb (rn_type n) "end").
    + apply lb_pres. pres.
    + apply IH.
Qed.

Lemma run_body_log rnodes edges inputs :
  LogBound max_iterations (run_body rnodes edges inputs).
Proof.
  unfold run_body. cbv zeta.
  destruct (find_start_node _) as [sn|]; [|apply lb_pres; pres].
  apply lb_bind; [pres|]. intros msgs.
  apply lb_bind; [pres|]. intros vars.
  apply lb_bind; [pres|]. intros h.
  apply lb_bind; [pres|]. intros [].
  apply run_loop_log.
Qed.

Lemma prepare_log exec_id started wf inputs rn iv w0 :
  prepare exec_id started wf inputs = Some (rn, iv, w0) -> w_log w0 = [].
Proof.
  unfold prepare. destruct (alloc_json _ _) as [h0 v0].
  destruct (alloc_nodes _ _) as [h1 rs]. destruct (wf_id wf); intros E; inversion E; reflexivity.
Qed.

End LogBounds.

(** ** The decision node never raises *)

Lemma total_ret {A} (a : A) : Total (ret a).
Proof. intros w. do 2 eexists. reflexivity. Qed.

Lemma total_bind {A B} (m : M A) (k : A -> M B) :
  Total m -> (forall a, Total (k a)) -> Total (bind m k).
Proof.
  intros Hm Hk w. destruct (Hm w) as (w1 & a & E).
  rewrite (bind_ok _ _ _ _ _ E). apply Hk.
Qed.

Lemma total_try {A} (m : M A) (hd : string -> M A) :
  (forall e, Total (hd e)) -> Total (try_except m hd).
Proof.
  intros Hh w. unfold try_except. destruct (m w) as [w1 [a|e]]; [do 2 eexists; reflexivity | apply Hh].
Qed.

Lemma total_get_heap : Total get_heap.
Proof. intros w. do 2 eexists. reflexivity. Qed.

Lemma total_new_obj o : Total (new_obj o).
Proof. intros w. do 2 eexists. reflexivity. Qed.

Lemma total_data_lookup data k : Total (data_lookup data k).
Proof. intros w. do 2 eexists. reflexivity. Qed.

Lemma total_data_get data k d : Total (data_get data k d).
Proof. intros w. do 2 eexists. reflexivity. Qed.

Lemma fresh_bind {A} (m : M A) (k : A -> M (val * option string)) :
  Preserves R_alloc m -> (forall a, FreshOut (k a)) -> FreshOut (bind m k).
Proof.
  intros Hm Hk w w' out lbl E. specialize (Hm w). unfold bind in E.
  destruct (m w) as [w1 [a|e]]; [|discriminate]. simpl in Hm.
  destruct (Hk a w1 w' out lbl E) as (lo & d & -> & Hle & Hd & Hv).
  exists lo, d. repeat split; auto.
  destruct Hm as (_ & _ & _ & Hx). apply heap_ext_length in Hx. lia.
Qed.

Lemma fresh_try (m : M (val * option string)) hd :
  Preserves R_alloc m -> FreshOut m -> (forall e, FreshOut (hd e)) ->
  FreshOut (try_except m hd).
Proof.
  intros Hp Hm Hh w w' out lbl E. specialize (Hp w). unfold try_except in E.
  destruct (m w) as [w1 [a|e]] eqn:Em.
  - inversion E; subst. eapply Hm. exact Em.
  - simpl in Hp. destruct (Hh e w1 w' out lbl E) as (lo & d & -> & Hle & Hd & Hv).
    exists lo, d. repeat split; auto.
    destruct Hp as (_ & _ & _ & Hx). apply heap_ext_length in Hx. lia.
Qed.

Lemma fresh_raise e : FreshOut (raise e).
Proof. intros w w' out lbl E. discriminate. Qed.

Lemma fresh_new_dict d lbl :
  dict_lookup (VStr "variables") d = None ->
  FreshOut (bind (new_dict d) (fun out => ret (out, lbl))).
Proof.
  intros Hv w w' out lbl' E. cbv in E. inversion E; subst.
  exists (length (w_heap w)), d. repeat split; auto.
  simpl. apply deref_alloc.
Qed.

Ltac fresh_tac :=
  repeat match goal with
  | |- forall _, _ => intro
  | |- FreshOut (let _ := _ in _) => cbv zeta
  | |- FreshOut (bind (new_dict _) (fun _ => ret _)) => apply fresh_new_dict; reflexivity
  | |- FreshOut (bind _ _) => apply fresh_bind; [solve [pres] | ]
  | |- FreshOut (try_except _ _) => apply fresh_try; [solve [pres] | | ]
  | |- FreshOut (raise _) => apply fresh_raise
  | |- FreshOut (match ?x with _ => _ end) => destruct x
  end.

Section Decision.
Context `{Runtime}.

Lemma total_decision data : Total (execute_decision_node data).
Proof.
  unfold execute_decision_node.
  apply total_bind; [apply total_data_get | intros c].
  apply total_bind; [apply total_data_get | intros u].
  apply total_bind; [apply total_get_heap | intros h].
  destruct (py_truthy h u); apply total_try; intros e;
    (apply total_bind; [apply total_new_obj | intros; apply total_ret]).
Qed.

Lemma fresh_decision data : FreshOut (execute_decision_node data).
Proof. unfold execute_decision_node, error_output. fresh_tac. Qed.

(** One dispatch of a decision node: it returns normally, only allocates,
    and its output is a fresh dict without a ["variables"] key. *)
Lemma decision_step data w :
  exists w' lo d lbl,
    execute_decision_node data w = (w', Ok (VRef lo, lbl)) /\ R_alloc w w' /\
    (length (w_heap w) <= lo)%nat /\ deref (w_heap w') lo = Some (ODict d) /\
    dict_lookup (VStr "variables") d = None.
Proof.
  destruct (total_decision data w) as (w' & [out lbl] & E).
  destruct (fresh_decision data w w' out lbl E) as (lo & d & -> & Hle & Hd & Hv).
  pose proof (pres_decision data w) as Hp. rewrite E in Hp.
  exists w', lo, d, lbl. auto.
Qed.

End Decision.

(** ** Merging a node's output *)

Section Merge.
Context `{Runtime}.

(** The merge of a dict output [lo] when [state["variables"]] is a dict
    [l] other than [lo]: [l] is updated in place, then the state. *)
Lemma merge_output_ref w lo d_out l dv :
  deref (w_heap w) lo = Some (ODict d_out) ->
  dict_lookup (VStr "variables") (w_state w) = Some (VRef l) ->
  deref (w_heap w) l = Some (ODict dv) -> l <> lo ->
  merge_output (VRef lo) w =
    (mkWorld (heap_set (w_heap w) l (ODict (dict_update dv d_out)))
             (dict_update (w_state w) d_out) (w_result w) (w_log w), Ok tt).
Proof.
  intros Hlo Hst Hl Hne.
  unfold merge_output, bind, get_heap, get_state, put_heap, put_state, ret, as_dict.
  cbn [w_heap w_state w_result w_log fst snd].
  rewrite Hlo, Hst, Hl, deref_heap_set_other by exact Hne. rewrite Hlo. reflexivity.
Qed.

End Merge.

Lemma execute_node_decision `{Runtime} n :
  rn_type n = "decision" -> execute_node n = execute_decision_node (rn_data n).
Proof. intros E. unfold execute_node. rewrite E. reflexivity. Qed.

(** Edges that all lead back to their source. *)
Lemma find_next_node_self d edges_from e0 es lbl :
  smap_get d edges_from = Some (e0 :: es) ->
  Forall (fun e => target e = d) (e0 :: es) ->
  find_next_node d edges_from lbl = Some d.
Proof.
  intros Hg Hall. rewrite Forall_forall in Hall.
  unfold find_next_node. rewrite Hg.
  assert (He0 : target e0 = d) by (apply Hall; left; reflexivity).
  destruct lbl as [l|]; [|rewrite He0; reflexivity].
  destruct (String.eqb l ""); [rewrite He0; reflexivity|].
  destruct (find (label_matches (py_lower l)) _) as [e|] eqn:F.
  - apply find_some in F. f_equal. apply Hall. apply F.
  - destruct (find (label_matches "default") _) as [e|] eqn:F2; simpl.
    + apply find_some in F2. f_equal. apply Hall. apply F2.
    + f_equal. exact He0.
Qed.

Section DecisionLoop.
Context `{Runtime}.
Variables (nodes : smap RNode) (edges_from : smap (list WorkflowEdge)) (d : string) (n : RNode).
Hypothesis Hn : smap_get d nodes = Some n.
Hypothesis Htype : rn_type n = "decision".
Hypothesis Hd : d <> "".
Hypothesis Hself : exists e0 es, smap_get d edges_from = Some (e0 :: es) /\
                                 Forall (fun e => target e = d) (e0 :: es).

(** Reached at iteration [it] with [k = 100 - it] turns left, a decision
    node whose edges all lead back to it is dispatched on every remaining
    turn, and the loop ends on its condition at the cap. *)
Lemma decision_self_loop k : forall it vis w l dv,
  (it + k)%nat = max_iterations ->
  dict_lookup (VStr "variables") (w_state w) = Some (VRef l) ->
  deref (w_heap w) l = Some (ODict dv) ->
  exists w' vis',
    run_loop k nodes edges_from (mkLoop (Some d) vis it) w =
      (w', Ok (LoopCondition, mkLoop (Some d) vis' max_iterations)) /\
    w_log w' = (w_log w ++ repeat d k)%list.
Proof.
  destruct Hself as (e0 & es & Hg & Hall).
  induction k as [|k IH]; intros it vis w l dv Hit Hst Hl.
  - exists w, vis. rewrite Nat.add_0_r in Hit. subst it. rewrite app_nil_r. auto.
  - cbn [run_loop current_node_id iteration visited].
    rewrite (proj2 (String.eqb_neq d "") Hd).
    assert (Hlt : Nat.ltb it max_iterations = true) by (apply Nat.ltb_lt; lia).
    rewrite Hlt. cbn [negb andb].
    match goal with |- context [bind ?c _] =>
      assert (Hc : c = ret false) by (destruct (mem d vis); [rewrite Hn, Htype|]; reflexivity);
      rewrite Hc, bind_ret
    end.
    cbn beta iota. rewrite Hn. cbn iota.
    erewrite bind_ok by reflexivity. cbn beta.
    erewrite bind_ok by reflexivity. cbn beta.
    rewrite (execute_node_decision n Htype).
    match goal with |- context [bind (execute_decision_node ?dt) _ ?ww] =>
      destruct (decision_step dt ww) as (w3 & lo & dout & lbl & E3 & HR & Hle & Hd3 & Hv3);
      rewrite (bind_ok _ _ _ _ _ E3)
    end.
    cbn beta iota.
    destruct HR as (Hlog3 & Hres3 & Hst3 & Hx3). cbn [w_log w_state w_heap] in *.
    assert (Hl3 : deref (w_heap w3) l = Some (ODict dv)) by (eapply deref_heap_ext; eauto).
    assert (Hne : l <> lo) by (apply deref_lt in Hl; lia).
    erewrite bind_ok by reflexivity. cbn beta.
    erewrite bind_ok.
    2:{ apply merge_output_ref; cbn [w_heap w_state]; eauto. rewrite Hst3. exact Hst. }
    cbn beta. rewrite Htype. cbn iota.
    rewrite (find_next_node_self d edges_from e0 es lbl Hg Hall).
    edestruct IH as (w' & vis' & E & Hlog).
    4:{ exists w', vis'. split; [exact E|]. rewrite Hlog. cbn [w_log]. rewrite Hlog3.
        rewrite <- app_assoc. reflexivity. }
    + lia.
    + cbn [w_state]. rewrite dict_lookup_update_other by exact Hv3. rewrite Hst3. exact Hst.
    + cbn [w_heap]. eapply deref_heap_set_same. exact Hl3.
Qed.

End DecisionLoop.

(* ================================================================== *)
(** * The claims *)

(** ** C1 *)

(** C1: a run dispatches at most [max_iterations] = 100 nodes (the
    dispatch log of every record [execute] returns has at most 100
    entries), and the cycle guard does not stop a decision node that
    branches back to itself: reached at iteration [it], such a node is
    dispatched on each of the [100 - it] remaining turns and the loop is
    left on its condition with [iteration = 100]. *)
Theorem C1_dispatch_cap_and_decision_loop :
  (forall (rt : Runtime) exec_id started finished wf inputs w,
      @execute rt exec_id started finished wf inputs = Ok w ->
      (length (w_log w) <= max_iterations)%nat) /\
  (forall (rt : Runtime) nodes edges_from d n e0 es k it vis w l dv,
      smap_get d nodes = Some n -> rn_type n = "decision" -> d <> "" ->
      smap_get d edges_from = Some (e0 :: es) ->
      Forall (fun e => target e = d) (e0 :: es) ->
      (it + k)%nat = max_iterations ->
      dict_lookup (VStr "variables") (w_state w) = Some (VRef l) ->
      deref (w_heap w) l = Some (ODict dv) ->
      exists w' vis',
        @run_loop rt k nodes edges_from (mkLoop (Some d) vis it) w =
          (w', Ok (LoopCondition, mkLoop (Some d) vis' max_iterations)) /\
        w_log w' = (w_log w ++ repeat d k)%list).
Proof.
  split.
  - intros rt exec_id started finished wf inputs w E. unfold execute in E.
    destruct (prepare exec_id started wf inputs) as [[[rn iv] w0]|] eqn:P; [|discriminate].
    pose proof (run_body_log rn (wf_edges wf) iv w0) as B.
    rewrite (prepare_log _ _ _ _ _ _ _ P) in B.
    destruct (run_body rn (wf_edges wf) iv w0) as [w1 res]. inversion E; subst. simpl in *. lia.
  - intros rt nodes edges_from d n e0 es k it vis w l dv Hn Ht Hd Hg Hall Hit Hst Hl.
    eapply decision_self_loop; eauto.
Qed.


Lemma C1_witness :
  match @execute Demo.runtime "run" "t0" "t1" Examples.wf_loop [("count", JStr "5")] with
  | Ok w => (length (w_log w) <= max_iterations)%nat
  | Exc _ => False
  end /\
  (exists w' vis',
     @run_loop Demo.runtime 100 Examples.loop_nodes Examples.loop_edges
               (mkLoop (Some "d") [] 0) Examples.loop_world =
       (w', Ok (LoopCondition, mkLoop (Some "d") vis' max_iterations)) /\
     w_log w' = (w_log Examples.loop_world ++ repeat "d" 100)%list).
Proof.
  split.
  - destruct (@execute Demo.runtime "run" "t0" "t1" Examples.wf_loop [("count", JStr "5")])
      as [w|e] eqn:E.
    + exact (proj1 C1_dispatch_cap_and_decision_loop _ _ _ _ _ _ _ E).
    + assert (Hok : match @execute Demo.runtime "run" "t0" "t1" Examples.wf_loop
                            [("count", JStr "5")] with Ok _ => true | Exc _ => false end = true)
        by (vm_compute; reflexivity).
      rewrite E in Hok. discriminate.
  - apply (proj2 C1_dispatch_cap_and_decision_loop Demo.runtime Examples.loop_nodes
             Examples.loop_edges "d" (mkRNode "d" "decision" (VRef 0))
             (Examples.edge "d" "d" (Some "yes")) [Examples.edge "d" "d" (Some "no")]
             100 0 [] Examples.loop_world 1 [(VStr "count", VStr "5")]);
      try reflexivity; try discriminate.
    repeat constructor.
Defined.

(** ** The record's frame during a run *)

#[export] Instance R_run_preorder : PreOrder R_run.
Proof.
  split.
  - intros w. repeat split.
  - intros w1 w2 w3 (A1 & B1 & C1 & D1 & E1 & F1) (A2 & B2 & C2 & D2 & E2 & F2).
    repeat split; congruence.
Qed.

Lemma R_log_run {A} (m : M A) : Preserves R_log m -> Preserves R_run m.
Proof. intros Hm w. apply Hm. Qed.

Lemma pres_log_dispatch id : Preserves R_run (log_dispatch id).
Proof. intros w. repeat split. Qed.

#[export] Hint Resolve R_log_run pres_log_dispatch : pres.

Section RunFrame.
Context `{Runtime}.

Lemma pres_run_loop fuel nodes edges_from lv :
  Preserves R_run (run_loop fuel nodes edges_from lv).
Proof.
  revert lv. induction fuel as [|f IH]; intros lv; cbn [run_loop]; pres.
Qed.

#[local] Hint Resolve pres_run_loop : pres.

Lemma pres_run_body rnodes edges inputs : Preserves R_run (run_body rnodes edges inputs).
Proof. unfold run_body. pres. Qed.

End RunFrame.

(** ** Preparing a run *)

Lemma alloc_nodes_types h ns : map rn_type (snd (alloc_nodes h ns)) = map node_type ns.
Proof.
  revert h. induction ns as [|nd ns IH]; intros h; cbn [alloc_nodes]; [reflexivity|].
  destruct (alloc_json h (JDict (node_data nd))) as [h1 d]. specialize (IH h1).
  destruct (alloc_nodes h1 ns) as [h2 rs]. cbn [snd map rn_type] in *. f_equal. exact IH.
Qed.

Lemma smap_set_values {A} k (a : A) m x :
  In x (map snd (smap_set k a m)) -> x = a \/ In x (map snd m).
Proof.
  induction m as [|[k' a'] m IH]; simpl; [intuition|].
  destruct (String.eqb k' k); simpl; intros [E|E]; auto.
  destruct (IH E); auto.
Qed.

Lemma build_nodes_values ns x : In x (map snd (build_nodes ns)) -> In x ns.
Proof.
  unfold build_nodes.
  assert (G : forall acc, In x (map snd (fold_left (fun m n => smap_set (rn_id n) n m) ns acc)) ->
              In x ns \/ In x (map snd acc)).
  { induction ns as [|n ns IH]; intros acc Hx; simpl in *; [auto|].
    destruct (IH _ Hx) as [E|E]; auto.
    destruct (smap_set_values _ _ _ _ E); auto. }
  intros Hx. destruct (G [] Hx) as [E|[]]. exact E.
Qed.

Lemma find_start_node_none rns :
  Forall (fun t => t <> "start") (map rn_type rns) -> find_start_node (build_nodes rns) = None.
Proof.
  intros Hall. unfold find_start_node.
  destruct (find _ (build_nodes rns)) as [[k n]|] eqn:F; [|reflexivity].
  apply find_some in F as [Hin Ht]. apply String.eqb_eq in Ht.
  exfalso. rewrite Forall_forall in Hall. apply (Hall (rn_type n)); [|exact Ht].
  apply in_map. apply build_nodes_values. apply (in_map snd) in Hin. exact Hin.
Qed.


(** What [execute] has in place when its [try] block is entered. *)
Lemma prepare_some exec_id started wf inputs wid :
  wf_id wf = Some wid ->
  exists rn iv w0, prepare exec_id started wf inputs = Some (rn, iv, w0) /\
    map rn_type rn = map node_type (wf_nodes wf) /\
    w_log w0 = [] /\ workflow_id (w_result w0) = wid /\
    errors (w_result w0) = [] /\ node_results (w_result w0) = [].
Proof.
  intros E. unfold prepare. destruct (alloc_json [] (JDict inputs)) as [h0 v0].
  pose proof (alloc_nodes_types h0 (wf_nodes wf)) as T.
  destruct (alloc_nodes h0 (wf_nodes wf)) as [h1 rs]. rewrite E. do 3 eexists. split; [reflexivity|].
  simpl in *. auto.
Qed.

(** ** C4 *)

(** C4: whenever the body of [execute]'s [try] block returns normally,
    whichever way the loop was left (its condition: no next node or the
    iteration cap; the cycle guard; or an end node), the returned record
    has status COMPLETED and no error is added. *)
Theorem C4_normal_exit_completed :
  forall (rt : Runtime) exec_id started finished wf inputs rn iv w0 w1 ex lv,
    prepare exec_id started wf inputs = Some (rn, iv, w0) ->
    @run_body rt rn (wf_edges wf) iv w0 = (w1, Ok (ex, lv)) ->
    exists w, @execute rt exec_id started finished wf inputs = Ok w /\
      status (w_result w) = COMPLETED /\ errors (w_result w) = errors (w_result w1) /\
      completed_at (w_result w) = Some finished /\ w_log w = w_log w1.
Proof.
  intros rt exec_id started finished wf inputs rn iv w0 w1 ex lv P B.
  unfold execute. rewrite P, B. eexists. split; [reflexivity|].
  cbn. rewrite app_nil_r. auto.
Qed.

Lemma C4_witness :
  match prepare "run" "t0" Examples.wf_noend [("name", JStr "Ada")] with
  | Some (rn, iv, w0) =>
      match @run_body Demo.runtime rn (wf_edges Examples.wf_noend) iv w0 with
      | (w1, Ok (ex, lv)) =>
          exists w, @execute Demo.runtime "run" "t0" "t1" Examples.wf_noend
                               [("name", JStr "Ada")] = Ok w /\
            status (w_result w) = COMPLETED /\ errors (w_result w) = errors (w_result w1) /\
            completed_at (w_result w) = Some "t1" /\ w_log w = w_log w1
      | _ => False
      end
  | None => False
  end.
Proof.
  assert (Hok : match prepare "run" "t0" Examples.wf_noend [("name", JStr "Ada")] with
                | Some (rn, iv, w0) =>
                    match @run_body Demo.runtime rn (wf_edges Examples.wf_noend) iv w0 with
                    | (_, Ok _) => true
                    | _ => false
                    end
                | None => false
                end = true) by (vm_compute; reflexivity).
  revert Hok.
  destruct (prepare "run" "t0" Examples.wf_noend [("name", JStr "Ada")])
    as [[[rn iv] w0]|] eqn:P; [|intros Hc; discriminate Hc].
  destruct (@run_body Demo.runtime rn (wf_edges Examples.wf_noend) iv w0)
    as [w1 [[ex lv]|e]] eqn:B; [intros _ | intros Hc; discriminate Hc].
  exact (C4_normal_exit_completed Demo.runtime "run" "t0" "t1" Examples.wf_noend
           [("name", JStr "Ada")] rn iv w0 w1 ex lv P B).
Defined.

(** ** C2 *)

(** C2 (as the code has it): [execute] raises when the record it builds
    before its [try] block is rejected: [Workflow.id] is optional while
    [ExecutionResult.workflow_id] is a [str], so a workflow without an id
    makes [execute] raise pydantic's ValidationError. *)
Lemma C2_counterexample :
  @execute Demo.runtime "run" "t0" "t1" Examples.wf_noid [] =
    Exc "1 validation error for ExecutionResult: workflow_id: Input should be a valid string".
Proof. reflexivity. Qed.

(** C2 (amended): for a workflow with an id, [execute] returns a record
    and never raises; an exception [e] of the run gives status FAILED with
    errors [[e]], a normal exit status COMPLETED with no error, and
    [completed_at] is stamped either way. *)
Theorem C2_execute_records_failures :
  forall (rt : Runtime) exec_id started finished wf inputs wid,
    wf_id wf = Some wid ->
    exists rn iv w0, prepare exec_id started wf inputs = Some (rn, iv, w0) /\
    let '(w1, res) := @run_body rt rn (wf_edges wf) iv w0 in
    exists w, @execute rt exec_id started finished wf inputs = Ok w /\
      w_log w = w_log w1 /\ workflow_id (w_result w) = wid /\
      completed_at (w_result w) = Some finished /\
      match res with
      | Ok _ => status (w_result w) = COMPLETED /\ errors (w_result w) = []
      | Exc e => status (w_result w) = FAILED /\ errors (w_result w) = [e]
      end.
Proof.
  intros rt exec_id started finished wf inputs wid Hid.
  destruct (prepare_some exec_id started wf inputs wid Hid)
    as (rn & iv & w0 & P & _ & _ & Hwid & Herr & _).
  exists rn, iv, w0. split; [exact P|].
  pose proof (pres_run_body rn (wf_edges wf) iv w0) as F.
  unfold execute. rewrite P.
  destruct (run_body rn (wf_edges wf) iv w0) as [w1 res].
  destruct F as (_ & Fwid & _ & _ & _ & Ferr). cbn [fst] in *.
  eexists. split; [reflexivity|].
  destruct res; cbn; rewrite Fwid, Ferr, Hwid, Herr; auto.
Qed.

Lemma C2_witness :
  exists rn iv w0, prepare "run" "t0" Examples.wf_noend [] = Some (rn, iv, w0) /\
    let '(w1, res) := @run_body Demo.runtime rn (wf_edges Examples.wf_noend) iv w0 in
    exists w, @execute Demo.runtime "run" "t0" "t1" Examples.wf_noend [] = Ok w /\
      w_log w = w_log w1 /\ workflow_id (w_result w) = "wf" /\
      completed_at (w_result w) = Some "t1" /\
      match res with
      | Ok _ => status (w_result w) = COMPLETED /\ errors (w_result w) = []
      | Exc e => status (w_result w) = FAILED /\ errors (w_result w) = [e]
      end.
Proof.
  exact (C2_execute_records_failures Demo.runtime "run" "t0" "t1" Examples.wf_noend [] "wf"
           eq_refl).
Defined.

(** ** C3 *)

(** C3 (as the code has it): without an id the record cannot be built and
    [execute] raises before the start node is looked for. *)
Lemma C3_counterexample :
  @execute Demo.runtime "run" "t0" "t1" Examples.wf_nostart_noid [] =
    Exc "1 validation error for ExecutionResult: workflow_id: Input should be a valid string".
Proof. reflexivity. Qed.

(** C3 (amended): a workflow with an id and no node of type start gives a
    FAILED record whose only error is the missing start node, with no
    node result and no node dispatched. *)
Theorem C3_no_start_fails :
  forall (rt : Runtime) exec_id started finished wf inputs wid,
    wf_id wf = Some wid ->
    Forall (fun nd => node_type nd <> "start") (wf_nodes wf) ->
    exists w, @execute rt exec_id started finished wf inputs = Ok w /\
      status (w_result w) = FAILED /\
      errors (w_result w) = ["Workflow must have a 'start' node"] /\
      node_results (w_result w) = [] /\ w_log w = [] /\
      completed_at (w_result w) = Some finished.
Proof.
  intros rt exec_id started finished wf inputs wid Hid Hns.
  destruct (prepare_some exec_id started wf inputs wid Hid)
    as (rn & iv & w0 & P & Ht & Hlog & _ & Herr & Hnr).
  assert (Hs : find_start_node (build_nodes rn) = None).
  { apply find_start_node_none. rewrite Ht.
    rewrite Forall_forall in *. intros t Hin. apply in_map_iff in Hin as (nd & <- & Hin).
    apply Hns. exact Hin. }
  unfold execute. rewrite P. unfold run_body. cbv zeta. rewrite Hs.
  eexists. split; [reflexivity|]. cbn. rewrite Herr, Hnr, Hlog. auto.
Qed.

Lemma C3_witness :
  exists w, @execute Demo.runtime "run" "t0" "t1" Examples.wf_nostart [] = Ok w /\
    status (w_result w) = FAILED /\
    errors (w_result w) = ["Workflow must have a 'start' node"] /\
    node_results (w_result w) = [] /\ w_log w = [] /\
    completed_at (w_result w) = Some "t1".
Proof.
  apply (C3_no_start_fails Demo.runtime "run" "t0" "t1" Examples.wf_nostart [] "wf");
    [reflexivity | repeat constructor; discriminate].
Defined.

(** ** Edge tables *)

Lemma smap_get_set {A} k k' (a : A) m :
  smap_get k (smap_set k' a m) = if String.eqb k' k then Some a else smap_get k m.
Proof.
  induction m as [|[k0 a0] m IH]; simpl; [reflexivity|].
  destruct (String.eqb_spec k0 k') as [->|Hne]; simpl.
  - destruct (String.eqb k' k); reflexivity.
  - rewrite IH. destruct (String.eqb_spec k0 k) as [->|Hne2].
    + destruct (String.eqb_spec k' k) as [->|]; [congruence | reflexivity].
    + reflexivity.
Qed.

(** [edges_from[cid]] lists the edges out of [cid] in declaration order. *)
Lemma build_edges_from_get cid es :
  match smap_get cid (build_edges_from es) with Some l => l | None => [] end =
  outgoing cid es.
Proof.
  unfold build_edges_from, outgoing.
  assert (G : forall acc,
    match smap_get cid (fold_left (fun m e =>
               match smap_get (source e) m with
               | None => smap_set (source e) [e] m
               | Some l => smap_set (source e) (l ++ [e])%list m
               end) es acc) with Some l => l | None => [] end =
    ((match smap_get cid acc with Some l => l | None => [] end) ++
     filter (fun e => String.eqb (source e) cid) es)%list).
  { induction es as [|e es IH]; intros acc; simpl; [rewrite app_nil_r; reflexivity|].
    rewrite IH.
    destruct (String.eqb_spec (source e) cid) as [Hs|Hs].
    - destruct (smap_get (source e) acc) as [l|] eqn:E;
        rewrite smap_get_set, Hs, String.eqb_refl; rewrite Hs in E; rewrite E;
        [rewrite <- app_assoc; reflexivity | reflexivity].
    - destruct (smap_get (source e) acc) as [l|];
        rewrite smap_get_set; apply String.eqb_neq in Hs; rewrite Hs; reflexivity. }
  rewrite G. reflexivity.
Qed.

(** ** C9 *)

(** C9 (as the code has it): with no branch label (every node but a
    decision node), the first declared edge is taken even when an edge
    labelled default exists; the specification's order would take the
    default edge. *)
Lemma C9_counterexample :
  find_next_node "n" (build_edges_from Examples.edges_default) None = Some "A" /\
  spec_next_node None (outgoing "n" Examples.edges_default) = Some "B".
Proof. split; reflexivity. Qed.

(** C9 (amended): the next node after [cid] is chosen among its outgoing
    edges in declaration order: none without outgoing edges; for a
    non-empty branch label, the first edge whose (non-empty) label equals
    it case-insensitively, else the first edge labelled default
    (case-insensitively), else the first edge; with no label or an empty
    one, the first edge. *)
Theorem C9_next_node_selection :
  forall cid es lbl,
    find_next_node cid (build_edges_from es) lbl =
    match outgoing cid es with
    | [] => None
    | e0 :: _ =>
        match lbl with
        | Some l =>
            if String.eqb l "" then Some (target e0)
            else match find (label_matches (py_lower l)) (outgoing cid es) with
                 | Some e => Some (target e)
                 | None =>
                     match find (label_matches "default") (outgoing cid es) with
                     | Some e => Some (target e)
                     | None => Some (target e0)
                     end
                 end
        | None => Some (target e0)
        end
    end.
Proof.
  intros cid es lbl. unfold find_next_node. rewrite build_edges_from_get.
  destruct (outgoing cid es) as [|e0 rest]; [reflexivity|].
  destruct lbl as [l|]; [|reflexivity].
  destruct (String.eqb l ""); [reflexivity|].
  destruct (find (label_matches (py_lower l)) _); [reflexivity|].
  destruct (find (label_matches "default") _); reflexivity.
Qed.

(** ** Edges out of unknown nodes *)





Lemma smap_set_keys {A} k (a : A) m x :
  In x (map fst (smap_set k a m)) -> x = k \/ In x (map fst m).
Proof.
  induction m as [|[k' a'] m IH]; simpl; [intuition|].
  destruct (String.eqb_spec k' k); simpl; intros [E|E]; auto.
  destruct (IH E); auto.
Qed.


Section EdgeTables.
Context `{Runtime}.


End EdgeTables.


Lemma find_app_split {A} (f : A -> bool) (l1 l2 : list A) :
  find f (l1 ++ l2) = match find f l1 with Some x => Some x | None => find f l2 end.
Proof.
  induction l1 as [|x l1 IH]; simpl; [reflexivity|].
  destruct (f x); [reflexivity | exact IH].
Qed.

Lemma build_nodes_fold_get k ns acc :
  smap_get k (fold_left (fun m n => smap_set (rn_id n) n m) ns acc) =
  match find (fun n => String.eqb (rn_id n) k) (rev ns) with
  | Some n => Some n
  | None => smap_get k acc
  end.
Proof.
  revert acc. induction ns as [|n ns IH]; intros acc; cbn [fold_left rev]; [reflexivity|].
  rewrite IH, find_app_split, smap_get_set. cbn [find].
  destruct (find _ (rev ns)); [reflexivity|].
  destruct (String.eqb (rn_id n) k); reflexivity.
Qed.

Lemma smap_set_in {A} k (a : A) m k0 a0 :
  In (k0, a0) (smap_set k a m) -> (k0 = k /\ a0 = a) \/ In (k0, a0) m.
Proof.
  induction m as [|[k' a'] m IH]; simpl.
  - intros [E|[]]. injection E as -> ->. auto.
  - destruct (String.eqb_spec k' k) as [->|Hne]; simpl.
    + intros [E|E]; [injection E as -> ->; auto | auto].
    + intros [E|E]; [auto|]. destruct (IH E); auto.
Qed.

Lemma smap_set_nodup {A} k (a : A) m : NoDup (map fst m) -> NoDup (map fst (smap_set k a m)).
Proof.
  induction m as [|[k' a'] m IH]; simpl; intros Hn.
  - constructor; [intros []|constructor].
  - inversion Hn as [|x l Hx Hl]; subst.
    destruct (String.eqb_spec k' k) as [->|Hne]; simpl; constructor; auto.
    intros Hin. apply smap_set_keys in Hin as [E|E]; [congruence | contradiction].
Qed.

Lemma smap_get_nodup_in {A} k (a : A) m : NoDup (map fst m) -> In (k, a) m -> smap_get k m = Some a.
Proof.
  induction m as [|[k' a'] m IH]; simpl; [intros _ []|].
  intros Hn [E|E]; inversion Hn as [|x l Hx Hl]; subst.
  - injection E as -> ->. rewrite String.eqb_refl. reflexivity.
  - destruct (String.eqb_spec k' k) as [->|Hne]; [|apply IH; auto].
    exfalso. apply Hx. apply (in_map fst) in E. exact E.
Qed.

Lemma build_nodes_wf ns :
  NoDup (map fst (build_nodes ns)) /\ forall k n, In (k, n) (build_nodes ns) -> k = rn_id n.
Proof.
  unfold build_nodes.
  assert (G : forall acc, NoDup (map fst acc) -> (forall k n, In (k, n) acc -> k = rn_id n) ->
    NoDup (map fst (fold_left (fun m n => smap_set (rn_id n) n m) ns acc)) /\
    forall k n, In (k, n) (fold_left (fun m n => smap_set (rn_id n) n m) ns acc) -> k = rn_id n).
  { induction ns as [|n ns IH]; intros acc Hn Hk; simpl; [auto|].
    apply IH; [apply smap_set_nodup; exact Hn|].
    intros k n' Hin. apply smap_set_in in Hin as [[-> ->]|E]; auto. }
  apply G; [constructor | intros k n []].
Qed.

Lemma smap_set_new {A} k (a : A) m : ~ In k (map fst m) -> smap_set k a m = (m ++ [(k, a)])%list.
Proof.
  induction m as [|[k' a'] m IH]; simpl; intros Hn; [reflexivity|].
  destruct (String.eqb_spec k' k) as [->|Hne]; [exfalso; auto|].
  rewrite IH; auto.
Qed.

Lemma build_nodes_distinct ns acc :
  NoDup (map rn_id ns) -> (forall n, In n ns -> ~ In (rn_id n) (map fst acc)) ->
  fold_left (fun m n => smap_set (rn_id n) n m) ns acc =
  (acc ++ map (fun n => (rn_id n, n)) ns)%list.
Proof.
  revert acc. induction ns as [|n ns IH]; intros acc Hd Ha; simpl; [rewrite app_nil_r; reflexivity|].
  inversion Hd as [|x l Hx Hl]; subst.
  rewrite smap_set_new by (apply Ha; left; reflexivity).
  rewrite IH; [rewrite <- app_assoc; reflexivity | exact Hl |].
  intros n' Hin. rewrite map_app, in_app_iff. intros [E|E].
  - apply (Ha n'); [right; exact Hin | exact E].
  - destruct E as [E|[]]. cbn [fst] in E. apply Hx. rewrite E. apply in_map. exact Hin.
Qed.

Lemma build_nodes_get ns k :
  smap_get k (build_nodes ns) = find (fun n => String.eqb (rn_id n) k) (rev ns).
Proof.
  unfold build_nodes. rewrite build_nodes_fold_get.
  destruct (find _ (rev ns)); reflexivity.
Qed.

(** ** Edges and the traversal *)






Lemma in_mem x xs : mem x xs = true -> In x xs.
Proof.
  unfold mem. intros Hx. apply existsb_exists in Hx as [y [Hy E]].
  apply String.eqb_eq in E. subst. exact Hy.
Qed.





Lemma mem_set_add c x xs : mem c (set_add x xs) = mem c xs || String.eqb c x.
Proof.
  unfold set_add. destruct (mem x xs) eqn:Hx.
  - destruct (String.eqb c x) eqn:E.
    + apply String.eqb_eq in E. subst. rewrite Hx. reflexivity.
    + rewrite orb_false_r. reflexivity.
  - unfold mem. rewrite existsb_app. cbn [existsb]. rewrite orb_false_r. reflexivity.
Qed.






Section Retarget.
Context `{Runtime}.






End Retarget.




Section EdgeRuns.
Context `{Runtime}.




End EdgeRuns.

(** ** C5 *)




(** ** The cycle guard *)

Lemma pres_log_eq {A} (m : M A) w w' r :
  Preserves R_log m -> m w = (w', r) -> w_log w' = w_log w.
Proof. intros Hm E. specialize (Hm w). rewrite E in Hm. exact (proj1 Hm). Qed.

Lemma bind_log_inv {A B} (m : M A) (k : A -> M B) w w' r :
  Preserves R_log m -> bind m k w = (w', r) ->
  (exists a w1, w_log w1 = w_log w /\ k a w1 = (w', r)) \/
  (w_log w' = w_log w /\ exists e, r = Exc e).
Proof.
  intros Hm E. unfold bind in E. specialize (Hm w).
  destruct (m w) as [w1 [a|e]]; cbn [fst] in Hm; destruct Hm as [Hl _].
  - left. eauto.
  - right. inversion E; subst. eauto.
Qed.

Lemma once_inv_nil nodes : once_inv nodes [] [].
Proof. intros c n _ _. cbn. lia. Qed.

Lemma once_inv_le nodes vis log c n :
  once_inv nodes vis log -> smap_get c nodes = Some n -> rn_type n <> "decision" ->
  (count_occ string_dec log c <= 1)%nat.
Proof. intros Hi Hn Ht. specialize (Hi c n Hn Ht). destruct (mem c vis); lia. Qed.

Lemma once_inv_add nodes vis log cid :
  once_inv nodes vis log ->
  (mem cid vis = false \/ exists n, smap_get cid nodes = Some n /\ rn_type n = "decision") ->
  once_inv nodes (set_add cid vis) (log ++ [cid]).
Proof.
  intros Hi Hc c n Hn Ht. rewrite count_occ_app, mem_set_add.
  specialize (Hi c n Hn Ht). cbn [count_occ].
  destruct (string_dec cid c) as [<-|Hne].
  - rewrite String.eqb_refl, orb_true_r. destruct Hc as [Hm | (n' & Hn' & Ht')].
    + rewrite Hm in Hi. lia.
    + rewrite Hn in Hn'. inversion Hn'; subst. contradiction.
  - rewrite (proj2 (String.eqb_neq c cid)) by congruence. rewrite orb_false_r.
    destruct (mem c vis); lia.
Qed.

Section Guard.
Context `{Runtime}.

(** Along a run of the loop, the invariant [once_inv] is kept, and a
    turn that does not dispatch a node is the last one: when the loop is
    left by the cycle guard, the iteration counter has grown by one more
    than the log. *)
Lemma run_loop_guard fuel : forall nodes edges_from lv w w' r,
  run_loop fuel nodes edges_from lv w = (w', r) ->
  once_inv nodes (visited lv) (w_log w) ->
  (exists vis', once_inv nodes vis' (w_log w')) /\
  (forall lv', r = Ok (LoopCycle, lv') ->
     (iteration lv' + length (w_log w) = S (iteration lv + length (w_log w')))%nat).
Proof.
  induction fuel as [|f IH]; intros nodes edges_from lv w w' r E Hi;
    cbn [run_loop] in E.
  - inversion E; subst. split; [eauto | intros lv' Hr; discriminate Hr].
  - destruct (current_node_id lv) as [cid|];
      [| inversion E; subst; split; [eauto | intros lv' Hr; discriminate Hr]].
    destruct (negb (String.eqb cid "") && Nat.ltb (iteration lv) max_iterations);
      [| inversion E; subst; split; [eauto | intros lv' Hr; discriminate Hr]].
    cbv zeta in E.
    assert (Htail : forall n, smap_get cid nodes = Some n ->
      once_inv nodes (set_add cid (visited lv)) (w_log w ++ [cid]) ->
      (set_current_node cid;;; log_dispatch cid;;;
       ' (node_output, next_label) <- execute_node n;;
       set_node_result cid node_output;;; merge_output node_output;;;
       if String.eqb (rn_type n) "end" then
         variables <- state_get "variables";;
         set_outputs [(VStr "final", node_output); (VStr "state", variables)];;;
         ret (LoopEnd, mkLoop (Some cid) (set_add cid (visited lv)) (S (iteration lv)))
       else
         run_loop f nodes edges_from
           (mkLoop (find_next_node cid edges_from next_label)
                   (set_add cid (visited lv)) (S (iteration lv)))) w = (w', r) ->
      (exists vis', once_inv nodes vis' (w_log w')) /\
      (forall lv', r = Ok (LoopCycle, lv') ->
         (iteration lv' + length (w_log w) = S (iteration lv + length (w_log w')))%nat)).
    { intros n Hn Hadd E1.
      apply bind_log_inv in E1; [|pres].
      destruct E1 as [(a1 & w1 & L1 & E1) | (L1 & e1 & ->)];
        [| split; [exists (visited lv); rewrite L1; exact Hi | intros lv' Hr; discriminate Hr]].
      erewrite bind_ok in E1 by reflexivity.
      set (w2 := mkWorld (w_heap w1) (w_state w1) (w_result w1) (w_log w1 ++ [cid])%list) in E1.
      assert (L2 : w_log w2 = (w_log w ++ [cid])%list) by (cbn; rewrite L1; reflexivity).
      clearbody w2. clear w1 L1.
      apply bind_log_inv in E1; [|pres].
      destruct E1 as [([out lbl] & w3 & L3 & E1) | (L3 & e3 & ->)];
        [| split; [exists (set_add cid (visited lv)); rewrite L3, L2; exact Hadd
                  | intros lv' Hr; discriminate Hr]].
      apply bind_log_inv in E1; [|pres].
      destruct E1 as [(a4 & w4 & L4 & E1) | (L4 & e4 & ->)];
        [| split; [exists (set_add cid (visited lv)); rewrite L4, L3, L2; exact Hadd
                  | intros lv' Hr; discriminate Hr]].
      apply bind_log_inv in E1; [|pres].
      destruct E1 as [(a5 & w5 & L5 & E1) | (L5 & e5 & ->)];
        [| split; [exists (set_add cid (visited lv)); rewrite L5, L4, L3, L2; exact Hadd
                  | intros lv' Hr; discriminate Hr]].
      assert (L : w_log w5 = (w_log w ++ [cid])%list) by congruence.
      clear L2 L3 L4 L5.
      destruct (String.eqb (rn_type n) "end").
      - assert (Pe : Preserves R_log
                       (variables <- state_get "variables";;
                        set_outputs [(VStr "final", out); (VStr "state", variables)];;;
                        ret (LoopEnd, mkLoop (Some cid) (set_add cid (visited lv))
                                             (S (iteration lv))))) by pres.
        pose proof (pres_log_eq _ _ _ _ Pe E1) as L6.
        split; [exists (set_add cid (visited lv)); rewrite L6, L; exact Hadd|].
        intros lv' Hr. subst r.
        unfold bind in E1.
        destruct (state_get "variables" w5) as [w6 [v|e6]]; [|discriminate E1].
        destruct (set_outputs _ w6) as [w7 [u|e7]]; discriminate E1.
      - destruct (IH _ _ _ _ _ _ E1) as [IH1 IH2]; [rewrite L; exact Hadd|].
        split; [exact IH1|]. intros lv' Hr. specialize (IH2 lv' Hr).
        cbn [iteration] in IH2. rewrite L, length_app in IH2. cbn [length] in IH2. lia. }
    destruct (mem cid (visited lv)) eqn:Hm.
    + destruct (smap_get cid nodes) as [n|] eqn:Hn.
      * rewrite bind_ret in E. cbv beta in E.
        destruct (String.eqb (rn_type n) "decision") eqn:Hd; cbn [negb] in E.
        -- apply (Htail n); [reflexivity | | exact E].
           apply once_inv_add; [exact Hi|]. right. exists n. split; [exact Hn|].
           apply String.eqb_eq. exact Hd.
        -- inversion E; subst. split; [eauto|]. intros lv' Hr. inversion Hr; subst.
           cbn [iteration]. lia.
      * unfold bind, raise in E. inversion E; subst.
        split; [eauto | intros lv' Hr; discriminate Hr].
    + rewrite bind_ret in E. cbv beta iota in E.
      destruct (smap_get cid nodes) as [n|] eqn:Hn.
      * apply (Htail n); [reflexivity | | exact E]. apply once_inv_add; [exact Hi|]. left. exact Hm.
      * unfold raise in E. inversion E; subst.
        split; [eauto | intros lv' Hr; discriminate Hr].
Qed.

End Guard.

Section GuardBody.
Context `{Runtime}.

Lemma run_body_guard rnodes edges inputs w w1 r :
  run_body rnodes edges inputs w = (w1, r) -> w_log w = [] ->
  (forall c n, smap_get c (build_nodes rnodes) = Some n -> rn_type n <> "decision" ->
     (count_occ string_dec (w_log w1) c <= 1)%nat) /\
  (forall lv, r = Ok (LoopCycle, lv) -> iteration lv = S (length (w_log w1))).
Proof.
  intros E Hw. unfold run_body in E. cbv zeta in E.
  assert (Hnil : forall w', w_log w' = [] ->
            (forall c n, smap_get c (build_nodes rnodes) = Some n -> rn_type n <> "decision" ->
               (count_occ string_dec (w_log w') c <= 1)%nat)).
  { intros w' Hw' c n _ _. rewrite Hw'. cbn. lia. }
  destruct (find_start_node (build_nodes rnodes)) as [sn|].
  2:{ unfold raise in E. inversion E; subst. split; [apply Hnil; exact Hw | discriminate]. }
  apply bind_log_inv in E; [|pres].
  destruct E as [(m & w2 & L2 & E) | (L2 & e2 & ->)];
    [| split; [apply Hnil; congruence | discriminate]].
  apply bind_log_inv in E; [|pres].
  destruct E as [(v & w3 & L3 & E) | (L3 & e3 & ->)];
    [| split; [apply Hnil; congruence | discriminate]].
  apply bind_log_inv in E; [|pres].
  destruct E as [(h & w4 & L4 & E) | (L4 & e4 & ->)];
    [| split; [apply Hnil; congruence | discriminate]].
  cbv beta zeta in E.
  apply bind_log_inv in E; [|pres].
  destruct E as [(u & w5 & L5 & E) | (L5 & e5 & ->)];
    [| split; [apply Hnil; congruence | discriminate]].
  assert (L : w_log w5 = []) by congruence.
  destruct (run_loop_guard _ _ _ _ _ _ _ E) as [[vis' Hi] Hc].
  { cbn [visited]. rewrite L. apply once_inv_nil. }
  split.
  - intros c n Hn Ht. exact (once_inv_le _ _ _ _ _ Hi Hn Ht).
  - intros lv Hr. specialize (Hc lv Hr). rewrite L in Hc. cbn in Hc. lia.
Qed.

End GuardBody.

(** ** C6 *)

(** C6 (as the code has it): with a cycle a -> b -> a of transform nodes
    after the start node, the loop dispatches s, a and b once each and is
    left by the cycle guard at iteration 4, not 2; the run is Completed. *)
Lemma C6_counterexample :
  match prepare "run" "t0" Examples.wf_tloop [] with
  | Some (rn, iv, w0) =>
      match @run_body Demo.runtime rn (wf_edges Examples.wf_tloop) iv w0 with
      | (w1, Ok (LoopCycle, lv)) => iteration lv = 4 /\ w_log w1 = ["s"; "a"; "b"]
      | _ => False
      end
  | None => False
  end /\
  match @execute Demo.runtime "run" "t0" "t1" Examples.wf_tloop [] with
  | Ok w => status (w_result w) = COMPLETED /\ errors (w_result w) = []
  | Exc _ => False
  end.
Proof. split; vm_compute; repeat split. Qed.

(** C6 (amended): in every run (started with an empty log), each node
    that is not a decision node is dispatched at most once, and when the
    loop is left by the cycle guard the iteration counter is one more than
    the number of nodes dispatched (so it is 2 only when the start node
    loops back to itself, and in general is not bounded by 2).  Reaching
    an already visited node that is not a decision node ends the loop at
    once as a normal exit, without dispatching it. *)
Theorem C6_cycle_guard :
  (forall (rt : Runtime) rnodes edges inputs w w1 r,
     w_log w = [] -> @run_body rt rnodes edges inputs w = (w1, r) ->
     (forall c n, smap_get c (build_nodes rnodes) = Some n -> rn_type n <> "decision" ->
        (count_occ string_dec (w_log w1) c <= 1)%nat) /\
     (forall lv, r = Ok (LoopCycle, lv) -> iteration lv = S (length (w_log w1)))) /\
  (forall (rt : Runtime) f nodes edges_from cid n vis it w,
     smap_get cid nodes = Some n -> rn_type n <> "decision" -> mem cid vis = true ->
     cid <> "" -> (it < max_iterations)%nat ->
     @run_loop rt (S f) nodes edges_from (mkLoop (Some cid) vis it) w =
       (w, Ok (LoopCycle, mkLoop (Some cid) vis (S it)))).
Proof.
  split.
  - intros rt rnodes edges inputs w w1 r Hw E. exact (run_body_guard _ _ _ _ _ _ E Hw).
  - intros rt f nodes edges_from cid n vis it w Hn Ht Hm Hd Hit.
    cbn [run_loop current_node_id iteration visited].
    rewrite (proj2 (String.eqb_neq cid "") Hd).
    rewrite (proj2 (Nat.ltb_lt it max_iterations) Hit). cbn [negb andb]. cbv zeta.
    rewrite Hm, Hn, bind_ret. cbv beta.
    rewrite (proj2 (String.eqb_neq (rn_type n) "decision") Ht). reflexivity.
Qed.

Lemma C6_witness :
  match prepare "run" "t0" Examples.wf_tloop [] with
  | Some (rn, iv, w0) =>
      match @run_body Demo.runtime rn (wf_edges Examples.wf_tloop) iv w0 with
      | (w1, r) =>
          (forall c n, smap_get c (build_nodes rn) = Some n -> rn_type n <> "decision" ->
             (count_occ string_dec (w_log w1) c <= 1)%nat) /\
          (forall lv, r = Ok (LoopCycle, lv) -> iteration lv = S (length (w_log w1)))
      end
  | None => False
  end /\
  @run_loop Demo.runtime 97 [("a", mkRNode "a" "transform" (VRef 0))] []
            (mkLoop (Some "a") ["s"; "a"; "b"] 3) Examples.loop_world =
    (Examples.loop_world, Ok (LoopCycle, mkLoop (Some "a") ["s"; "a"; "b"] 4)).
Proof.
  split.
  - assert (Hok : match prepare "run" "t0" Examples.wf_tloop [] with
                  | Some _ => true | None => false end = true) by (vm_compute; reflexivity).
    revert Hok.
    destruct (prepare "run" "t0" Examples.wf_tloop []) as [[[rn iv] w0]|] eqn:P;
      [intros _ | intros Hc; discriminate Hc].
    destruct (@run_body Demo.runtime rn (wf_edges Examples.wf_tloop) iv w0) as [w1 r] eqn:B.
    exact (proj1 C6_cycle_guard Demo.runtime rn (wf_edges Examples.wf_tloop) iv w0 w1 r
             (prepare_log _ _ _ _ _ _ _ P) B).
  - apply (proj2 C6_cycle_guard Demo.runtime 96 [("a", mkRNode "a" "transform" (VRef 0))] []
             "a" (mkRNode "a" "transform" (VRef 0)) ["s"; "a"; "b"] 3 Examples.loop_world);
      [reflexivity | discriminate | reflexivity | discriminate | cbv; lia].
Defined.

(** ** Dict lookups through updates *)

Lemma key_eqb_sym a b : key_eqb a b = key_eqb b a.
Proof.
  destruct a as [| x | x | x | x], b as [| y | y | y | y]; cbn; try reflexivity.
  - destruct x, y; reflexivity.
  - apply Z.eqb_sym.
  - apply String.eqb_sym.
Qed.

Lemma key_eqb_trans a b c : key_eqb a b = true -> key_eqb b c = true -> key_eqb a c = true.
Proof.
  destruct a as [| [] | x | x | x], b as [| [] | y | y | y], c as [| [] | z | z | z];
    cbn; intros H1 H2; try discriminate; try reflexivity;
    repeat match goal with
    | H : Z.eqb _ _ = true |- _ => apply Z.eqb_eq in H
    | H : String.eqb _ _ = true |- _ => apply String.eqb_eq in H
    end; subst; try apply Z.eqb_eq; try apply String.eqb_refl; try lia.
Qed.

Lemma dict_lookup_set k' v k d :
  dict_lookup k (dict_set k' v d) = if key_eqb k' k then Some v else dict_lookup k d.
Proof.
  induction d as [|[k0 v0] d IH]; cbn; [reflexivity|].
  destruct (key_eqb k0 k') eqn:E0; cbn.
  - destruct (key_eqb k0 k) eqn:E1, (key_eqb k' k) eqn:E2; try reflexivity.
    + rewrite key_eqb_sym in E0. rewrite (key_eqb_trans _ _ _ E0 E1) in E2. discriminate.
    + rewrite (key_eqb_trans _ _ _ E0 E2) in E1. discriminate.
  - rewrite IH. destruct (key_eqb k0 k) eqn:E1, (key_eqb k' k) eqn:E2; try reflexivity.
    rewrite key_eqb_sym in E2. rewrite (key_eqb_trans _ _ _ E1 E2) in E0. discriminate.
Qed.

Lemma dict_lookup_app k (d1 d2 : dict) :
  dict_lookup k (d1 ++ d2)%list =
  match dict_lookup k d1 with Some v => Some v | None => dict_lookup k d2 end.
Proof.
  induction d1 as [|[k0 v0] d1 IH]; cbn; [reflexivity|].
  destruct (key_eqb k0 k); [reflexivity | exact IH].
Qed.

(** [d.update(src)]: the last binding of [k] in [src] wins over [d]. *)
Lemma dict_lookup_update k d src :
  dict_lookup k (dict_update d src) =
  match dict_lookup k (rev src) with Some v => Some v | None => dict_lookup k d end.
Proof.
  unfold dict_update. revert d.
  induction src as [|[k' v] src IH]; intros d; cbn [fold_left rev]; [reflexivity|].
  rewrite IH, dict_lookup_app, dict_lookup_set. cbn.
  destruct (dict_lookup k (rev src)); [reflexivity|].
  destruct (key_eqb k' k); reflexivity.
Qed.

(** ** C7 *)

(** C7 (as the code has it): [{**inputs, **variables}] raises when
    [state["inputs"]] is not a mapping, whatever the template; an
    invocation input named ["inputs"] puts such a value there, and the
    agent node substitutes its prompt outside its [try], so the run fails. *)
Lemma C7_counterexample :
  snd (@substitute_variables Demo.runtime [] [(VStr "inputs", VStr "x")] (VStr "{{a.b}}")) =
    Exc "'str' object is not a mapping" /\
  match @execute Demo.runtime "run" "t0" "t1" Examples.wf_agent [("inputs", JStr "x")] with
  | Ok w => status (w_result w) = FAILED /\
            errors (w_result w) = ["'str' object is not a mapping"] /\ w_log w = ["s"; "g"]
  | Exc _ => False
  end.
Proof. split; vm_compute; repeat split. Qed.

(** C7 (amended): when [state["inputs"]] and [state["variables"]] are
    dicts (or absent), substitution never raises on a string: each match of
    the placeholder pattern is replaced by [replace_var] over the merged
    dict, in which a key is looked up in [variables] first and in [inputs]
    next (the last binding of a key in each dict, its only one in a
    Python dict); a path that meets a non-dict value or a missing key
    renders as the empty string; and ["{{a.b}}"] renders as ["x"] against
    variables {a:{b:"x"}} and as [""] against {a:"x"}. *)
Theorem C7_substitution :
  (forall (rt : Runtime) h st s h1 vv h2 vi di dv,
     state_get_dict h st "variables" = (h1, vv) ->
     state_get_dict h1 st "inputs" = (h2, vi) ->
     as_dict h2 vi = Some di -> as_dict h2 vv = Some dv ->
     exists h3 l d,
       @substitute_variables rt h st (VStr s) = (h3, Ok (re_sub (@replace_var rt h3 (VRef l)) s)) /\
       deref h3 l = Some (ODict d) /\
       forall k, dict_lookup k d =
                 match dict_lookup k (rev dv) with
                 | Some v => Some v
                 | None => dict_lookup k (rev di)
                 end) /\
  (forall (rt : Runtime) h v p ps,
     (as_dict h v = None \/ exists d, as_dict h v = Some d /\ dict_lookup (VStr p) d = None) ->
     @py_str rt h (walk h v (p :: ps)) = "") /\
  (forall rt : Runtime,
     snd (@substitute_variables rt [ODict [(VStr "a", VRef 1)]; ODict [(VStr "b", VStr "x")]]
                                [(VStr "variables", VRef 0)] (VStr "{{a.b}}")) = Ok "x" /\
     snd (@substitute_variables rt [ODict [(VStr "a", VStr "x")]]
                                [(VStr "variables", VRef 0)] (VStr "{{a.b}}")) = Ok "").
Proof.
  split; [|split].
  - intros rt h st s h1 vv h2 vi di dv Hv Hi Hdi Hdv.
    unfold substitute_variables. rewrite Hv, Hi, Hdi, Hdv. cbn [alloc].
    do 3 eexists. split; [reflexivity|]. split; [apply deref_alloc|].
    intros k. rewrite !dict_lookup_update. cbn [dict_lookup].
    destruct (dict_lookup k (rev dv)); [reflexivity|].
    destruct (dict_lookup k (rev di)); reflexivity.
  - intros rt h v p ps [Hn | (d & Hd & Hl)]; cbn [walk].
    + rewrite Hn. reflexivity.
    + rewrite Hd. unfold dict_get. rewrite Hl. destruct ps; reflexivity.
  - intros rt. split; reflexivity.
Qed.

Lemma C7_witness :
  (exists h3 l d,
     @substitute_variables Demo.runtime [ODict [(VStr "a", VStr "i")]; ODict [(VStr "a", VStr "v")]]
       [(VStr "inputs", VRef 0); (VStr "variables", VRef 1)] (VStr "{{a}}") =
       (h3, Ok (re_sub (@replace_var Demo.runtime h3 (VRef l)) "{{a}}")) /\
     deref h3 l = Some (ODict d) /\
     forall k, dict_lookup k d =
               match dict_lookup k (rev [(VStr "a", VStr "v")]) with
               | Some v => Some v
               | None => dict_lookup k (rev [(VStr "a", VStr "i")])
               end) /\
  @py_str Demo.runtime [ODict [(VStr "a", VStr "x")]]
          (walk [ODict [(VStr "a", VStr "x")]] (VRef 0) ["b"; "c"]) = "".
Proof.
  split.
  - apply (proj1 C7_substitution Demo.runtime
             [ODict [(VStr "a", VStr "i")]; ODict [(VStr "a", VStr "v")]]
             [(VStr "inputs", VRef 0); (VStr "variables", VRef 1)] "{{a}}"
             [ODict [(VStr "a", VStr "i")]; ODict [(VStr "a", VStr "v")]] (VRef 1)
             [ODict [(VStr "a", VStr "i")]; ODict [(VStr "a", VStr "v")]] (VRef 0));
      reflexivity.
  - apply (proj1 (proj2 C7_substitution) Demo.runtime [ODict [(VStr "a", VStr "x")]]
             (VRef 0) "b" ["c"]).
    right. exists [(VStr "a", VStr "x")]. split; reflexivity.
Defined.

(** ** Operators in conditions *)

Lemma starts_with_app p s : starts_with p s = true -> exists r, s = (p ++ r)%string.
Proof.
  revert s. induction p as [|a p IH]; intros s H.
  - exists s. reflexivity.
  - destruct s as [|b s]; cbn in H; [discriminate H|].
    apply andb_prop in H. destruct H as [Hab Hp]. apply Ascii.eqb_eq in Hab. subst b.
    destruct (IH s Hp) as [r ->]. exists r. reflexivity.
Qed.

Lemma substring_0_all r m : (String.length r <= m)%nat -> substring 0 m r = r.
Proof.
  revert m. induction r as [|c r IH]; intros m Hm; destruct m as [|m]; cbn in *;
    try reflexivity; try lia.
  rewrite IH by lia. reflexivity.
Qed.

Lemma substring_app p r m :
  (String.length r <= m)%nat -> substring (String.length p) m (p ++ r) = r.
Proof.
  intros Hm. induction p as [|c p IH]; cbn.
  - apply substring_0_all. exact Hm.
  - exact IH.
Qed.

Lemma string_length_app p r : String.length (p ++ r) = (String.length p + String.length r)%nat.
Proof. induction p as [|c p IH]; cbn; [reflexivity | rewrite IH; reflexivity]. Qed.

Lemma starts_with_rest sep s :
  starts_with sep s = true -> s = (sep ++ substring (String.length sep) (String.length s) s)%string.
Proof.
  intros Hs. destruct (starts_with_app _ _ Hs) as [r Hr].
  rewrite Hr at 1. f_equal. rewrite Hr. symmetry.
  apply substring_app. rewrite string_length_app. lia.
Qed.

Lemma split_once_eq sep s :
  split_once sep s =
  if starts_with sep s then Some (EmptyString, substring (String.length sep) (String.length s) s)
  else match s with
       | EmptyString => None
       | String c s' =>
           match split_once sep s' with
           | Some (a, b) => Some (String c a, b)
           | None => None
           end
       end.
Proof. destruct s; reflexivity. Qed.

Lemma split_once_app sep s a b : split_once sep s = Some (a, b) -> s = (a ++ sep ++ b)%string.
Proof.
  revert a b. induction s as [|c s IH]; intros a b E; rewrite split_once_eq in E.
  - destruct (starts_with sep "") eqn:Hs; [|discriminate E].
    injection E as <- <-. exact (starts_with_rest _ _ Hs).
  - destruct (starts_with sep (String c s)) eqn:Hs.
    + injection E as <- <-. exact (starts_with_rest _ _ Hs).
    + destruct (split_once sep s) as [[a' b']|] eqn:E'; [|discriminate E].
      injection E as <- <-. cbn. f_equal. apply IH. reflexivity.
Qed.

Lemma split_once_none sep s : split_once sep s = None <-> py_contains s sep = false.
Proof.
  induction s as [|c s IH]; cbn.
  - destruct (starts_with sep ""); cbn; split; intros H; first [discriminate H | reflexivity].
  - destruct (starts_with sep (String c s)); cbn; [split; intros H; discriminate H|].
    destruct (split_once sep s) as [[a b]|]; split; intros H;
      first [discriminate H | reflexivity | apply IH; first [reflexivity | exact H] | idtac].
    apply IH in H. discriminate H.
Qed.

Lemma split_once_cases sep rc :
  (py_contains rc sep = false /\ split_once sep rc = None) \/
  (py_contains rc sep = true /\
   exists a b, split_once sep rc = Some (a, b) /\ rc = (a ++ sep ++ b)%string).
Proof.
  destruct (py_contains rc sep) eqn:C.
  - right. split; [reflexivity|].
    destruct (split_once sep rc) as [[a b]|] eqn:E.
    + exists a, b. split; [reflexivity | apply split_once_app; exact E].
    + apply split_once_none in E. congruence.
  - left. split; [reflexivity | apply split_once_none; exact C].
Qed.

(** ** Labels of a decision node *)

Lemma yn_bind {A} (m : M A) (k : A -> M (val * option string)) :
  (forall a, YesNo (k a)) -> YesNo (bind m k).
Proof.
  intros Hk w w' out lbl E. unfold bind in E.
  destruct (m w) as [w1 [a|e]]; [exact (Hk a _ _ _ _ E) | discriminate E].
Qed.

Lemma yn_ret out l : l = "yes" \/ l = "no" -> YesNo (ret (out, Some l)).
Proof. intros Hl w w' o lbl E. injection E as _ _ <-. destruct Hl as [-> | ->]; auto. Qed.

Ltac yn :=
  repeat match goal with
  | |- forall _, _ => intro
  | |- YesNo (bind _ _) => apply yn_bind
  | |- YesNo (let _ := _ in _) => cbv zeta
  | |- YesNo (if ?b then _ else _) => destruct b
  | |- YesNo (ret (_, Some (if ?b then _ else _))) => destruct b
  | |- YesNo (ret (_, Some _)) => apply yn_ret; auto
  end.

Section DecisionLabels.
Context `{Runtime}.

Lemma try_default (body : M (val * option string)) w :
  YesNo body ->
  exists w' out lbl,
    try_except body (fun e => out <- error_output e;; ret (out, Some "default")) w =
      (w', Ok (out, lbl)) /\
    (lbl = Some "yes" \/ lbl = Some "no" \/
     (lbl = Some "default" /\ exists l e, out = VRef l /\
        deref (w_heap w') l = Some (ODict [(VStr "error", VStr e)]))).
Proof.
  intros Hb. unfold try_except.
  destruct (body w) as [w1 [[out lbl]|e]] eqn:B.
  - exists w1, out, lbl. split; [reflexivity|].
    destruct (Hb _ _ _ _ B) as [-> | ->]; auto.
  - do 3 eexists. split; [reflexivity|]. right. right. split; [reflexivity|].
    do 2 eexists. split; [reflexivity|]. cbn. apply deref_alloc.
Qed.

(** A decision node never raises; it returns the label ["yes"] or
    ["no"], or the label ["default"] with a fresh dict [{"error": e}]. *)
Lemma decision_labels data w :
  exists w' out lbl,
    execute_decision_node data w = (w', Ok (out, lbl)) /\
    (lbl = Some "yes" \/ lbl = Some "no" \/
     (lbl = Some "default" /\ exists l e, out = VRef l /\
        deref (w_heap w') l = Some (ODict [(VStr "error", VStr e)]))).
Proof.
  unfold execute_decision_node.
  erewrite bind_ok by reflexivity. cbv beta.
  erewrite bind_ok by reflexivity. cbv beta.
  erewrite bind_ok by reflexivity. cbv beta.
  destruct (py_truthy _ _); apply try_default; yn.
Qed.

End DecisionLabels.

Ltac op_step rc H :=
  match type of H with
  | context [py_contains rc ?op] =>
      let Hc := fresh "Hc" in let Hn := fresh "Hn" in let a := fresh "a" in
      let b := fresh "b" in let Hs := fresh "Hs" in let He := fresh "He" in
      destruct (split_once_cases op rc) as [[Hc Hn]|[Hc (a & b & Hs & He)]];
      rewrite Hc in H; cbv iota beta in H;
      [ rewrite Hn; try discriminate H
      | try discriminate H; exists a, b; split; first [assumption | rewrite Hs; reflexivity] ]
  end.

Section ConditionErrors.
Context `{Runtime}.

(** A failed [float] conversion in a numeric comparison raises its
    error out of [evaluate_condition], leaving the world as it was. *)
Lemma float_failure_raises rc vars w d a b op e :
  spec_operator rc = Some op -> op = " > " \/ op = " < " ->
  split_once op rc = Some (a, b) ->
  as_dict (w_heap w) vars = Some d ->
  let lv := dict_get d (VStr (py_strip a)) (VStr (py_strip a)) in
  (py_float (w_heap w) lv = Exc e \/
   exists x, py_float (w_heap w) lv = Ok x /\ py_float (w_heap w) (VStr (py_strip b)) = Exc e) ->
  evaluate_condition rc vars w = (w, Exc e).
Proof.
  intros Hop Hgl Hs Hd lv Hf. unfold spec_operator in Hop. cbn [find spec_operators] in Hop.
  destruct (py_contains rc " == ") eqn:C1; [injection Hop as <-; destruct Hgl; discriminate|].
  destruct (py_contains rc " != ") eqn:C2; [injection Hop as <-; destruct Hgl; discriminate|].
  destruct (py_contains rc " in ") eqn:C3; [injection Hop as <-; destruct Hgl; discriminate|].
  unfold evaluate_condition.
  rewrite (proj2 (split_once_none _ _) C1), (proj2 (split_once_none _ _) C2),
    (proj2 (split_once_none _ _) C3).
  assert (Hm : method_get_default vars (VStr (py_strip a)) (VStr (py_strip a)) w = (w, Ok lv)).
  { unfold method_get_default, method_get, bind, get_heap, ret. rewrite Hd. reflexivity. }
  destruct (py_contains rc " > ") eqn:C4.
  - injection Hop as <-. rewrite Hs. rewrite (bind_ok _ _ _ _ _ Hm).
    unfold to_float, bind, get_heap, lift.
    destruct Hf as [Hf | (x & Hx & Hf)]; rewrite ?Hf, ?Hx; cbv beta iota delta [ret raise]; rewrite ?Hf; reflexivity.
  - rewrite (proj2 (split_once_none _ _) C4).
    destruct (py_contains rc " < ") eqn:C5; [|discriminate Hop].
    injection Hop as <-. rewrite Hs. rewrite (bind_ok _ _ _ _ _ Hm).
    unfold to_float, bind, get_heap, lift.
    destruct Hf as [Hf | (x & Hx & Hf)]; rewrite ?Hf, ?Hx; cbv beta iota delta [ret raise]; rewrite ?Hf; reflexivity.
Qed.

(** The syntactic branch of a decision node turns the outcome of the
    evaluation into its output: an exception into the label ["default"]
    with a new dict [{"error": str(e)}], a boolean into ["yes"] or
    ["no"] with [{"decision": label, "condition": resolved}]. *)
Lemma decision_routes data w cond u rc w1 vars w2 w3 r :
  data_get data "condition" (VStr "") w = (w, Ok cond) ->
  data_get data "use_llm" (VBool false) w = (w, Ok u) ->
  py_truthy (w_heap w) u = false ->
  subst cond w = (w1, Ok rc) ->
  state_get "variables" w1 = (w2, Ok vars) ->
  evaluate_condition rc vars w2 = (w3, r) ->
  execute_decision_node data w =
    match r with
    | Exc e =>
        (mkWorld (w_heap w3 ++ [ODict [(VStr "error", VStr e)]])%list (w_state w3) (w_result w3) (w_log w3),
         Ok (VRef (length (w_heap w3)), Some "default"))
    | Ok bb =>
        let lbl := if bb then "yes" else "no" in
        (mkWorld (w_heap w3 ++ [ODict [(VStr "decision", VStr lbl); (VStr "condition", VStr rc)]])%list
                 (w_state w3) (w_result w3) (w_log w3),
         Ok (VRef (length (w_heap w3)), Some lbl))
    end.
Proof.
  intros Hc Hu Ht Hs Hv He. unfold execute_decision_node.
  rewrite (bind_ok _ _ _ _ _ Hc), (bind_ok _ _ _ _ _ Hu).
  erewrite bind_ok by reflexivity. cbv beta. rewrite Ht.
  unfold try_except. rewrite (bind_ok _ _ _ _ _ Hs), (bind_ok _ _ _ _ _ Hv).
  destruct r as [bb|e].
  - rewrite (bind_ok _ _ _ _ _ He). cbv zeta. destruct w3. reflexivity.
  - rewrite (bind_exc _ _ _ _ _ He). destruct w3. reflexivity.
Qed.

End ConditionErrors.

(** ** C8 *)

(** C8: the syntactic evaluation of a (substituted) condition [rc] takes
    the branch of the first operator of the priority list == , != , in ,
    > , < (each with its surrounding blanks) that occurs in [rc], split at
    its first occurrence, and reads the variable [rc] for truthiness when
    none occurs; > and < convert both operands with [float].  A decision
    node never raises: a failure of its evaluation gives the label
    ["default"] and the output [{"error": str(e)}]; otherwise the label is
    ["yes"] or ["no"].  In particular a [float] conversion that fails in a
    > or < comparison (of the variable's value or of the right operand)
    raises its error out of the evaluation, and the node then returns the
    label ["default"] with [{"error": e}] holding that error; a boolean
    outcome gives ["yes"] or ["no"] with [{"decision": label, "condition":
    rc}].  With [variables = {"count": c}], ["count > 3"]
    gives ["yes"] for ["5"], ["no"] for ["2"] and ["default"] with the
    error of [float("abc")] for ["abc"]. *)
Theorem C8_condition_evaluation :
  (forall (rt : Runtime) rc vars, spec_operator rc = None ->
     @evaluate_condition rt rc vars =
       (v <- method_get_default vars (VStr rc) (VBool false);;
        h <- get_heap;; ret (py_truthy h v))) /\
  (forall (rt : Runtime) rc vars, spec_operator rc = Some " == " ->
     exists a b, rc = (a ++ " == " ++ b)%string /\
       @evaluate_condition rt rc vars =
         (lv <- method_get_default vars (VStr (py_strip a)) (VStr (py_strip a));;
          h <- get_heap;; ret (String.eqb (py_str h lv) (py_strip_quotes (py_strip b))))) /\
  (forall (rt : Runtime) rc vars, spec_operator rc = Some " != " ->
     exists a b, rc = (a ++ " != " ++ b)%string /\
       @evaluate_condition rt rc vars =
         (lv <- method_get_default vars (VStr (py_strip a)) (VStr (py_strip a));;
          h <- get_heap;; ret (negb (String.eqb (py_str h lv) (py_strip_quotes (py_strip b)))))) /\
  (forall (rt : Runtime) rc vars, spec_operator rc = Some " in " ->
     exists a b, rc = (a ++ " in " ++ b)%string /\
       @evaluate_condition rt rc vars =
         (vv <- method_get_default vars (VStr (py_strip b)) (VStr (py_strip b));;
          h <- get_heap;; ret (py_contains (py_str h vv) (py_strip_quotes (py_strip a))))) /\
  (forall (rt : Runtime) rc vars, spec_operator rc = Some " > " ->
     exists a b, rc = (a ++ " > " ++ b)%string /\
       @evaluate_condition rt rc vars =
         (lv <- method_get_default vars (VStr (py_strip a)) (VStr (py_strip a));;
          left <- to_float lv;; right <- to_float (VStr (py_strip b));;
          ret (float_lt right left))) /\
  (forall (rt : Runtime) rc vars, spec_operator rc = Some " < " ->
     exists a b, rc = (a ++ " < " ++ b)%string /\
       @evaluate_condition rt rc vars =
         (lv <- method_get_default vars (VStr (py_strip a)) (VStr (py_strip a));;
          left <- to_float lv;; right <- to_float (VStr (py_strip b));;
          ret (float_lt left right))) /\
  (forall (rt : Runtime) data w,
     exists w' out lbl,
       @execute_decision_node rt data w = (w', Ok (out, lbl)) /\
       (lbl = Some "yes" \/ lbl = Some "no" \/
        (lbl = Some "default" /\ exists l e, out = VRef l /\
           deref (w_heap w') l = Some (ODict [(VStr "error", VStr e)])))) /\
  (forall (rt : Runtime) rc vars w d a b op e,
     spec_operator rc = Some op -> op = " > " \/ op = " < " ->
     split_once op rc = Some (a, b) ->
     as_dict (w_heap w) vars = Some d ->
     let lv := dict_get d (VStr (py_strip a)) (VStr (py_strip a)) in
     (@py_float rt (w_heap w) lv = Exc e \/
      exists x, @py_float rt (w_heap w) lv = Ok x /\
                @py_float rt (w_heap w) (VStr (py_strip b)) = Exc e) ->
     @evaluate_condition rt rc vars w = (w, Exc e)) /\
  (forall (rt : Runtime) data w cond u rc w1 vars w2 w3 r,
     data_get data "condition" (VStr "") w = (w, Ok cond) ->
     data_get data "use_llm" (VBool false) w = (w, Ok u) ->
     py_truthy (w_heap w) u = false ->
     @subst rt cond w = (w1, Ok rc) ->
     state_get "variables" w1 = (w2, Ok vars) ->
     @evaluate_condition rt rc vars w2 = (w3, r) ->
     @execute_decision_node rt data w =
       match r with
       | Exc e =>
           (mkWorld (w_heap w3 ++ [ODict [(VStr "error", VStr e)]])%list
                    (w_state w3) (w_result w3) (w_log w3),
            Ok (VRef (length (w_heap w3)), Some "default"))
       | Ok bb =>
           let lbl := if bb then "yes" else "no" in
           (mkWorld (w_heap w3 ++ [ODict [(VStr "decision", VStr lbl);
                                          (VStr "condition", VStr rc)]])%list
                    (w_state w3) (w_result w3) (w_log w3),
            Ok (VRef (length (w_heap w3)), Some lbl))
       end) /\
  match @execute_decision_node Demo.runtime (VRef 0) (Examples.cond_world "5") with
  | (_, Ok (_, lbl)) => lbl = Some "yes"
  | _ => False
  end /\
  match @execute_decision_node Demo.runtime (VRef 0) (Examples.cond_world "2") with
  | (_, Ok (_, lbl)) => lbl = Some "no"
  | _ => False
  end /\
  match @execute_decision_node Demo.runtime (VRef 0) (Examples.cond_world "abc") with
  | (w', Ok (VRef l, lbl)) =>
      lbl = Some "default" /\
      deref (w_heap w') l =
        Some (ODict [(VStr "error", VStr "could not convert string to float: 'abc'")])
  | _ => False
  end.
Proof.
  split; [|split; [|split; [|split; [|split; [|split; [|split]]]]]];
    try (intros rt rc vars H; unfold spec_operator in H; cbn [find spec_operators] in H;
         unfold evaluate_condition; repeat op_step rc H; reflexivity).
  - intros rt data w. apply decision_labels.
  - split; [|split; [|split; [|split]]].
    + intros rt. exact float_failure_raises.
    + intros rt. exact decision_routes.
    + vm_compute. reflexivity.
    + vm_compute. reflexivity.
    + vm_compute. split; reflexivity.
Qed.

Lemma C8_witness :
  @evaluate_condition Demo.runtime "flag" (VRef 1) =
    (v <- method_get_default (VRef 1) (VStr "flag") (VBool false);;
     h <- get_heap;; ret (py_truthy h v)) /\
  (exists a b, "x == 1" = (a ++ " == " ++ b)%string) /\
  (exists a b, "x != 1" = (a ++ " != " ++ b)%string) /\
  (exists a b, "'a' in x" = (a ++ " in " ++ b)%string) /\
  (exists a b, "count > 3" = (a ++ " > " ++ b)%string /\
     @evaluate_condition Demo.runtime "count > 3" (VRef 1) =
       (lv <- method_get_default (VRef 1) (VStr (py_strip a)) (VStr (py_strip a));;
        left <- @to_float Demo.runtime lv;; right <- @to_float Demo.runtime (VStr (py_strip b));;
        ret (@float_lt Demo.runtime right left))) /\
  (exists a b, "count < 3" = (a ++ " < " ++ b)%string) /\
  @evaluate_condition Demo.runtime "count > 3" (VRef 1) (Examples.cond_world "abc") =
    (Examples.cond_world "abc", Exc "could not convert string to float: 'abc'") /\
  (exists w1 w2 w3 r,
     @subst Demo.runtime (VStr "count > 3") (Examples.cond_world "abc") = (w1, Ok "count > 3") /\
     state_get "variables" w1 = (w2, Ok (VRef 1)) /\
     @evaluate_condition Demo.runtime "count > 3" (VRef 1) w2 = (w3, r) /\
     @execute_decision_node Demo.runtime (VRef 0) (Examples.cond_world "abc") =
       match r with
       | Exc e =>
           (mkWorld (w_heap w3 ++ [ODict [(VStr "error", VStr e)]])%list
                    (w_state w3) (w_result w3) (w_log w3),
            Ok (VRef (length (w_heap w3)), Some "default"))
       | Ok bb =>
           let lbl := if bb then "yes" else "no" in
           (mkWorld (w_heap w3 ++ [ODict [(VStr "decision", VStr lbl);
                                          (VStr "condition", VStr "count > 3")]])%list
                    (w_state w3) (w_result w3) (w_log w3),
            Ok (VRef (length (w_heap w3)), Some lbl))
       end).
Proof.
  destruct C8_condition_evaluation as (P0 & P1 & P2 & P3 & P4 & P5 & _ & P7 & P8 & _).
  split; [apply (P0 Demo.runtime "flag" (VRef 1)); reflexivity|].
  split; [destruct (P1 Demo.runtime "x == 1" (VRef 1)) as (a & b & E & _);
            [reflexivity | exists a, b; exact E]|].
  split; [destruct (P2 Demo.runtime "x != 1" (VRef 1)) as (a & b & E & _);
            [reflexivity | exists a, b; exact E]|].
  split; [destruct (P3 Demo.runtime "'a' in x" (VRef 1)) as (a & b & E & _);
            [reflexivity | exists a, b; exact E]|].
  split; [apply (P4 Demo.runtime "count > 3" (VRef 1)); reflexivity|].
  split; [destruct (P5 Demo.runtime "count < 3" (VRef 1)) as (a & b & E & _);
            [reflexivity | exists a, b; exact E]|].
  split.
  - apply (P7 Demo.runtime "count > 3" (VRef 1) (Examples.cond_world "abc")
             [(VStr "count", VStr "abc")] "count" "3" " > ");
      [reflexivity | left; reflexivity | reflexivity | reflexivity | left; reflexivity].
  - do 4 eexists. split; [reflexivity|]. split; [reflexivity|]. split; [reflexivity|].
    eapply (P8 Demo.runtime (VRef 0) (Examples.cond_world "abc") (VStr "count > 3") (VBool false));
      reflexivity.
Defined.

(** ** The state seen by the loop *)

Section InitialState.
Context `{Runtime}.

(** The state the loop starts from: [{"inputs": inputs, "messages": [],
    "variables": {}, **inputs}]. *)
Lemma run_body_initial rnodes edges iv w sn d :
  find_start_node (build_nodes rnodes) = Some sn -> as_dict (w_heap w) iv = Some d ->
  exists w' msgs vars,
    run_body rnodes edges iv w =
      run_loop max_iterations (build_nodes rnodes) (build_edges_from edges)
               (mkLoop (Some (rn_id sn)) [] 0) w' /\
    forall k, dict_lookup k (w_state w') =
              match dict_lookup k (rev d) with
              | Some v => Some v
              | None => dict_lookup k [(VStr "inputs", iv); (VStr "messages", msgs);
                                       (VStr "variables", vars)]
              end.
Proof.
  intros Hs Hd. unfold run_body. cbv zeta. rewrite Hs.
  generalize (run_loop max_iterations (build_nodes rnodes) (build_edges_from edges)
                       (mkLoop (Some (rn_id sn)) [] 0)).
  intros loop.
  set (h2 := ((w_heap w ++ [OList []]) ++ [ODict []])%list).
  assert (Hd2 : as_dict h2 iv = Some d).
  { destruct iv as [| | | |l]; try discriminate Hd. cbn in Hd |- *.
    destruct (deref (w_heap w) l) as [o|] eqn:E; [|discriminate Hd].
    rewrite (deref_heap_ext (w_heap w) h2 l o); [exact Hd| |exact E].
    exists [OList []; ODict []]. unfold h2. rewrite <- app_assoc. reflexivity. }
  exists (mkWorld h2
            (dict_update [(VStr "inputs", iv); (VStr "messages", VRef (length (w_heap w)));
                          (VStr "variables", VRef (length (w_heap w ++ [OList []])%list))] d)
            (w_result w) (w_log w)),
         (VRef (length (w_heap w))), (VRef (length (w_heap w ++ [OList []])%list)).
  split.
  - unfold bind, new_dict, new_obj, get_heap, put_heap, put_state, ret, alloc. cbn.
    fold h2. rewrite Hd2. reflexivity.
  - intros k. cbn [w_state]. rewrite dict_lookup_update. reflexivity.
Qed.

End InitialState.

(** ** C10 *)

(** C10: a dict output is merged into [state["variables"]] and into the
    top level of the state, so that a key of the output (["inputs"],
    ["variables"] and ["messages"] included) replaces the state field of
    that name; and the invocation inputs are spread over the initial
    state, so that an input key of one of those names shadows the field
    from the start.  Both change what later nodes observe: an input
    ["inputs"] = {"name": "Bob"} makes ["hello {{name}}"] render as
    ["hello Bob"] although the input ["name"] is ["Ada"], and an output
    ["variables"] = ["x"] makes the merge of the next dict output raise. *)
Theorem C10_state_shadowing :
  (forall w lo d_out l dv,
     deref (w_heap w) lo = Some (ODict d_out) ->
     dict_lookup (VStr "variables") (w_state w) = Some (VRef l) ->
     deref (w_heap w) l = Some (ODict dv) -> l <> lo ->
     exists w', merge_output (VRef lo) w = (w', Ok tt) /\
       deref (w_heap w') l = Some (ODict (dict_update dv d_out)) /\
       forall k, dict_lookup k (w_state w') =
                 match dict_lookup k (rev d_out) with
                 | Some v => Some v
                 | None => dict_lookup k (w_state w)
                 end) /\
  (forall (rt : Runtime) rnodes edges iv w sn d,
     find_start_node (build_nodes rnodes) = Some sn -> as_dict (w_heap w) iv = Some d ->
     exists w' msgs vars,
       @run_body rt rnodes edges iv w =
         @run_loop rt max_iterations (build_nodes rnodes) (build_edges_from edges)
                   (mkLoop (Some (rn_id sn)) [] 0) w' /\
       forall k, dict_lookup k (w_state w') =
                 match dict_lookup k (rev d) with
                 | Some v => Some v
                 | None => dict_lookup k [(VStr "inputs", iv); (VStr "messages", msgs);
                                          (VStr "variables", vars)]
                 end) /\
  match @execute Demo.runtime "run" "t0" "t1" Examples.wf_noend
          [("name", JStr "Ada"); ("inputs", JDict [("name", JStr "Bob")])] with
  | Ok w => status (w_result w) = COMPLETED /\
            dict_lookup (VStr "greeting") (w_state w) = Some (VStr "hello Bob")
  | Exc _ => False
  end /\
  match @execute Demo.runtime "run" "t0" "t1" Examples.wf_shadow [] with
  | Ok w => status (w_result w) = FAILED /\
            errors (w_result w) = ["'str' object has no attribute 'update'"] /\
            w_log w = ["s"; "t1"; "t2"]
  | Exc _ => False
  end.
Proof.
  split; [|split; [|split]].
  - intros w lo d_out l dv Hlo Hst Hl Hne.
    eexists. split; [exact (merge_output_ref w lo d_out l dv Hlo Hst Hl Hne)|].
    split.
    + cbn [w_heap]. eapply deref_heap_set_same. exact Hl.
    + intros k. cbn [w_state]. apply dict_lookup_update.
  - intros rt rnodes edges iv w sn d Hs Hd. exact (run_body_initial rnodes edges iv w sn d Hs Hd).
  - vm_compute. split; reflexivity.
  - vm_compute. repeat split.
Qed.

Lemma C10_witness :
  (exists w', merge_output (VRef 1) Examples.merge_world = (w', Ok tt) /\
     deref (w_heap w') 0 =
       Some (ODict (dict_update [(VStr "count", VStr "5")] [(VStr "inputs", VStr "p")])) /\
     forall k, dict_lookup k (w_state w') =
               match dict_lookup k (rev [(VStr "inputs", VStr "p")]) with
               | Some v => Some v
               | None => dict_lookup k (w_state Examples.merge_world)
               end) /\
  (exists w' msgs vars,
     @run_body Demo.runtime [mkRNode "s" "start" (VRef 0)] [] (VRef 1) Examples.merge_world =
       @run_loop Demo.runtime max_iterations (build_nodes [mkRNode "s" "start" (VRef 0)])
                 (build_edges_from []) (mkLoop (Some "s") [] 0) w' /\
     forall k, dict_lookup k (w_state w') =
               match dict_lookup k (rev [(VStr "inputs", VStr "p")]) with
               | Some v => Some v
               | None => dict_lookup k [(VStr "inputs", VRef 1); (VStr "messages", msgs);
                                        (VStr "variables", vars)]
               end).
Proof.
  split.
  - apply (proj1 C10_state_shadowing Examples.merge_world 1 [(VStr "inputs", VStr "p")] 0
             [(VStr "count", VStr "5")]); [reflexivity | reflexivity | reflexivity | discriminate].
  - apply (proj1 (proj2 C10_state_shadowing) Demo.runtime [mkRNode "s" "start" (VRef 0)] []
             (VRef 1) Examples.merge_world (mkRNode "s" "start" (VRef 0))
             [(VStr "inputs", VStr "p")]); reflexivity.
Defined.

(* ================================================================== *)
(** * Further properties of the engine, the storage and the endpoints *)

(** ** Node and edge tables *)

(** X1: in [nodes = {node.id: node for node in workflow.nodes}] a later
    node with the same id replaces an earlier one: looking an id up gives
    the last node declared with it. *)
Theorem nodes_table_last_wins : forall ns k,
  smap_get k (build_nodes ns) = find (fun n => String.eqb (rn_id n) k) (rev ns).
Proof.
  intros ns k. unfold build_nodes. rewrite build_nodes_fold_get.
  destruct (find _ (rev ns)); reflexivity.
Qed.

(** X2: [_find_start_node] returns a node of type start that is the
    table's node for its id, so the last node declared with that id (a
    start node followed by a node of the same id and another type is not
    found); with distinct node ids it returns the first start node in
    declaration order. *)
Theorem start_node_lookup :
  (forall ns n, find_start_node (build_nodes ns) = Some n ->
     rn_type n = "start" /\ In n ns /\
     find (fun m => String.eqb (rn_id m) (rn_id n)) (rev ns) = Some n) /\
  (forall ns, NoDup (map rn_id ns) ->
     find_start_node (build_nodes ns) = find (fun n => String.eqb (rn_type n) "start") ns).
Proof.
  split.
  - intros ns n E. unfold find_start_node in E.
    destruct (find _ (build_nodes ns)) as [[k n']|] eqn:F; [|discriminate E].
    injection E as <-. apply find_some in F as [Hin Ht]. apply String.eqb_eq in Ht.
    destruct (build_nodes_wf ns) as [Hnd Hk].
    pose proof (Hk _ _ Hin) as ->.
    pose proof (smap_get_nodup_in _ _ _ Hnd Hin) as G.
    rewrite build_nodes_get in G.
    split; [exact Ht|]. split; [|exact G].
    apply find_some in G as [G _]. apply in_rev. exact G.
  - intros ns Hd. unfold find_start_node, build_nodes.
    rewrite build_nodes_distinct by (exact Hd || (intros n _ []) ).
    cbn [app]. induction ns as [|n ns IH]; simpl; [reflexivity|].
    destruct (String.eqb (rn_type n) "start"); [reflexivity|].
    inversion Hd; subst. apply IH. assumption.
Qed.

Lemma start_node_lookup_witness :
  NoDup (map rn_id [mkRNode "s" "start" (VRef 0); mkRNode "t" "transform" (VRef 1)]) /\
  find_start_node (build_nodes [mkRNode "s" "start" (VRef 0); mkRNode "t" "transform" (VRef 1)]) =
  find (fun n => String.eqb (rn_type n) "start")
       [mkRNode "s" "start" (VRef 0); mkRNode "t" "transform" (VRef 1)].
Proof.
  assert (Hd : NoDup (map rn_id [mkRNode "s" "start" (VRef 0); mkRNode "t" "transform" (VRef 1)])).
  { cbn. constructor; [intros [E|[]]; discriminate E|]. constructor; [intros []|constructor]. }
  split; [exact Hd|]. exact (proj2 start_node_lookup _ Hd).
Defined.

(** X3: [_find_next_node] only ever returns the target of an edge whose
    source is the current node, and returns nothing exactly when the
    current node has no outgoing edge. *)
Theorem next_node_is_successor :
  (forall cid es lbl t, find_next_node cid (build_edges_from es) lbl = Some t ->
     exists e, In e es /\ source e = cid /\ target e = t) /\
  (forall cid es lbl, find_next_node cid (build_edges_from es) lbl = None <-> outgoing cid es = []).
Proof.
  assert (Hout : forall cid es e, In e (outgoing cid es) -> In e es /\ source e = cid).
  { intros cid es e Hin. unfold outgoing in Hin. apply filter_In in Hin as [Hin Hs].
    apply String.eqb_eq in Hs. auto. }
  split.
  - intros cid es lbl t E. unfold find_next_node in E. rewrite build_edges_from_get in E.
    pose proof (Hout cid es) as Ho. revert Ho E.
    destruct (outgoing cid es) as [|e0 rest]; intros Ho E; [discriminate E|].
    assert (Hf : forall f e, find f (e0 :: rest) = Some e -> In e (e0 :: rest)).
    { intros f e F. apply find_some in F. apply F. }
    destruct lbl as [l|]; [destruct (String.eqb l "")|].
    + injection E as <-. exists e0. destruct (Ho e0 (or_introl eq_refl)). auto.
    + destruct (find (label_matches (py_lower l)) _) as [e|] eqn:F1.
      * injection E as <-. exists e. destruct (Ho e (Hf _ _ F1)). auto.
      * destruct (find (label_matches "default") _) as [e|] eqn:F2; cbn [option_map] in E;
          injection E as <-.
        -- exists e. destruct (Ho e (Hf _ _ F2)). auto.
        -- exists e0. destruct (Ho e0 (or_introl eq_refl)). auto.
    + injection E as <-. exists e0. destruct (Ho e0 (or_introl eq_refl)). auto.
  - intros cid es lbl. unfold find_next_node. rewrite build_edges_from_get.
    destruct (outgoing cid es) as [|e0 rest]; [split; reflexivity|].
    split; [|discriminate].
    destruct (match lbl with Some _ => _ | None => None end) as [t|]; discriminate.
Qed.

Lemma next_node_is_successor_witness :
  find_next_node "n" (build_edges_from Examples.edges_default) (Some "X") = Some "A" /\
  exists e, In e Examples.edges_default /\ source e = "n" /\ target e = "A".
Proof.
  split; [reflexivity|].
  exact (proj1 next_node_is_successor "n" Examples.edges_default (Some "X") "A" eq_refl).
Defined.

Lemma py_lower_char_idem c : py_lower_char (py_lower_char c) = py_lower_char c.
Proof. destruct c as [[] [] [] [] [] [] [] []]; reflexivity. Qed.

Lemma py_lower_idem s : py_lower (py_lower s) = py_lower s.
Proof. induction s as [|c s IH]; simpl; [reflexivity|]. rewrite py_lower_char_idem, IH. reflexivity. Qed.

(** X4: branch labels are compared case-insensitively ([label.lower()]),
    so a label and its lower-case form select the same edge; and an empty
    label, being falsy, selects as no label does. *)
Theorem next_node_label_normalised : forall cid ef l,
  find_next_node cid ef (Some l) = find_next_node cid ef (Some (py_lower l)) /\
  find_next_node cid ef (Some "") = find_next_node cid ef None.
Proof.
  intros cid ef l. unfold find_next_node.
  destruct (match smap_get cid ef with Some es => es | None => [] end) as [|e0 rest];
    [split; reflexivity|].
  split; [|reflexivity].
  destruct l as [|c s]; [reflexivity|]. cbn [py_lower String.eqb].
  rewrite py_lower_char_idem, py_lower_idem. reflexivity.
Qed.

(** ** The scan of [re.sub] in [_substitute_variables] *)

Lemma take_run_length s a b : take_run s = (a, b) -> String.length a + String.length b = String.length s.
Proof.
  revert a b. induction s as [|c s IH]; intros a b E; simpl in E.
  - injection E as <- <-. reflexivity.
  - destruct (Ascii.eqb c "}"); [injection E as <- <-; reflexivity|].
    destruct (take_run s) as [a' b']. injection E as <- <-. simpl. rewrite <- (IH a' b' eq_refl). lia.
Qed.

Lemma match_at_inv s m r : match_at s = Some (m, r) ->
  (exists s', s = String "{" (String "{" s')) /\ String.length r < String.length s.
Proof.
  intros E. unfold match_at in E.
  destruct s as [|c1 [|c2 s']]; [discriminate E| |].
  - destruct c1 as [[] [] [] [] [] [] [] []]; discriminate E.
  - pose proof (take_run_length s') as T. destruct (take_run s') as [run rest].
    specialize (T run rest eq_refl).
    destruct c1 as [[] [] [] [] [] [] [] []]; try discriminate E;
    destruct c2 as [[] [] [] [] [] [] [] []]; try discriminate E;
    destruct run as [|x run']; try discriminate E;
    destruct rest as [|c3 [|c4 r']]; try discriminate E;
    [destruct c3 as [[] [] [] [] [] [] [] []]; discriminate E|];
    destruct c3 as [[] [] [] [] [] [] [] []]; try discriminate E;
    destruct c4 as [[] [] [] [] [] [] [] []]; try discriminate E.
    injection E as <- <-. split; [eexists; reflexivity|]. simpl in *. lia.
Qed.

Lemma sub_scan_fuel repl : forall f1 f2 s,
  String.length s <= f1 -> String.length s <= f2 -> sub_scan f1 repl s = sub_scan f2 repl s.
Proof.
  induction f1 as [|f1 IH]; intros f2 s H1 H2.
  - destruct s; [destruct f2; reflexivity | simpl in H1; lia].
  - destruct f2 as [|f2]; [destruct s; [reflexivity | simpl in H2; lia]|].
    destruct s as [|c s']; [reflexivity|]. cbn [sub_scan].
    destruct (match_at (String c s')) as [[m r]|] eqn:E.
    + apply match_at_inv in E as [_ E]. f_equal. apply IH; simpl in *; lia.
    + f_equal. apply IH; simpl in *; lia.
Qed.

Lemma sub_scan_plain repl : forall f s, py_contains s "{{" = false -> sub_scan f repl s = s.
Proof.
  induction f as [|f IH]; intros s Hs; [reflexivity|].
  destruct s as [|c s']; [reflexivity|]. cbn [sub_scan].
  destruct (match_at (String c s')) as [[m r]|] eqn:E.
  - apply match_at_inv in E as [[s'' Es] _]. rewrite Es in Hs. discriminate Hs.
  - cbn [py_contains] in Hs. apply orb_false_iff in Hs as [_ Hs]. rewrite IH by exact Hs. reflexivity.
Qed.

Lemma sub_scan_prefix repl : forall p t f,
  py_contains (p ++ "{") "{{" = false -> (exists t', t = String "{" t') ->
  sub_scan (String.length p + f) repl (p ++ t) = (p ++ sub_scan f repl t)%string.
Proof.
  induction p as [|c p IH]; intros t f Hp Ht; [reflexivity|].
  cbn [String.length Nat.add append sub_scan].
  destruct (match_at (String c (p ++ t))) as [[m r]|] eqn:E.
  - exfalso. apply match_at_inv in E as [[s' Es] _]. injection Es as -> Es.
    destruct p as [|c' p'].
    + cbn in Hp. discriminate Hp.
    + injection Es as -> _. cbn in Hp. discriminate Hp.
  - f_equal. apply IH; [|exact Ht]. cbn [append py_contains] in Hp.
    apply orb_false_iff in Hp. exact (proj2 Hp).
Qed.

Lemma take_run_no_close m x :
  py_contains m "}" = false -> take_run (m ++ String "}" x) = (m, String "}" x).
Proof.
  induction m as [|c m IH]; intros H; [reflexivity|].
  cbn [py_contains starts_with] in H. apply orb_false_iff in H as [H1 H2].
  rewrite andb_true_r in H1. cbn [append take_run].
  rewrite Ascii.eqb_sym, H1, IH by exact H2. reflexivity.
Qed.

Lemma match_at_placeholder m rest :
  m <> "" -> py_contains m "}" = false ->
  match_at (String "{" (String "{" (m ++ "}}" ++ rest))) = Some (m, rest).
Proof.
  intros Hm Hc. change ("}}" ++ rest)%string with (String "}" (String "}" rest)).
  cbn [match_at]. rewrite take_run_no_close by exact Hc.
  destruct m as [|c m']; [congruence|]. reflexivity.
Qed.

Lemma sub_scan_match repl f s m r :
  match_at s = Some (m, r) -> sub_scan (S f) repl s = (repl m ++ sub_scan f repl r)%string.
Proof.
  intros E. destruct s as [|c s']; [discriminate E|]. cbn [sub_scan]. rewrite E. reflexivity.
Qed.

(** X5: a text without ["{{"] comes out of [re.sub] unchanged, and
    [_substitute_variables] returns it as it is whenever the state's
    [inputs] and [variables] are dicts. *)
Theorem substitution_plain_text :
  (forall repl s, py_contains s "{{" = false -> re_sub repl s = s) /\
  (forall (rt : Runtime) h st s h1 vv h2 vi di dv,
     state_get_dict h st "variables" = (h1, vv) ->
     state_get_dict h1 st "inputs" = (h2, vi) ->
     as_dict h2 vi = Some di -> as_dict h2 vv = Some dv ->
     py_contains s "{{" = false ->
     snd (@substitute_variables rt h st (VStr s)) = Ok s).
Proof.
  split.
  - intros repl s Hs. apply sub_scan_plain. exact Hs.
  - intros rt h st s h1 vv h2 vi di dv Hv Hi Hdi Hdv Hs.
    unfold substitute_variables. rewrite Hv, Hi, Hdi, Hdv. cbn [alloc snd].
    unfold re_sub. rewrite sub_scan_plain by exact Hs. reflexivity.
Qed.

Lemma substitution_plain_text_witness :
  py_contains "hello" "{{" = false /\
  snd (@substitute_variables Demo.runtime [ODict []] [(VStr "variables", VRef 0)] (VStr "hello")) =
    Ok "hello".
Proof.
  split; [reflexivity|].
  exact (proj2 substitution_plain_text Demo.runtime [ODict []] [(VStr "variables", VRef 0)] "hello"
           [ODict []] (VRef 0) [ODict []; ODict []] (VRef 1) [] [] eq_refl eq_refl eq_refl eq_refl
           eq_refl).
Defined.

(** X6: [re.sub] replaces placeholders from left to right, one at a time:
    the text before the first ["{{"] is kept, a placeholder
    ["{{" m "}}"] (m non-empty, without a closing brace) becomes
    [replace_var(m)], and the scan resumes after it, so an inserted value
    is never scanned again. *)
Theorem placeholder_expansion : forall repl p m rest,
  py_contains (p ++ "{") "{{" = false -> m <> "" -> py_contains m "}" = false ->
  re_sub repl (p ++ "{{" ++ m ++ "}}" ++ rest) = (p ++ repl m ++ re_sub repl rest)%string.
Proof.
  intros repl p m rest Hp Hm Hc. unfold re_sub.
  rewrite string_length_app.
  rewrite sub_scan_prefix; [|exact Hp | eexists; reflexivity].
  f_equal. cbn [String.length append].
  rewrite (sub_scan_match _ _ _ m rest) by (apply match_at_placeholder; assumption).
  f_equal. apply sub_scan_fuel; [rewrite !string_length_app; cbn; lia | lia].
Qed.

Lemma placeholder_expansion_witness :
  re_sub (fun m => "<" ++ m ++ ">") ("a " ++ "{{" ++ "x" ++ "}}" ++ " b") =
    ("a " ++ (fun m => "<" ++ m ++ ">") "x" ++ re_sub (fun m => "<" ++ m ++ ">") " b")%string.
Proof.
  apply placeholder_expansion; [reflexivity | discriminate | reflexivity].
Defined.

(** ** The registry of runs *)

Lemma smap_get_none_notin {A} k (m : smap A) : smap_get k m = None -> ~ In k (map fst m).
Proof.
  induction m as [|[k' a'] m IH]; simpl; [intros _ []|].
  destruct (String.eqb_spec k' k) as [->|Hne]; [discriminate|].
  intros E [E'|E']; [congruence | exact (IH E E')].
Qed.

(** X7: once [execute] returns a record, [get_execution] on its execution
    id gives that final record and every other id is left as it was; with
    a fresh execution id, [list_executions] lists the earlier records
    followed by the new one when it passes the filter (an empty or absent
    workflow id lists every record). *)
Theorem registry_after_run :
  forall (rt : Runtime) ex exec_id started finished wf inputs ex' w,
    @engine_execute rt ex exec_id started finished wf inputs = (ex', Ok w) ->
    get_execution ex' exec_id = Some (w_result w) /\
    (forall i, i <> exec_id -> get_execution ex' i = get_execution ex i) /\
    (get_execution ex exec_id = None ->
     forall f, list_executions ex' f =
               (list_executions ex f ++ list_executions [(exec_id, w_result w)] f)%list).
Proof.
  intros rt ex exec_id started finished wf inputs ex' w E. unfold engine_execute in E.
  destruct (execute exec_id started finished wf inputs) as [w0|e]; [|discriminate E].
  injection E as <- <-. split; [|split].
  - unfold get_execution. rewrite smap_get_set, String.eqb_refl. reflexivity.
  - intros i Hi. unfold get_execution. rewrite smap_get_set.
    destruct (String.eqb_spec exec_id i); [congruence | reflexivity].
  - intros Hn f. unfold get_execution in Hn.
    rewrite smap_set_new by (apply smap_get_none_notin; exact Hn).
    unfold list_executions. rewrite map_app.
    destruct f as [i|]; [destruct (String.eqb i ""); [reflexivity | apply filter_app] | reflexivity].
Qed.

Lemma registry_after_run_witness :
  match @engine_execute Demo.runtime [] "run" "t0" "t1" Examples.wf_se [] with
  | (ex', Ok w) =>
      get_execution ex' "run" = Some (w_result w) /\
      (forall i, i <> "run" -> get_execution ex' i = get_execution [] i) /\
      (get_execution [] "run" = None ->
       forall f, list_executions ex' f =
                 (list_executions [] f ++ list_executions [("run", w_result w)] f)%list)
  | _ => False
  end.
Proof.
  destruct (@engine_execute Demo.runtime [] "run" "t0" "t1" Examples.wf_se []) as [ex' [w|e]] eqn:E.
  - exact (registry_after_run Demo.runtime [] "run" "t0" "t1" Examples.wf_se [] ex' w E).
  - vm_compute in E. discriminate E.
Defined.

(** ** Storage *)

Lemma smap_set_in_self {A} k (a : A) m : In (k, a) (smap_set k a m).
Proof.
  induction m as [|[k' a'] m IH]; simpl; [auto|].
  destruct (String.eqb_spec k' k) as [->|]; simpl; auto.
Qed.


Lemma ends_with_app s suf : ends_with suf (s ++ suf) = true.
Proof.
  induction s as [|c s IH]; simpl.
  - destruct suf; simpl; [reflexivity|]. rewrite Ascii.eqb_refl, ?String.eqb_refl. reflexivity.
  - rewrite IH, orb_true_r. reflexivity.
Qed.

Lemma py_contains_app_char a b c :
  py_contains (a ++ b) (String c "") = py_contains a (String c "") || py_contains b (String c "").
Proof.
  induction a as [|x a IH]; simpl; [reflexivity|].
  rewrite IH, orb_assoc. reflexivity.
Qed.

Lemma globbed_path id : py_contains id "/" = false -> globbed (workflow_path id) = true.
Proof.
  intros H. unfold globbed, workflow_path.
  rewrite py_contains_app_char, H, ends_with_app. reflexivity.
Qed.

Lemma list_workflows_in d x :
  In x (list_workflows d) <-> exists p, In (p, FWorkflow x) d /\ globbed p = true.
Proof.
  induction d as [|[p f] d IH]; simpl.
  - split; [intros []|intros (p & [] & _)].
  - destruct (globbed p) eqn:G; [destruct f as [w|e]|]; simpl; rewrite IH; split.
    + intros [<-|(p' & Hin & Hg)]; [exists p; auto | exists p'; auto].
    + intros (p' & [E|Hin] & Hg); [injection E as -> ->; auto | right; exists p'; auto].
    + intros (p' & Hin & Hg). exists p'. auto.
    + intros (p' & [E|Hin] & Hg); [discriminate E | exists p'; auto].
    + intros (p' & Hin & Hg). exists p'. auto.
    + intros (p' & [E|Hin] & Hg); [injection E as -> _; congruence | exists p'; auto].
Qed.




(** X10: [list_workflows] lists exactly the workflows of the files of the
    storage directory itself whose names end in ".json", skipping the
    ones that fail to load; a workflow just saved, with a completed write,
    under an id without '/' is among them. *)
Theorem list_workflows_files :
  (forall d x, In x (list_workflows d) <-> exists p, In (p, FWorkflow x) d /\ globbed p = true) /\
  (forall fs fresh now w d,
     py_contains (assigned_id fresh w) "/" = false ->
     fs (workflow_path (assigned_id fresh w)) = Written ->
     let '(d', r) := save_workflow fs fresh now w d in
     exists w', r = Ok (assigned_id fresh w, w') /\ In w' (list_workflows d')).
Proof.
  split.
  - exact list_workflows_in.
  - intros fs fresh now w d Hid Hw. unfold save_workflow. cbv zeta. rewrite Hw.
    eexists. split; [reflexivity|].
    apply list_workflows_in. exists (workflow_path (assigned_id fresh w)).
    split; [apply smap_set_in_self | apply globbed_path; exact Hid].
Qed.

Lemma list_workflows_files_witness :
  py_contains (assigned_id "u-1" (mkStored None "demo" None [] [] None None)) "/" = false /\
  let '(d', r) := save_workflow (fun _ => Written) "u-1" "t0"
                    (mkStored None "demo" None [] [] None None) [] in
  exists w', r = Ok ("u-1", w') /\ In w' (list_workflows d').
Proof.
  split; [reflexivity|].
  exact (proj2 list_workflows_files (fun _ => Written) "u-1" "t0"
           (mkStored None "demo" None [] [] None None) [] eq_refl eq_refl).
Defined.

(** ** The endpoints *)

(** What [execute] returns for a workflow with an id: the record of the
    run under the given execution id, finished at the second stamp. *)
Lemma execute_record (rt : Runtime) exec_id started finished wf inputs wid :
  wf_id wf = Some wid ->
  exists w, @execute rt exec_id started finished wf inputs = Ok w /\
    execution_id (w_result w) = exec_id /\ workflow_id (w_result w) = wid /\
    started_at (w_result w) = started /\ completed_at (w_result w) = Some finished /\
    (status (w_result w) = COMPLETED \/ status (w_result w) = FAILED).
Proof.
  intros E. unfold execute, prepare.
  destruct (alloc_json [] (JDict inputs)) as [h0 v0].
  destruct (alloc_nodes h0 (wf_nodes wf)) as [h1 rs]. rewrite E.
  match goal with |- context [run_body rs (wf_edges wf) v0 ?w0] =>
    pose proof (pres_run_body rs (wf_edges wf) v0 w0) as F end.
  unfold Preserves, R_run, rec_frame in F.
  destruct (run_body rs (wf_edges wf) v0 _) as [w1 res]. cbn [fst] in F.
  destruct F as (Fe & Fw & _ & Fs & _).
  destruct res; eexists; (split; [reflexivity|]); cbn; rewrite Fe, Fw, Fs; cbn.
  all: repeat split; auto.
Qed.

Lemma save_workflow_get fs fresh now w d :
  fs (workflow_path (assigned_id fresh w)) = Written ->
  exists w', save_workflow fs fresh now w d =
               (smap_set (workflow_path (assigned_id fresh w)) (FWorkflow w') d,
                Ok (assigned_id fresh w, w')) /\
             sw_id w' = Some (assigned_id fresh w).
Proof.
  intros Hw. unfold save_workflow. cbv zeta. rewrite Hw. eexists. split; reflexivity.
Qed.

(** X11: creating a workflow and then running it by the id the creation
    returned answers with the record of that run: its execution id, the
    workflow id, both stamps, and status COMPLETED or FAILED (a failing
    node gives a FAILED record, not an HTTP error); the same record is
    then served by [GET /executions/{execution_id}].  When writing the
    file fails, the creation answers 500 with the error's text instead:
    if [open] raised, no file changes; if the writing raised after
    [open], running the id then answers 500 with the error of loading the
    partial file. *)
Theorem create_then_execute :
  forall (rt : Runtime) fs fresh now w d ex exec_id started finished inputs,
    let id := assigned_id fresh w in
    let '(d', resp) := create_workflow_ep fs fresh now w d in
    match fs (workflow_path id) with
    | Written =>
        resp = Respond (id, "saved") /\
        exists ex' body,
          @execute_workflow_ep rt d' ex exec_id started finished id inputs = (ex', Respond body) /\
          rr_execution_id body = exec_id /\ rr_workflow_id body = id /\
          rr_started_at body = started /\ rr_completed_at body = Some finished /\
          (rr_status body = COMPLETED \/ rr_status body = FAILED) /\
          exists r, get_execution_ep ex' exec_id = Respond r /\ run_response r = body
    | OpenFailed e => resp = HTTPError 500 e /\ d' = d
    | DumpFailed e e' =>
        resp = HTTPError 500 e /\
        @execute_workflow_ep rt d' ex exec_id started finished id inputs = (ex, HTTPError 500 e')
    end.
Proof.
  intros rt fs fresh now w d ex exec_id started finished inputs id.
  unfold create_workflow_ep.
  destruct (fs (workflow_path id)) as [|e|e e'] eqn:Hfs.
  - destruct (save_workflow_get fs fresh now w d Hfs) as (w' & Es & Gid).
    fold id in Es, Gid. rewrite Es. split; [reflexivity|].
    unfold execute_workflow_ep, get_workflow. rewrite smap_get_set, String.eqb_refl.
    destruct (execute_record rt exec_id started finished (to_workflow w') inputs id Gid)
      as (w1 & Ew & Hx & Hw & Hs & Hc & Hst).
    unfold engine_execute. rewrite Ew.
    do 2 eexists. split; [reflexivity|]. cbn [run_response rr_execution_id rr_workflow_id
      rr_started_at rr_completed_at rr_status].
    do 5 (split; [assumption|]).
    exists (w_result w1). split; [|reflexivity].
    unfold get_execution_ep, get_execution. rewrite smap_get_set, String.eqb_refl. reflexivity.
  - unfold save_workflow. cbv zeta. fold id. rewrite Hfs. split; reflexivity.
  - unfold save_workflow. cbv zeta. fold id. rewrite Hfs. split; [reflexivity|].
    unfold execute_workflow_ep, get_workflow. rewrite smap_get_set, String.eqb_refl.
    reflexivity.
Qed.

Lemma create_then_execute_witness :
  (let '(d', resp) := create_workflow_ep (fun _ => Written) "u-1" "t0" (mkStored None "demo" None
                        (wf_nodes Examples.wf_se) (wf_edges Examples.wf_se) None None) [] in
   resp = Respond ("u-1", "saved") /\
   exists ex' body,
     @execute_workflow_ep Demo.runtime d' [] "run" "t1" "t2" "u-1" [] = (ex', Respond body) /\
     rr_execution_id body = "run" /\ rr_workflow_id body = "u-1" /\
     rr_started_at body = "t1" /\ rr_completed_at body = Some "t2" /\
     (rr_status body = COMPLETED \/ rr_status body = FAILED) /\
     exists r, get_execution_ep ex' "run" = Respond r /\ run_response r = body) /\
  (let '(d', resp) := create_workflow_ep (fun _ => OpenFailed "embedded null byte") "u-1" "t0"
                        (mkStored (Some ("a" ++ String zero "b")) "demo" None [] [] None None) [] in
   resp = HTTPError 500 "embedded null byte" /\ d' = []).
Proof.
  split.
  - exact (create_then_execute Demo.runtime (fun _ => Written) "u-1" "t0"
             (mkStored None "demo" None (wf_nodes Examples.wf_se) (wf_edges Examples.wf_se) None None)
             [] [] "run" "t1" "t2" []).
  - exact (create_then_execute Demo.runtime (fun _ => OpenFailed "embedded null byte") "u-1" "t0"
             (mkStored (Some ("a" ++ String zero "b")) "demo" None [] [] None None) [] [] "run" "t1" "t2" []).
Defined.



(** ** The node handlers *)

Lemma heap_set_deref h l o : deref h l = Some o -> heap_set h l o = h.
Proof.
  revert l. induction h as [|x h IH]; intros [|l]; simpl; try discriminate.
  - intros E. injection E as ->. reflexivity.
  - intros E. rewrite (IH l E). reflexivity.
Qed.

Lemma total_state_get k : Total (state_get k).
Proof.
  intros w. unfold state_get, bind, get_state, get_heap.
  destruct (state_get_dict (w_heap w) (w_state w) k). do 2 eexists. reflexivity.
Qed.

Lemma nl_bind {A} (m : M A) (k : A -> M (val * option string)) :
  (forall a, NoLabel (k a)) -> NoLabel (bind m k).
Proof.
  intros Hk w w' out lbl E. unfold bind in E.
  destruct (m w) as [w1 [a|e]]; [exact (Hk a w1 w' out lbl E) | discriminate E].
Qed.

Lemma nl_ret out : NoLabel (ret (out, None)).
Proof. intros w w' o l E. injection E as _ _ <-. reflexivity. Qed.

Lemma nl_raise e : NoLabel (raise e).
Proof. intros w w' o l E. discriminate E. Qed.

Lemma nl_try m hd : NoLabel m -> (forall e, NoLabel (hd e)) -> NoLabel (try_except m hd).
Proof.
  intros Hm Hh w w' out lbl E. unfold try_except in E.
  destruct (m w) as [w1 [a|e]] eqn:Em.
  - inversion E; subst. eapply Hm. exact Em.
  - exact (Hh e w1 w' out lbl E).
Qed.

Ltac nolabel :=
  repeat match goal with
  | |- forall _, _ => intro
  | |- NoLabel (let _ := _ in _) => cbv zeta
  | |- NoLabel (bind _ _) => apply nl_bind
  | |- NoLabel (ret _) => apply nl_ret
  | |- NoLabel (raise _) => apply nl_raise
  | |- NoLabel (try_except _ _) => apply nl_try
  | |- NoLabel (if ?b then _ else _) => destruct b
  | |- NoLabel (match ?x with _ => _ end) => destruct x
  end.

Section Transform.
Context `{Runtime}.

Lemma nolabel_transform data : NoLabel (execute_transform_node data).
Proof. unfold execute_transform_node, singleton_dict, error_output. nolabel. Qed.

Lemma total_transform data : Total (execute_transform_node data).
Proof.
  unfold execute_transform_node.
  do 4 (apply total_bind; [apply total_data_get | intros ?]).
  apply total_bind; [apply total_state_get | intros ?].
  apply total_try. intros e. unfold error_output.
  apply total_bind; [apply total_new_obj | intros; apply total_ret].
Qed.

(** [_substitute_variables] on a text without ["{{"], the state's
    [inputs] and [variables] being dicts: the text itself, after the
    allocation of the merged dict. *)
Lemma subst_plain_ok w s lv dv li di :
  dict_lookup (VStr "variables") (w_state w) = Some (VRef lv) -> deref (w_heap w) lv = Some (ODict dv) ->
  dict_lookup (VStr "inputs") (w_state w) = Some (VRef li) -> deref (w_heap w) li = Some (ODict di) ->
  py_contains s "{{" = false ->
  subst (VStr s) w =
    (mkWorld (w_heap w ++ [ODict (dict_update (dict_update [] di) dv)])%list (w_state w) (w_result w) (w_log w),
     Ok s).
Proof.
  intros Hv Hlv Hi Hli Hs. destruct w as [h st r0 lg]. cbn [w_heap w_state w_result w_log] in *.
  unfold subst, bind, get_state, on_heap, substitute_variables, state_get_dict.
  cbn [w_heap w_state w_result w_log]. rewrite Hv, Hi. cbn [as_dict]. rewrite Hli, Hlv.
  cbn [alloc]. unfold re_sub. rewrite sub_scan_plain by exact Hs. reflexivity.
Qed.

(** [_substitute_variables] on any text, the state's [inputs] and
    [variables] being dicts: the text with each [{{...}}] replaced by
    [replace_var] over the merged dict allocated at the end of the heap. *)
Lemma subst_ok w s lv dv li di :
  dict_lookup (VStr "variables") (w_state w) = Some (VRef lv) -> deref (w_heap w) lv = Some (ODict dv) ->
  dict_lookup (VStr "inputs") (w_state w) = Some (VRef li) -> deref (w_heap w) li = Some (ODict di) ->
  subst (VStr s) w =
    (mkWorld (w_heap w ++ [ODict (dict_update (dict_update [] di) dv)])%list (w_state w) (w_result w) (w_log w),
     snd (substitute_variables (w_heap w) (w_state w) (VStr s))).
Proof.
  intros Hv Hlv Hi Hli. destruct w as [h st r0 lg]. cbn [w_heap w_state w_result w_log] in *.
  unfold subst, bind, get_state, on_heap, substitute_variables, state_get_dict.
  cbn [w_heap w_state w_result w_log]. rewrite Hv, Hi. cbn [as_dict]. rewrite Hli, Hlv.
  cbn [alloc]. reflexivity.
Qed.

(** The loop of [concat] over the one-character strings of a string. *)
Lemma concat_chars_ok (f : val -> M string) cs :
  (forall x w, f x w = subst (VStr (py_str (w_heap w) x)) w) ->
  forall w lv dv li di,
  dict_lookup (VStr "variables") (w_state w) = Some (VRef lv) -> deref (w_heap w) lv = Some (ODict dv) ->
  dict_lookup (VStr "inputs") (w_state w) = Some (VRef li) -> deref (w_heap w) li = Some (ODict di) ->
  exists w', map_m f (map (fun c => VStr (String c "")) cs) w = (w', Ok (map (fun c => String c "") cs)) /\
    w_state w' = w_state w /\ w_result w' = w_result w /\ heap_ext (w_heap w) (w_heap w').
Proof.
  intros Hf. induction cs as [|c cs IH]; intros w lv dv li di Hv Hlv Hi Hli.
  - exists w. split; [reflexivity|]. split; [reflexivity|]. split; [reflexivity | apply heap_ext_refl].
  - cbn [map map_m].
    set (w1 := mkWorld (w_heap w ++ [ODict (dict_update (dict_update [] di) dv)])%list
                       (w_state w) (w_result w) (w_log w)).
    rewrite (bind_ok _ _ w w1 (String c "")).
    2: { rewrite Hf. cbn [py_str]. apply (subst_plain_ok w _ lv dv li di Hv Hlv Hi Hli).
         cbn. rewrite andb_false_r. reflexivity. }
    assert (Hx : heap_ext (w_heap w) (w_heap w1)) by (eexists; reflexivity).
    destruct (IH w1 lv dv li di Hv (deref_heap_ext _ _ _ _ Hx Hlv) Hi (deref_heap_ext _ _ _ _ Hx Hli))
      as (w2 & E & Hs2 & Hr2 & Hx2).
    rewrite (bind_ok _ _ w1 w2 _ E). exists w2. split; [reflexivity|].
    split; [exact Hs2|]. split; [exact Hr2|]. eapply heap_ext_trans; eassumption.
Qed.

End Transform.

(** X13: the start node's output is the object [state["inputs"]] itself
    and changes nothing; the end node's output is a new dict whose one
    entry maps the data's [output_key] (["result"] when absent) to the
    object [state["variables"]] itself, not a copy, and an unhashable
    [output_key] (a list or a dict) raises [TypeError], which
    [_execute_node] does not catch. *)
Theorem start_end_outputs : forall (rt : Runtime) n w,
  (rn_type n = "start" -> forall v, dict_lookup (VStr "inputs") (w_state w) = Some v ->
     execute_node n w = (w, Ok (v, None))) /\
  (rn_type n = "end" -> forall v, dict_lookup (VStr "variables") (w_state w) = Some v ->
     let h := w_heap w in
     let k := match as_dict h (rn_data n) with
              | Some d => dict_get d (VStr "output_key") (VStr "result")
              | None => VStr "result"
              end in
     execute_node n w =
       if hashable k then
         (mkWorld (h ++ [ODict [(k, v)]])%list (w_state w) (w_result w) (w_log w),
          Ok (VRef (length h), None))
       else (w, Exc ("unhashable type: '" ++ type_name h k ++ "'"))).
Proof.
  intros rt n [h0 st r0 lg]. unfold execute_node. cbn [w_heap w_state w_result w_log].
  split; intros Ht v Hv; rewrite Ht; cbv zeta;
    unfold bind, state_get, get_state, get_heap, put_heap, ret, data_get, data_lookup;
    cbn -[hashable dict_lookup]; unfold state_get_dict; rewrite Hv; [reflexivity|].
  unfold singleton_dict, dict_get, bind, get_heap, raise, new_dict, new_obj, bind, put_heap, ret,
    get_heap, alloc.
  destruct (as_dict h0 (rn_data n)) as [d|]; [destruct (dict_lookup (VStr "output_key") d)|];
  cbn -[hashable]; [destruct (hashable _)|..]; reflexivity.
Qed.

Lemma start_end_outputs_witness :
  let w := Examples.node_world [(VStr "output_key", VStr "final")] in
  (rn_type (Examples.data_node "end") = "start" ->
   forall v, dict_lookup (VStr "inputs") (w_state w) = Some v ->
   @execute_node Demo.runtime (Examples.data_node "end") w = (w, Ok (v, None))) /\
  (rn_type (Examples.data_node "end") = "end" ->
   forall v, dict_lookup (VStr "variables") (w_state w) = Some v ->
   let h := w_heap w in
   let k := match as_dict h (rn_data (Examples.data_node "end")) with
            | Some d => dict_get d (VStr "output_key") (VStr "result")
            | None => VStr "result"
            end in
   @execute_node Demo.runtime (Examples.data_node "end") w =
     if hashable k then
       (mkWorld (h ++ [ODict [(k, v)]])%list (w_state w) (w_result w) (w_log w),
        Ok (VRef (length h), None))
     else (w, Exc ("unhashable type: '" ++ type_name h k ++ "'"))).
Proof.
  exact (start_end_outputs Demo.runtime (Examples.data_node "end")
           (Examples.node_world [(VStr "output_key", VStr "final")])).
Defined.

(** X14: a delay node without [seconds] waits one second and outputs
    [{"delayed": 1}]; with an integer below [2^1024 - 2^970] it outputs
    that integer; with a larger integer, converting it to a float raises
    [OverflowError] ("int too large to convert to float"); with a string,
    [asyncio.sleep] raises [TypeError] ("'<=' not supported between
    instances of 'str' and 'int'").  [_execute_node] catches neither. *)
Theorem delay_node_seconds : forall (rt : Runtime) n w d,
  rn_type n = "delay" -> as_dict (w_heap w) (rn_data n) = Some d ->
  let h := w_heap w in
  let w' s := mkWorld (h ++ [ODict [(VStr "delayed", s)]])%list (w_state w) (w_result w) (w_log w) in
  (dict_lookup (VStr "seconds") d = None ->
   execute_node n w = (w' (VInt 1), Ok (VRef (length h), None))) /\
  (forall z, dict_lookup (VStr "seconds") d = Some (VInt z) -> (z < float_overflow_bound)%Z ->
   execute_node n w = (w' (VInt z), Ok (VRef (length h), None))) /\
  (forall z, dict_lookup (VStr "seconds") d = Some (VInt z) -> (float_overflow_bound <= z)%Z ->
   execute_node n w = (w, Exc "int too large to convert to float")) /\
  (forall s, dict_lookup (VStr "seconds") d = Some (VStr s) ->
   execute_node n w = (w, Exc "'<=' not supported between instances of 'str' and 'int'")).
Proof.
  intros rt n [h st r0 lg] d Ht Hd. cbn [w_heap w_state w_result w_log] in *. cbv zeta.
  unfold execute_node. rewrite Ht. cbn -[execute_delay_node float_overflow_bound].
  unfold execute_delay_node, data_get, data_lookup, new_dict, new_obj, alloc, bind, get_heap,
    put_heap, ret, raise.
  cbn [w_heap w_state w_result w_log]. rewrite Hd.
  split; [|split; [|split]]; [intros E | intros z E Hz | intros z E Hz | intros s E]; rewrite E;
    try reflexivity.
  - destruct (Z.leb_spec float_overflow_bound z); [lia | reflexivity].
  - destruct (Z.leb_spec float_overflow_bound z); [reflexivity | lia].
Qed.

Lemma delay_node_seconds_witness :
  let h := w_heap (Examples.node_world []) in
  @execute_node Demo.runtime (Examples.data_node "delay") (Examples.node_world []) =
    (mkWorld (h ++ [ODict [(VStr "delayed", VInt 1)]])%list (w_state (Examples.node_world []))
             (w_result (Examples.node_world [])) (w_log (Examples.node_world [])),
     Ok (VRef (length h), None)) /\
  (float_overflow_bound > 2)%Z /\
  @execute_node Demo.runtime (Examples.data_node "delay")
                (Examples.node_world [(VStr "seconds", VInt 2)]) =
    (mkWorld (w_heap (Examples.node_world [(VStr "seconds", VInt 2)]) ++
              [ODict [(VStr "delayed", VInt 2)]])%list
             (w_state (Examples.node_world [(VStr "seconds", VInt 2)]))
             (w_result (Examples.node_world [(VStr "seconds", VInt 2)]))
             (w_log (Examples.node_world [(VStr "seconds", VInt 2)])),
     Ok (VRef (length (w_heap (Examples.node_world [(VStr "seconds", VInt 2)]))), None)) /\
  (float_overflow_bound <= 10 ^ 400)%Z /\
  @execute_node Demo.runtime (Examples.data_node "delay")
                (Examples.node_world [(VStr "seconds", VInt (10 ^ 400))]) =
    (Examples.node_world [(VStr "seconds", VInt (10 ^ 400))],
     Exc "int too large to convert to float") /\
  @execute_node Demo.runtime (Examples.data_node "delay")
                (Examples.node_world [(VStr "seconds", VStr "x")]) =
    (Examples.node_world [(VStr "seconds", VStr "x")],
     Exc "'<=' not supported between instances of 'str' and 'int'").
Proof.
  split; [|split; [|split; [|split; [|split]]]].
  - exact (proj1 (delay_node_seconds Demo.runtime (Examples.data_node "delay")
                    (Examples.node_world []) [] eq_refl eq_refl) eq_refl).
  - vm_compute. reflexivity.
  - exact (proj1 (proj2 (delay_node_seconds Demo.runtime (Examples.data_node "delay")
             (Examples.node_world [(VStr "seconds", VInt 2)]) [(VStr "seconds", VInt 2)]
             eq_refl eq_refl)) 2%Z eq_refl ltac:(vm_compute; reflexivity)).
  - vm_compute. discriminate.
  - exact (proj1 (proj2 (proj2 (delay_node_seconds Demo.runtime (Examples.data_node "delay")
             (Examples.node_world [(VStr "seconds", VInt (10 ^ 400))])
             [(VStr "seconds", VInt (10 ^ 400))] eq_refl eq_refl)))
             (10 ^ 400)%Z eq_refl ltac:(vm_compute; discriminate)).
  - exact (proj2 (proj2 (proj2 (delay_node_seconds Demo.runtime (Examples.data_node "delay")
             (Examples.node_world [(VStr "seconds", VStr "x")]) [(VStr "seconds", VStr "x")]
             eq_refl eq_refl))) "x" eq_refl).
Defined.

(** X15: a node of a type the engine does not know outputs a new empty
    dict with no label, and merging that output into the state changes
    nothing: the state, the record and every object stay as they were. *)
Theorem unknown_node_noop : forall (rt : Runtime) n w l dv,
  ~ In (rn_type n) ["start"; "end"; "agent"; "tool"; "decision"; "transform"; "delay"] ->
  dict_lookup (VStr "variables") (w_state w) = Some (VRef l) ->
  deref (w_heap w) l = Some (ODict dv) ->
  let w1 := mkWorld (w_heap w ++ [ODict []])%list (w_state w) (w_result w) (w_log w) in
  execute_node n w = (w1, Ok (VRef (length (w_heap w)), None)) /\
  merge_output (VRef (length (w_heap w))) w1 = (w1, Ok tt).
Proof.
  intros rt n [h st r0 lg] l dv Hn Hv Hl. cbn [w_heap w_state w_result w_log] in *. cbv zeta.
  split.
  - unfold execute_node.
    destruct (String.eqb_spec (rn_type n) "start") as [E|_]; [rewrite E in Hn; simpl in Hn; tauto|].
    destruct (String.eqb_spec (rn_type n) "end") as [E|_]; [rewrite E in Hn; simpl in Hn; tauto|].
    destruct (String.eqb_spec (rn_type n) "agent") as [E|_]; [rewrite E in Hn; simpl in Hn; tauto|].
    destruct (String.eqb_spec (rn_type n) "tool") as [E|_]; [rewrite E in Hn; simpl in Hn; tauto|].
    destruct (String.eqb_spec (rn_type n) "decision") as [E|_]; [rewrite E in Hn; simpl in Hn; tauto|].
    destruct (String.eqb_spec (rn_type n) "transform") as [E|_]; [rewrite E in Hn; simpl in Hn; tauto|].
    destruct (String.eqb_spec (rn_type n) "delay") as [E|_]; [rewrite E in Hn; simpl in Hn; tauto|].
    reflexivity.
  - unfold merge_output, bind, get_heap, get_state, put_heap, put_state, ret.
    cbn [w_heap w_state w_result w_log as_dict].
    rewrite deref_alloc. cbn [w_heap w_state w_result w_log]. rewrite Hv.
    assert (Hl' : deref (h ++ [ODict []])%list l = Some (ODict dv))
      by (apply (deref_heap_ext h); [exists [ODict []]; reflexivity | exact Hl]).
    rewrite Hl'. cbn [dict_update fold_left w_heap w_state w_result w_log].
    rewrite (heap_set_deref _ _ _ Hl'). cbn [as_dict]. rewrite deref_alloc. reflexivity.
Qed.

Lemma unknown_node_noop_witness :
  let w := Examples.node_world [] in
  let w1 := mkWorld (w_heap w ++ [ODict []])%list (w_state w) (w_result w) (w_log w) in
  @execute_node Demo.runtime (Examples.data_node "note") w = (w1, Ok (VRef (length (w_heap w)), None)) /\
  @merge_output (VRef (length (w_heap w))) w1 = (w1, Ok tt).
Proof.
  exact (unknown_node_noop Demo.runtime (Examples.data_node "note") (Examples.node_world []) 0
           [(VStr "log", VRef 1)] ltac:(intros Hin; simpl in Hin; intuition discriminate)
           eq_refl eq_refl).
Defined.

(** X16: a tool node whose [args] is present but not a dict (a string, a
    number, a list, [None]) raises [AttributeError] ("'<type>' object has
    no attribute 'items'") before the tool is called; the [try] of
    [_execute_tool_node] only guards the call, so the exception leaves
    [_execute_node] and fails the run. *)
Theorem tool_args_not_dict : forall (rt : Runtime) n w d a,
  rn_type n = "tool" -> as_dict (w_heap w) (rn_data n) = Some d ->
  dict_lookup (VStr "args") d = Some a -> as_dict (w_heap w) a = None ->
  execute_node n w = (w, Exc ("'" ++ type_name (w_heap w) a ++ "' object has no attribute 'items'")).
Proof.
  intros rt n [h st r0 lg] d a Ht Hd Ha Hn. cbn [w_heap w_state w_result w_log] in *.
  unfold execute_node. rewrite Ht. cbn -[execute_tool_node].
  unfold execute_tool_node, data_get, data_lookup, bind, get_heap, ret, raise.
  cbn [w_heap w_state w_result w_log]. rewrite Hd, Ha, Hn. reflexivity.
Qed.

Lemma tool_args_not_dict_witness :
  @execute_node Demo.runtime (Examples.data_node "tool") (Examples.node_world [(VStr "args", VStr "x")]) =
    (Examples.node_world [(VStr "args", VStr "x")], Exc "'str' object has no attribute 'items'").
Proof.
  exact (tool_args_not_dict Demo.runtime (Examples.data_node "tool")
           (Examples.node_world [(VStr "args", VStr "x")]) [(VStr "args", VStr "x")] (VStr "x")
           eq_refl eq_refl eq_refl eq_refl).
Defined.

(** X17: a decision node with a truthy [use_llm] takes the branch "yes"
    exactly when the model's reply, stripped and lower-cased, contains
    "yes" anywhere (so "Yes.", "eyes" and "no, not yes" all give "yes"),
    and "no" otherwise, outputting [{"decision": label}]; when the model
    raises, the branch is "default" and the output [{"error": str(e)}].
    The prompt holds the condition as written, without substitution. *)
Theorem llm_decision_label :
  forall (rt : Runtime) n w d vv ctx,
    rn_type n = "decision" ->
    as_dict (w_heap w) (rn_data n) = Some d ->
    py_truthy (w_heap w) (dict_get d (VStr "use_llm") (VBool false)) = true ->
    dict_lookup (VStr "variables") (w_state w) = Some vv ->
    json_dumps (w_heap w) vv = Ok ctx ->
    let prompt := llm_prompt (py_str (w_heap w) (dict_get d (VStr "condition") (VStr ""))) ctx in
    (forall r, llm_invoke prompt = Ok r ->
       let l := if py_contains (py_lower (py_strip r)) "yes" then "yes" else "no" in
       execute_node n w =
         (mkWorld (w_heap w ++ [ODict [(VStr "decision", VStr l)]])%list (w_state w) (w_result w) (w_log w),
          Ok (VRef (length (w_heap w)), Some l))) /\
    (forall e, llm_invoke prompt = Exc e ->
       execute_node n w =
         (mkWorld (w_heap w ++ [ODict [(VStr "error", VStr e)]])%list (w_state w) (w_result w) (w_log w),
          Ok (VRef (length (w_heap w)), Some "default"))).
Proof.
  intros rt n [h st r0 lg] d vv ctx Ht Hd Hu Hv Hj. cbn [w_heap w_state w_result w_log] in *.
  unfold dict_get in Hu. cbv zeta.
  split; intros x Hx;
  unfold execute_node; rewrite Ht; cbn -[execute_decision_node];
  unfold execute_decision_node, data_get, data_lookup, try_except, state_get, get_state,
    state_get_dict, lift, error_output, new_dict, new_obj, alloc, bind, get_heap, put_heap, ret, raise;
  cbn [w_heap w_state w_result w_log]; rewrite Hd; rewrite Hu; cbn [w_heap w_state w_result w_log];
  rewrite Hv; cbn [w_heap w_state w_result w_log]; rewrite Hj; cbn [w_heap w_state w_result w_log];
  unfold dict_get in Hx; rewrite Hx; [destruct (py_contains _ _)|]; reflexivity.
Qed.

Lemma llm_decision_label_witness :
  let rt := Examples.llm_runtime "No, not yes" in
  let w := Examples.node_world [(VStr "use_llm", VBool true); (VStr "condition", VStr "ok?")] in
  let d := [(VStr "use_llm", VBool true); (VStr "condition", VStr "ok?")] in
  let prompt := llm_prompt (py_str (w_heap w) (dict_get d (VStr "condition") (VStr ""))) "{}" in
  (forall r, @llm_invoke rt prompt = Ok r ->
     let l := if py_contains (py_lower (py_strip r)) "yes" then "yes" else "no" in
     @execute_node rt (Examples.data_node "decision") w =
       (mkWorld (w_heap w ++ [ODict [(VStr "decision", VStr l)]])%list (w_state w) (w_result w) (w_log w),
        Ok (VRef (length (w_heap w)), Some l))) /\
  (forall e, @llm_invoke rt prompt = Exc e ->
     @execute_node rt (Examples.data_node "decision") w =
       (mkWorld (w_heap w ++ [ODict [(VStr "error", VStr e)]])%list (w_state w) (w_result w) (w_log w),
        Ok (VRef (length (w_heap w)), Some "default"))).
Proof.
  exact (llm_decision_label (Examples.llm_runtime "No, not yes") (Examples.data_node "decision")
           (Examples.node_world [(VStr "use_llm", VBool true); (VStr "condition", VStr "ok?")])
           [(VStr "use_llm", VBool true); (VStr "condition", VStr "ok?")] (VRef 0) "{}"
           eq_refl eq_refl eq_refl eq_refl eq_refl).
Defined.

(** X18: a transform node never raises and never returns a label: every
    exception of its operations (an unhashable target, a non-dict
    variables object, ...) is caught and turned into [{"error": str(e)}],
    and the loop then follows the first or the "default" edge. *)
Theorem transform_never_raises : forall (rt : Runtime) n w,
  rn_type n = "transform" -> exists w' out, execute_node n w = (w', Ok (out, None)).
Proof.
  intros rt n w Ht. unfold execute_node. rewrite Ht. cbn -[execute_transform_node].
  destruct (total_transform (rn_data n) w) as (w' & [out lbl] & E).
  rewrite (nolabel_transform (rn_data n) w w' out lbl E) in E.
  exists w', out. exact E.
Qed.

Lemma transform_never_raises_witness :
  exists w' out, @execute_node Demo.runtime (Examples.data_node "transform")
                   (Examples.node_world [(VStr "target", VStr "log")]) = (w', Ok (out, None)).
Proof.
  exact (transform_never_raises Demo.runtime (Examples.data_node "transform")
           (Examples.node_world [(VStr "target", VStr "log")]) eq_refl).
Defined.

(** X19: the [append] operation on a variable that holds a list appends
    the substituted value (what [_substitute_variables] makes of
    [str(value)], [""] when [value] is absent) to that list object in
    place, before the output is merged, and its output maps the target to
    that same list object; the state and the record are left alone. *)
Theorem append_in_place : forall (rt : Runtime) n w d t v lv dv l xs li di,
  rn_type n = "transform" -> as_dict (w_heap w) (rn_data n) = Some d ->
  dict_lookup (VStr "operation") d = Some (VStr "append") ->
  dict_lookup (VStr "target") d = Some (VStr t) ->
  dict_get d (VStr "value") (VStr "") = v ->
  dict_lookup (VStr "variables") (w_state w) = Some (VRef lv) -> deref (w_heap w) lv = Some (ODict dv) ->
  dict_lookup (VStr t) dv = Some (VRef l) -> deref (w_heap w) l = Some (OList xs) ->
  dict_lookup (VStr "inputs") (w_state w) = Some (VRef li) -> deref (w_heap w) li = Some (ODict di) ->
  exists w' lo r,
    execute_node n w = (w', Ok (VRef lo, None)) /\
    snd (substitute_variables (w_heap w) (w_state w) (VStr (py_str (w_heap w) v))) = Ok r /\
    deref (w_heap w') lo = Some (ODict [(VStr t, VRef l)]) /\
    deref (w_heap w') l = Some (OList (xs ++ [VStr r])) /\
    w_state w' = w_state w /\ w_result w' = w_result w.
Proof.
  intros rt n [h st r0 lg] d t v lv dv l xs li di Ht Hd Hop Htg Hval Hv Hlv Hl Hxs Hi Hli.
  cbn [w_heap w_state w_result w_log] in *. unfold dict_get in Hval.
  unfold execute_node. rewrite Ht. cbn -[execute_transform_node].
  cbv beta iota zeta delta [execute_transform_node bind ret raise get_heap get_state put_heap
    put_state data_get data_lookup state_get state_get_dict try_except method_get
    method_get_default singleton_dict new_obj new_dict alloc list_append val_is_str
    w_heap w_state w_result w_log].
  rewrite Hd. cbv beta iota zeta. rewrite Hop, Htg, Hval, Hv. cbv beta iota zeta.
  cbv beta iota zeta delta [String.eqb Ascii.eqb Bool.eqb].
  cbn [as_dict]. rewrite Hlv. cbv beta iota zeta delta [hashable]. rewrite Hl.
  cbv beta iota zeta delta [as_list].
  rewrite Hxs. cbv beta iota zeta.
  rewrite (subst_ok (mkWorld h st r0 lg) (py_str h v) lv dv li di Hv Hlv Hi Hli).
  cbn [w_heap w_state w_result w_log].
  assert (Hs : exists r, snd (substitute_variables h st (VStr (py_str h v))) = Ok r).
  { unfold substitute_variables, state_get_dict. rewrite Hv, Hi. cbn [as_dict].
    rewrite Hli, Hlv. cbn [alloc snd]. eexists. reflexivity. }
  destruct Hs as [r Hs]. rewrite Hs. cbv beta iota zeta.
  set (h2 := (h ++ [ODict (dict_update (dict_update [] di) dv)])%list).
  assert (Hx2 : deref h2 l = Some (OList xs))
    by (apply (deref_heap_ext h); [eexists; reflexivity | exact Hxs]).
  rewrite Hx2. cbv beta iota zeta.
  do 3 eexists. split; [reflexivity|]. cbv beta iota zeta.
  split; [reflexivity|].
  split; [|split; [|split; reflexivity]].
  - apply deref_alloc.
  - apply (deref_heap_ext (heap_set h2 l (OList (xs ++ [VStr r])))); [eexists; reflexivity|].
    apply (deref_heap_set_same _ _ _ _ Hx2).
Qed.

Lemma append_in_place_witness :
  let data := [(VStr "operation", VStr "append"); (VStr "target", VStr "log");
               (VStr "value", VStr "hi {{ name }}")] in
  let w := Examples.node_world data in
  (exists w' lo r,
    @execute_node Demo.runtime (Examples.data_node "transform") w = (w', Ok (VRef lo, None)) /\
    snd (@substitute_variables Demo.runtime (w_heap w) (w_state w)
           (VStr (@py_str Demo.runtime (w_heap w) (VStr "hi {{ name }}")))) = Ok r /\
    deref (w_heap w') lo = Some (ODict [(VStr "log", VRef 1)]) /\
    deref (w_heap w') 1 = Some (OList ([VStr "a"] ++ [VStr r])) /\
    w_state w' = w_state w /\ w_result w' = w_result w) /\
  snd (@substitute_variables Demo.runtime (w_heap w) (w_state w)
         (VStr (@py_str Demo.runtime (w_heap w) (VStr "hi {{ name }}")))) = Ok "hi Ada".
Proof.
  split.
  - exact (append_in_place Demo.runtime (Examples.data_node "transform")
             (Examples.node_world [(VStr "operation", VStr "append"); (VStr "target", VStr "log");
                                   (VStr "value", VStr "hi {{ name }}")])
             [(VStr "operation", VStr "append"); (VStr "target", VStr "log");
              (VStr "value", VStr "hi {{ name }}")]
             "log" (VStr "hi {{ name }}") 0 [(VStr "log", VRef 1)] 1 [VStr "a"] 2
             [(VStr "name", VStr "Ada")]
             eq_refl eq_refl eq_refl eq_refl eq_refl eq_refl eq_refl eq_refl eq_refl eq_refl eq_refl).
  - vm_compute. reflexivity.
Defined.

(** X20: the [concat] operation iterates over [values]; when [values] is
    a string, that is over its characters, so the output is the string's
    characters joined by the separator (a space when absent): "abc"
    gives "a b c". *)
Theorem concat_string_chars : forall (rt : Runtime) n w d t v sep lv dv li di,
  rn_type n = "transform" -> as_dict (w_heap w) (rn_data n) = Some d ->
  dict_lookup (VStr "operation") d = Some (VStr "concat") ->
  dict_lookup (VStr "target") d = Some (VStr t) ->
  dict_lookup (VStr "values") d = Some (VStr v) ->
  dict_get d (VStr "separator") (VStr " ") = VStr sep ->
  dict_lookup (VStr "variables") (w_state w) = Some (VRef lv) -> deref (w_heap w) lv = Some (ODict dv) ->
  dict_lookup (VStr "inputs") (w_state w) = Some (VRef li) -> deref (w_heap w) li = Some (ODict di) ->
  exists w' lo,
    execute_node n w = (w', Ok (VRef lo, None)) /\
    deref (w_heap w') lo =
      Some (ODict [(VStr t, VStr (py_join sep (map (fun c => String c "") (list_ascii_of_string v))))]) /\
    w_state w' = w_state w /\ w_result w' = w_result w.
Proof.
  intros rt n [h st r0 lg] d t v sep lv dv li di Ht Hd Hop Htg Hval Hsep Hv Hlv Hi Hli.
  cbn [w_heap w_state w_result w_log] in *. unfold dict_get in Hsep.
  unfold execute_node. rewrite Ht. cbn -[execute_transform_node].
  cbv beta iota zeta delta [execute_transform_node bind ret raise get_heap get_state put_heap
    put_state data_get data_lookup state_get state_get_dict try_except method_get
    method_get_default singleton_dict new_obj new_dict alloc list_append val_is_str py_iter
    w_heap w_state w_result w_log].
  rewrite Hd. cbv beta iota zeta. rewrite Hop, Htg, Hv. cbv beta iota zeta.
  cbv beta iota zeta delta [String.eqb Ascii.eqb Bool.eqb hashable].
  rewrite ?Hd. cbv beta iota zeta. rewrite ?Hval, ?Hsep. cbv beta iota zeta.
  match goal with |- context [map_m ?f _ ?w] =>
    destruct (concat_chars_ok f (list_ascii_of_string v) ltac:(intros; reflexivity) w lv dv li di
                Hv Hlv Hi Hli) as (w2 & E & Hs2 & Hr2 & _) end.
  rewrite E. destruct w2 as [h2 st2 r2 lg2]. cbn [w_state w_result] in Hs2, Hr2. subst st2 r2.
  cbv beta iota zeta. rewrite Hd. cbv beta iota zeta. rewrite Hsep. cbv beta iota zeta.
  do 2 eexists. split; [reflexivity|]. cbn [w_heap w_state w_result].
  split; [apply deref_alloc | split; reflexivity].
Qed.

Lemma concat_string_chars_witness :
  let data := [(VStr "operation", VStr "concat"); (VStr "target", VStr "out"); (VStr "values", VStr "abc")] in
  let w := Examples.node_world data in
  exists w' lo,
    @execute_node Demo.runtime (Examples.data_node "transform") w = (w', Ok (VRef lo, None)) /\
    deref (w_heap w') lo =
      Some (ODict [(VStr "out", VStr (py_join " " (map (fun c => String c "") (list_ascii_of_string "abc"))))]) /\
    w_state w' = w_state w /\ w_result w' = w_result w.
Proof.
  exact (concat_string_chars Demo.runtime (Examples.data_node "transform")
           (Examples.node_world [(VStr "operation", VStr "concat"); (VStr "target", VStr "out");
                                 (VStr "values", VStr "abc")])
           [(VStr "operation", VStr "concat"); (VStr "target", VStr "out"); (VStr "values", VStr "abc")]
           "out" "abc" " " 0 [(VStr "log", VRef 1)] 2 [(VStr "name", VStr "Ada")]
           eq_refl eq_refl eq_refl eq_refl eq_refl eq_refl eq_refl eq_refl eq_refl eq_refl).
Defined.
